(** * CMOS inverter sizing: analytical evaluator, optimiser adapter,
      simulation-backed evaluator and grid search.

    Shallow embedding of [perf_cmos_inverter.py], of the bounds declared in
    [optimize_inverter.py] and of [src/optimize_inverter_ltspice.py].

    Python's [float] is IEEE-754 binary64 with round-to-nearest-even, which
    is what Rocq's primitive [float] is: every arithmetic expression of the
    source is transcribed operation for operation, in the source's order, so
    the definitions below compute the very doubles CPython computes.
    Python raises where IEEE-754 would return an infinity or a NaN for a
    zero divisor; that is modelled by the error monad [result]. *)

From Stdlib Require Import ZArith Floats Bool List String Ascii Lia.
From Stdlib Require Import DecimalString.
Import ListNotations.

Set Warnings "-inexact-float".
Local Open Scope float_scope.

(* ================================================================== *)
(** ** Python values, exceptions and control flow *)
(* ================================================================== *)

Module Py.

(** Instances of Python's [Exception] class that the modelled code can
    meet.  [ExternalError] stands for any exception raised by a
    collaborator (spicelib, the file system, [re], [float()]). *)
Inductive exn : Type :=
| ZeroDivisionError
| IndexError
| ValueError
| ExternalError (msg : string).

(** Outcome of evaluating a Python expression or block. *)
Inductive result (A : Type) : Type :=
| Ok (a : A)
| Raise (e : exn).
Arguments Ok {A} a.
Arguments Raise {A} e.

Definition bind {A B} (c : result A) (k : A -> result B) : result B :=
  match c with
  | Ok a => k a
  | Raise e => Raise e
  end.

(** [try: body / except Exception: handler] *)
Definition try_except {A} (body : result A) (handler : exn -> result A)
  : result A :=
  match body with
  | Ok a => Ok a
  | Raise e => handler e
  end.

(** Python's [a / b] on floats: [float_div] raises when [b == 0.0]
    (either zero), otherwise it is the IEEE division. *)
Definition truediv (a b : float) : result float :=
  if b =? 0 then Raise ZeroDivisionError else Ok (a / b).

(** Python's [a > b], [a >= b] and [a < b] on floats. *)
Definition greater (a b : float) : bool := b <? a.
Definition greater_eq (a b : float) : bool := b <=? a.
Definition less (a b : float) : bool := a <? b.

(** [math.isfinite] *)
Definition isfinite (x : float) : bool := is_finite x.

End Py.

Import Py.

Declare Scope py_scope.
Delimit Scope py_scope with py.
Notation "x <- c ;; k" := (Py.bind c (fun x => k))
  (at level 61, c at next level, right associativity) : py_scope.
Notation "' pat <- c ;; k" := (Py.bind c (fun x => let 'pat := x in k))
  (at level 61, pat pattern, c at next level, right associativity) : py_scope.
Local Open Scope py_scope.

(* ================================================================== *)
(** ** perf_cmos_inverter.py *)
(* ================================================================== *)

(** Process constants of the AMS 0.35 um technology (module level). *)
Definition VDD : float := 3.3.
Definition VTH_N : float := 0.498.
Definition VTH_P : float := 0.6915.
Definition U0_N : float := 475.8.
Definition U0_P : float := 148.2.
Definition TOX : float := 7.575e-9.
Definition EPS_OX : float := 3.9 * 8.85e-12.
Definition COX : float := EPS_OX / TOX.

Definition MU_N : float := U0_N * 1e-4.
Definition MU_P : float := U0_P * 1e-4.

Definition KPRIME_N : float := MU_N * COX.
Definition KPRIME_P : float := MU_P * COX.

Definition CL : float := 10e-15.
Definition F_CLK : float := 100e6.
Definition ALPHA_DELAY : float := 0.69.

(** Sentinel resistance of a transistor of non-positive width. *)
Definition R_SENTINEL : float := 1e12.

(** The performance record returned as a dict by [compute_performances]. *)
Record performances : Type := mkPerf {
  delay : float;
  power_dyn : float;
  power_stat : float;
  power_total : float;
  area : float
}.

(** [1.0 / (kprime * (W_m / L_m) * VOD) if W_m > 0 else 1e12] *)
Definition resistance (kprime W_m L_m VOD : float) : result float :=
  if Py.greater W_m 0 then
    q <- Py.truediv W_m L_m ;;
    Py.truediv 1.0 (kprime * q * VOD)
  else Ok R_SENTINEL.

(** [VDD ** 2].  CPython evaluates it with the C library's [pow]; the
    exact square of the double 3.3 lies 0.02 ulp above the double
    10.889999999999999, so every [pow] whose error is below 0.48 ulp
    returns that double, which is also the rounded product. *)
Definition VDD_sq : float := VDD * VDD.

Definition compute_performances (Wn Wp L : float) : result performances :=
  let Wn_m := Wn * 1e-6 in
  let Wp_m := Wp * 1e-6 in
  let L_m := L * 1e-6 in
  let VOD_N := VDD - VTH_N in
  let VOD_P := VDD - VTH_P in
  R_n <- resistance KPRIME_N Wn_m L_m VOD_N ;;
  R_p <- resistance KPRIME_P Wp_m L_m VOD_P ;;
  let tp_n := ALPHA_DELAY * R_n * CL in
  let tp_p := ALPHA_DELAY * R_p * CL in
  let tp := (tp_n + tp_p) / 2.0 in
  let P_dyn := CL * VDD_sq * F_CLK in
  let I_LEAK := 10e-9 in
  let P_stat := I_LEAK * VDD in
  let FACTOR_LAYOUT := 3.0 in
  let area_um2 := (Wn + Wp) * L * FACTOR_LAYOUT in
  Ok {| delay := tp;
        power_dyn := P_dyn;
        power_stat := P_stat;
        power_total := P_dyn + P_stat;
        area := area_um2 |}.

(** [Wp / Wn if Wn > 0.01 else 1.0] *)
Definition sizing_ratio (Wn Wp : float) : result float :=
  if Py.greater Wn 0.01 then Py.truediv Wp Wn else Ok 1.0.

(** [compute_performances_for_optim(x)] with [x] a Python list. *)
Definition compute_performances_for_optim (x : list float)
  : result (list float * list float) :=
  match x with
  | Wn :: Wp :: L :: _ =>
      perf <- compute_performances Wn Wp L ;;
      let f_delay := delay perf * 1e9 in
      let f_power := power_total perf * 1e6 in
      let f_area := area perf in
      let '(w1, w2, w3) := (1.0, 0.01, 0.001) in
      let f := w1 * f_delay + w2 * f_power + w3 * f_area in
      ratio <- sizing_ratio Wn Wp ;;
      let g := [ratio - 1.2; 4.5 - ratio] in
      Ok ([f], g)
  | _ => Raise IndexError
  end.

(* ================================================================== *)
(** ** optimize_inverter.py: the declared bounds of the search space *)
(* ================================================================== *)

(** [problem['xl']] and [problem['xu']]: bounds on [Wn], [Wp], [L]. *)
Definition xl : list float := [0.5; 0.5; 0.35].
Definition xu : list float := [50.0; 150.0; 1.0].

Definition between (lo x hi : float) : bool := (lo <=? x) && (x <=? hi).

(** [x = [Wn, Wp, L]] lies inside the declared box, [xl <= x <= xu]
    componentwise. *)
Definition within_declared_bounds (Wn Wp L : float) : bool :=
  match xl, xu with
  | [Wn_min; Wp_min; L_min], [Wn_max; Wp_max; L_max] =>
      between Wn_min Wn Wn_max && between Wp_min Wp Wp_max
      && between L_min L L_max
  | _, _ => false
  end.

(* ================================================================== *)
(** ** Python's fixed-point float formatting *)
(* ================================================================== *)

(** [format(x, ".<n>f")] prints the exact binary value of [x] rounded to
    [n] decimals, ties to even.  The value of a finite double is
    [m * 2^e]; [scaled_round n m e] is that value times [10^n], rounded
    to an integer. *)
Definition scaled_round (n : nat) (m : positive) (e : Z) : Z :=
  let num := (Zpos m * 10 ^ Z.of_nat n)%Z in
  if (0 <=? e)%Z then (num * 2 ^ e)%Z
  else
    let den := (2 ^ (- e))%Z in
    let q := (num / den)%Z in
    let r := (num mod den)%Z in
    match (2 * r ?= den)%Z with
    | Lt => q
    | Gt => (q + 1)%Z
    | Eq => if Z.even q then q else (q + 1)%Z
    end.

Fixpoint zeros (k : nat) : string :=
  match k with
  | O => EmptyString
  | S k' => String "0" (zeros k')
  end.

(** Decimal rendering of the non-negative integer [v] read as a number
    with [n] fractional digits. *)
Definition fixed_digits (n : nat) (v : Z) : string :=
  let ds := NilZero.string_of_uint (N.to_uint (Z.to_N v)) in
  let padded := (zeros (S n - String.length ds) ++ ds)%string in
  let k := (String.length padded - n)%nat in
  match n with
  | O => padded
  | _ => (substring 0 k padded ++ "." ++ substring k n padded)%string
  end.

Definition format_fixed (n : nat) (x : float) : string :=
  match Prim2SF x with
  | S754_nan => "nan"
  | S754_infinity s => if s then "-inf" else "inf"
  | S754_zero s => ((if s then "-" else EmptyString) ++ fixed_digits n 0)%string
  | S754_finite s m e =>
      ((if s then "-" else EmptyString) ++ fixed_digits n (scaled_round n m e))%string
  end.

(** Last character of a string, when there is one. *)
Fixpoint last_char (s : string) : option ascii :=
  match s with
  | EmptyString => None
  | String c EmptyString => Some c
  | String _ s' => last_char s'
  end.

(* ================================================================== *)
(** ** src/optimize_inverter_ltspice.py: simulation-backed evaluator *)
(* ================================================================== *)

(** [f"{W:.2f}u" if W >= 1 else f"{W*1000:.0f}n"] (used for Wn and Wp) *)
Definition width_str (W_um : float) : string :=
  if Py.greater_eq W_um 1 then (format_fixed 2 W_um ++ "u")%string
  else (format_fixed 0 (W_um * 1000) ++ "n")%string.

(** [f"{L_um:.3f}u" if L_um >= 0.1 else f"{L_um*1000:.0f}n"] *)
Definition length_str (L_um : float) : string :=
  if Py.greater_eq L_um 0.1 then (format_fixed 3 L_um ++ "u")%string
  else (format_fixed 0 (L_um * 1000) ++ "n")%string.

(** The dict returned by [run_simulation_and_extract_delay]. *)
Record outcome : Type := mkOutcome {
  success : bool;
  delay_ns : float;
  tphl : float;
  tplh : float
}.

(** [{'success': False, 'delay_ns': 1e6, 'tphl': 1e6, 'tplh': 1e6}] *)
Definition FAILURE : outcome :=
  {| success := false; delay_ns := 1e6; tphl := 1e6; tplh := 1e6 |}.

(** A finished simulation task; [log_file] is [None] or a path. *)
Record task : Type := mkTask { log_file : option string }.

(** The runner object after [wait_completion]. *)
Record runner : Type := mkRunner {
  failSim : nat;
  completed_tasks : list task
}.

(** A log opened by [LTSpiceLogReader]: [get_measure_value name] raises
    or returns a value, possibly [None]. *)
Definition log_reader : Type := string -> result (option float).

(** Behaviour of the collaborators during one call: spicelib, the file
    system, [re] and [float()].  Every call that Python allows to raise
    returns a [result]. *)
Record toolchain : Type := mkToolchain {
  cir_file_exists : result bool;
  SpiceEditor : result unit;
  set_parameter : string -> string -> result unit;
  SimRunner : result unit;
  runner_run : string -> string -> string -> result unit;
  wait_completion : result runner;
  path_exists : string -> result bool;
  LTSpiceLogReader : string -> result log_reader;
  read_text : string -> result string;
  re_search : string -> string -> option string;
  float_of_str : string -> result float
}.

(** The two patterns of the textual fallback. *)
Definition PAT_TPHL : string := "tphl\s*=\s*([\d.eE+-]+)".
Definition PAT_TPLH : string := "tplh\s*=\s*([\d.eE+-]+)".

(** The [except Exception:] branch of the extraction: scan the raw log;
    a measurement is overwritten only when its pattern matches. *)
Definition textual_fallback (tc : toolchain) (path : string)
    (tphl0 tplh0 : option float) : result (option float * option float) :=
  content <- read_text tc path ;;
  let m_phl := re_search tc PAT_TPHL content in
  let m_plh := re_search tc PAT_TPLH content in
  t_hl <- match m_phl with
          | Some g => v <- float_of_str tc g ;; Ok (Some v)
          | None => Ok tphl0
          end ;;
  t_lh <- match m_plh with
          | Some g => v <- float_of_str tc g ;; Ok (Some v)
          | None => Ok tplh0
          end ;;
  Ok (t_hl, t_lh).

(** Lines 78-93: structured reader first; on any exception the textual
    fallback runs with whatever was already assigned. *)
Definition extract_measurements (tc : toolchain) (path : string)
  : result (option float * option float) :=
  match LTSpiceLogReader tc path with
  | Raise _ => textual_fallback tc path None None
  | Ok log =>
      match log "tphl"%string with
      | Raise _ => textual_fallback tc path None None
      | Ok v_hl =>
          match log "tplh"%string with
          | Raise _ => textual_fallback tc path v_hl None
          | Ok v_lh => Ok (v_hl, v_lh)
          end
      end
  end.

(** The per-measurement sentinel of lines 95-98. *)
Definition MISSING_MEASURE : float := 1e-6.

Definition or_sentinel (v : option float) : float :=
  match v with
  | Some t => t
  | None => MISSING_MEASURE
  end.

(** Lines 95-108: sentinel substitution, average, conversion to ns. *)
Definition success_outcome (t_hl t_lh : option float) : outcome :=
  let tphl := or_sentinel t_hl in
  let tplh := or_sentinel t_lh in
  let tpd := (tphl + tplh) / 2.0 in
  let delay_ns := tpd * 1e9 in
  {| success := true;
     delay_ns := delay_ns;
     tphl := tphl * 1e9;
     tplh := tplh * 1e9 |}.

(** Body of the outer [try] (lines 54-108). *)
Definition simulation_body (tc : toolchain) (Wn_str Wp_str L_str : string)
  : result outcome :=
  _ <- SpiceEditor tc ;;
  _ <- set_parameter tc "Wn" Wn_str ;;
  _ <- set_parameter tc "Wp" Wp_str ;;
  _ <- set_parameter tc "L" L_str ;;
  _ <- SimRunner tc ;;
  _ <- runner_run tc Wn_str Wp_str L_str ;;
  r <- wait_completion tc ;;
  if (0 <? failSim r)%nat || (List.length (completed_tasks r) =? 0)%nat
  then Ok FAILURE
  else
    match log_file (List.last (completed_tasks r) (mkTask None)) with
    | None => Ok FAILURE
    | Some path =>
        present <- path_exists tc path ;;
        if negb present then Ok FAILURE
        else
          '(t_hl, t_lh) <- extract_measurements tc path ;;
          Ok (success_outcome t_hl t_lh)
    end.

(** [run_simulation_and_extract_delay(Wn_um, Wp_um, L_um)];
    [SPICELIB_AVAILABLE] is the module-level flag set at import.  The
    formatting and the template lookup come before the [try]; the
    handler's console message is not modelled. *)
Definition run_simulation_and_extract_delay
    (SPICELIB_AVAILABLE : bool) (tc : toolchain) (Wn_um Wp_um L_um : float)
  : result outcome :=
  if negb SPICELIB_AVAILABLE then Ok FAILURE
  else
    let Wn_str := width_str Wn_um in
    let Wp_str := width_str Wp_um in
    let L_str := length_str L_um in
    present <- cir_file_exists tc ;;
    if negb present then Ok FAILURE
    else
      Py.try_except
        (simulation_body tc Wn_str Wp_str L_str)
        (fun e => Ok FAILURE).

(* ================================================================== *)
(** ** src/optimize_inverter_ltspice.py: grid search *)
(* ================================================================== *)

Definition Wn_values : list float := [1.0; 2.0; 3.0].
Definition Wp_values : list float := [3.0; 6.0; 9.0].
Definition L_val : float := 0.35.

(** Loop variables of [optimize_with_simulator].  [simulated] is the
    history of the candidates handed to the evaluator, oldest first (the
    "Simulation Wn=..." lines of the console). *)
Record search_state : Type := mkSearch {
  best_delay : float;
  best_params : option (float * float * float);
  simulated : list (float * float)
}.

Definition initial_search : search_state :=
  {| best_delay := 1e9; best_params := None; simulated := [] |}.

(** An evaluator as the loop sees it. *)
Definition evaluator : Type := float -> float -> float -> result outcome.

(** [for x in xs: body] over a state, stopping at the first exception. *)
Fixpoint for_each {A S : Type} (xs : list A) (body : A -> S -> result S)
    (st : S) : result S :=
  match xs with
  | [] => Ok st
  | x :: xs' => st' <- body x st ;; for_each xs' body st'
  end.

(** [Wp / Wn < 1.2 or Wp / Wn > 4.5], with Python's short-circuit. *)
Definition outside_window (Wn Wp : float) : result bool :=
  r1 <- Py.truediv Wp Wn ;;
  if Py.less r1 1.2 then Ok true
  else
    r2 <- Py.truediv Wp Wn ;;
    Ok (Py.greater r2 4.5).

(** Body of the inner loop (lines 147-157). *)
Definition grid_body (sim : evaluator) (Wn Wp : float) (st : search_state)
  : result search_state :=
  skip <- outside_window Wn Wp ;;
  if skip then Ok st
  else
    result <- sim Wn Wp L_val ;;
    let st1 := {| best_delay := best_delay st;
                  best_params := best_params st;
                  simulated := simulated st ++ [(Wn, Wp)] |} in
    if success result then
      if Py.less (delay_ns result) (best_delay st1) then
        Ok {| best_delay := delay_ns result;
              best_params := Some (Wn, Wp, L_val);
              simulated := simulated st1 |}
      else Ok st1
    else Ok st1.

(** The two nested loops over arbitrary candidate lists. *)
Definition grid_search (sim : evaluator) (Wns Wps : list float)
    (st : search_state) : result search_state :=
  for_each Wns (fun Wn => for_each Wps (fun Wp => grid_body sim Wn Wp)) st.

(** What [optimize_with_simulator] reports on the console. *)
Inductive report : Type :=
| ToolchainMissing
| NoSuccessfulSimulation
| BestSolution (params : float * float * float) (delay : float).

Definition report_of (st : search_state) : report :=
  match best_params st with
  | Some p => BestSolution p (best_delay st)
  | None => NoSuccessfulSimulation
  end.

(** The host on which [optimize_with_simulator] runs: the calls on the
    file system of lines 126-131 and 173-176, in the order of the
    source, and whether [perf_cmos_inverter] can be imported (line
    166).  Every call that Python allows to raise returns a [result]. *)
Record host : Type := mkHost {
  mkdir_sim_output : result unit;
  lib_src_exists : result bool;
  lib_dst_exists : result bool;
  lib_src_mtime : result float;
  lib_dst_mtime : result float;
  copy2 : result unit;
  perf_importable : bool;
  write_results : float * float * float -> float -> result unit
}.

(** Lines 126-131: [sim_out.mkdir(exist_ok=True)], then
    [if lib_src.exists() and (not lib_dst.exists() or
    lib_src.stat().st_mtime > lib_dst.stat().st_mtime): copy2(...)],
    with Python's short-circuit.  None of these calls is inside a
    [try]. *)
Definition prepare_library (h : host) : result unit :=
  _ <- mkdir_sim_output h ;;
  src <- lib_src_exists h ;;
  if src then
    dst <- lib_dst_exists h ;;
    stale <- (if negb dst then Ok true
              else
                t_src <- lib_src_mtime h ;;
                t_dst <- lib_dst_mtime h ;;
                Ok (Py.greater t_src t_dst)) ;;
    if stale then copy2 h else Ok tt
  else Ok tt.

(** Lines 160-169: the analytical figures printed for the best
    solution; nothing is computed when there is none. *)
Definition analytical_summary (st : search_state)
  : result (option performances) :=
  match best_params st with
  | Some (Wn, Wp, L) =>
      perf <- compute_performances Wn Wp L ;;
      Ok (Some perf)
  | None => Ok None
  end.

(** Lines 160-176, after the loops: for a best solution the analytical
    figures are computed unless the import raises [ImportError] (the
    only exception the inner [try] catches), and the result file is
    written; nothing is done when there is no best solution. *)
Definition record_results (h : host) (st : search_state) : result unit :=
  match best_params st with
  | Some p =>
      _ <- (if perf_importable h then analytical_summary st else Ok None) ;;
      write_results h p (best_delay st)
  | None => Ok tt
  end.

(** [optimize_with_simulator()], for a given evaluator.  The console
    output is not modelled; [report] stands for it. *)
Definition optimize_with (SPICELIB_AVAILABLE : bool) (h : host)
    (sim : evaluator) : result (report * search_state) :=
  if negb SPICELIB_AVAILABLE then Ok (ToolchainMissing, initial_search)
  else
    _ <- prepare_library h ;;
    st <- grid_search sim Wn_values Wp_values initial_search ;;
    _ <- record_results h st ;;
    Ok (report_of st, st).

(** The evaluator the loop really calls: [world Wn Wp L] is the
    behaviour of the collaborators at the time of that call. *)
Definition simulator (SPICELIB_AVAILABLE : bool)
    (world : float -> float -> float -> toolchain) : evaluator :=
  fun Wn Wp L =>
    run_simulation_and_extract_delay SPICELIB_AVAILABLE (world Wn Wp L)
                                     Wn Wp L.

(** [optimize_with_simulator()] proper. *)
Definition optimize_with_simulator (SPICELIB_AVAILABLE : bool) (h : host)
    (world : float -> float -> float -> toolchain)
  : result (report * search_state) :=
  optimize_with SPICELIB_AVAILABLE h (simulator SPICELIB_AVAILABLE world).

(* ================================================================== *)
(** ** Vocabulary of the statements *)
(* ================================================================== *)

(** "strictly positive and finite" *)
Definition positive_finite (x : float) : bool :=
  Py.greater x 0 && Py.isfinite x.

(** What the specification promises of a performance record. *)
Definition well_formed (p : performances) : Prop :=
  positive_finite (delay p) = true /\
  positive_finite (power_dyn p) = true /\
  positive_finite (power_stat p) = true /\
  positive_finite (power_total p) = true /\
  positive_finite (area p) = true /\
  power_total p = power_dyn p + power_stat p.

(** Dimensions of ordinary magnitude: between [1e-100] and [1e100]
    micrometres.  The declared bounds are well inside. *)
Definition ordinary (x : float) : bool :=
  (1e-100 <=? x) && (x <=? 1e100).

(** A width that is either of ordinary magnitude or degenerate (zero or
    negative). *)
Definition ordinary_or_degenerate (W : float) : bool :=
  ordinary W || (W <=? 0).

(** The specification's sentence on positive inputs, read over all
    doubles. *)
Definition positive_inputs_well_formed : Prop :=
  forall Wn Wp L : float,
    Py.greater Wn 0 = true -> Py.greater Wp 0 = true -> Py.greater L 0 = true ->
    exists p, compute_performances Wn Wp L = Ok p /\ well_formed p.

(** [d] exceeds the delay of every point of the declared box. *)
Definition dominates_declared_box (d : float) : Prop :=
  forall Wn' Wp' L' : float,
    within_declared_bounds Wn' Wp' L' = true ->
    exists p', compute_performances Wn' Wp' L' = Ok p'
               /\ Py.greater d (delay p') = true.

(** The specification's sentence on a degenerate NMOS width, read over
    all doubles. *)
Definition degenerate_Wn_safe : Prop :=
  forall Wn Wp L : float,
    (Wn <=? 0) = true -> Py.greater L 0 = true ->
    exists p, compute_performances Wn Wp L = Ok p
              /\ dominates_declared_box (delay p).

(** The weighted objective in the specification's words: delay in ns
    with weight 1.0, total power in uW with weight 0.01, area with
    weight 0.001. *)
Definition weighted_objective (p : performances) : float :=
  1.0 * (delay p * 1e9) + 0.01 * (power_total p * 1e6) + 0.001 * area p.

(** The specification's sentence on the residuals, read over all
    doubles: above the threshold the adapter returns them. *)
Definition residuals_returned_above_threshold : Prop :=
  forall Wn Wp L : float,
    Py.greater Wn 0.01 = true ->
    exists f,
      compute_performances_for_optim [Wn; Wp; L]
      = Ok (f, [Wp / Wn - 1.2; 4.5 - Wp / Wn]).


(** The unit suffix of a formatted dimension. *)
Definition unit_suffix (s : string) : option ascii := last_char s.

(** The specification's sentence on unit suffixes: one threshold, 1,
    for the three dimensions. *)
Definition suffix_threshold_is_one (fmt : float -> string) : Prop :=
  forall v : float,
    unit_suffix (fmt v) = Some (if Py.greater_eq v 1 then "u" else "n")%char.

(** An evaluator that always returns an outcome. *)
Definition total_evaluator (sim : evaluator) : Prop :=
  forall Wn Wp L, exists o, sim Wn Wp L = Ok o.

(** The sizing window in the specification's words: [1.2 <= Wp/Wn <= 4.5]. *)
Definition in_window (c : float * float) : bool :=
  let '(Wn, Wp) := c in (1.2 <=? Wp / Wn) && (Wp / Wn <=? 4.5).

(** Cartesian product in loop order. *)
Definition grid (Wns Wps : list float) : list (float * float) :=
  flat_map (fun Wn => map (fun Wp => (Wn, Wp)) Wps) Wns.

(** The simulation ran to completion and left a readable log at
    [path]: steps 3 to 5 of the evaluator raise nothing and take none of
    their failure exits. *)
Definition simulation_completes (tc : toolchain)
    (Wn_str Wp_str L_str path : string) : Prop :=
  cir_file_exists tc = Ok true /\
  SpiceEditor tc = Ok tt /\
  set_parameter tc "Wn" Wn_str = Ok tt /\
  set_parameter tc "Wp" Wp_str = Ok tt /\
  set_parameter tc "L" L_str = Ok tt /\
  SimRunner tc = Ok tt /\
  runner_run tc Wn_str Wp_str L_str = Ok tt /\
  (exists r, wait_completion tc = Ok r
             /\ failSim r = O
             /\ completed_tasks r <> []
             /\ log_file (List.last (completed_tasks r) (mkTask None))
                = Some path) /\
  path_exists tc path = Ok true.

(** A toolchain on which every step succeeds: one completed task whose
    log is ["sim.log"]; the structured reader is given by [reader], the
    raw log is [content], and [search] and [parse] stand for
    [re.search] and [float()]. *)
Definition working_toolchain (reader : result log_reader) (content : string)
    (search : string -> string -> option string)
    (parse : string -> result float) : toolchain :=
  {| cir_file_exists := Ok true;
     SpiceEditor := Ok tt;
     set_parameter := fun _ _ => Ok tt;
     SimRunner := Ok tt;
     runner_run := fun _ _ _ => Ok tt;
     wait_completion :=
       Ok {| failSim := 0; completed_tasks := [mkTask (Some "sim.log"%string)] |};
     path_exists := fun _ => Ok true;
     LTSpiceLogReader := fun _ => reader;
     read_text := fun _ => Ok content;
     re_search := search;
     float_of_str := parse |}.

(** A log in which only [tplh] can be found, and only by the textual
    scan: the structured reader raises. *)
Definition only_tplh_toolchain : toolchain :=
  working_toolchain
    (Raise (ExternalError "unreadable log"))
    "tplh=1.5e-10"
    (fun pat _ => if String.eqb pat PAT_TPLH then Some "1.5e-10"%string else None)
    (fun _ => Ok 1.5e-10).

(** A readable log with neither measurement: the structured reader
    answers [None] twice. *)
Definition no_measure_toolchain : toolchain :=
  working_toolchain
    (Ok (fun _ => Ok None)) EmptyString (fun _ _ => None)
    (fun _ => Raise ValueError).

(** A log with both measurements, [t] seconds each. *)
Definition measured_toolchain (t : float) : toolchain :=
  working_toolchain
    (Ok (fun _ => Ok (Some t))) EmptyString (fun _ _ => None)
    (fun _ => Raise ValueError).


(** The simulator crashes at submission. *)
Definition crashing_toolchain : toolchain :=
  {| cir_file_exists := Ok true;
     SpiceEditor := Ok tt;
     set_parameter := fun _ _ => Ok tt;
     SimRunner := Ok tt;
     runner_run := fun _ _ _ => Raise (ExternalError "simulator crashed");
     wait_completion := Ok {| failSim := 0; completed_tasks := [] |};
     path_exists := fun _ => Ok true;
     LTSpiceLogReader := fun _ => Raise (ExternalError "no log");
     read_text := fun _ => Ok EmptyString;
     re_search := fun _ _ => None;
     float_of_str := fun _ => Raise ValueError |}.

(** A host on which every call succeeds: the library is there and its
    copy is not yet. *)
Definition working_host : host :=
  {| mkdir_sim_output := Ok tt;
     lib_src_exists := Ok true;
     lib_dst_exists := Ok false;
     lib_src_mtime := Ok 0;
     lib_dst_mtime := Raise (ExternalError "FileNotFoundError");
     copy2 := Ok tt;
     perf_importable := true;
     write_results := fun _ _ => Ok tt |}.

(** A host without the project directory: [mkdir] raises. *)
Definition missing_directory_host : host :=
  {| mkdir_sim_output := Raise (ExternalError "FileNotFoundError");
     lib_src_exists := Ok false;
     lib_dst_exists := Ok false;
     lib_src_mtime := Raise (ExternalError "FileNotFoundError");
     lib_dst_mtime := Raise (ExternalError "FileNotFoundError");
     copy2 := Raise (ExternalError "FileNotFoundError");
     perf_importable := true;
     write_results := fun _ _ => Raise (ExternalError "FileNotFoundError") |}.

(** An evaluator that answers [o] for every candidate. *)
Definition const_sim (o : outcome) : evaluator := fun _ _ _ => Ok o.

(** A world in which the first candidate [(1.0, 3.0)] is measured at
    2 microseconds and every other log holds no measurement. *)
Definition one_measured_world : float -> float -> float -> toolchain :=
  fun Wn Wp _ =>
    if (Wn =? 1.0) && (Wp =? 3.0) then measured_toolchain 2e-6
    else no_measure_toolchain.

(** One iteration of the loop on a candidate inside the window whose
    outcome is [o]: the incumbent changes exactly when [o] is a success
    with a strictly smaller delay. *)
Definition step_after (Wn Wp : float) (o : outcome) (st : search_state)
  : search_state :=
  let improves := success o && Py.less (delay_ns o) (best_delay st) in
  {| best_delay := if improves then delay_ns o else best_delay st;
     best_params := if improves then Some (Wn, Wp, L_val) else best_params st;
     simulated := simulated st ++ [(Wn, Wp)] |}.

(** What the loop has established about the incumbent after any number
    of iterations. *)
Definition incumbent_sound (sim : evaluator) (st : search_state) : Prop :=
  (forall Wn Wp L, best_params st = Some (Wn, Wp, L) ->
     L = L_val /\ In (Wn, Wp) (simulated st) /\
     exists o, sim Wn Wp L_val = Ok o /\ success o = true
               /\ delay_ns o = best_delay st
               /\ Py.less (best_delay st) 1e9 = true)
  /\ (best_params st = None -> best_delay st = 1e9).

Definition incumbent_minimal (sim : evaluator) (st : search_state) : Prop :=
  forall Wn Wp o, In (Wn, Wp) (simulated st) ->
    sim Wn Wp L_val = Ok o -> success o = true ->
    Py.less (delay_ns o) (best_delay st) = false.

(** What the grid search guarantees for an evaluator [sim]: [st] is the
    state in which the loops end, and around them the function only
    prepares [sim_output] and records the result. *)
Definition grid_search_contract (sim : evaluator) : Prop :=
  exists st,
    grid_search sim Wn_values Wp_values initial_search = Ok st
    /\ (forall h,
          optimize_with true h sim
          = (_ <- prepare_library h ;;
             _ <- record_results h st ;;
             Ok (report_of st, st)))
    /\ simulated st = filter in_window (grid Wn_values Wp_values)
    /\ simulated st
       = [(1.0, 3.0); (2.0, 3.0); (2.0, 6.0); (2.0, 9.0); (3.0, 6.0); (3.0, 9.0)]
    /\ (in_window (1.0, 3.0) = true /\ in_window (3.0, 3.0) = false
        /\ in_window (1.0, 9.0) = false)
    /\ (forall Wn Wp o s,
          outside_window Wn Wp = Ok false -> sim Wn Wp L_val = Ok o ->
          grid_body sim Wn Wp s = Ok (step_after Wn Wp o s))
    /\ incumbent_sound sim st
    /\ incumbent_minimal sim st
    /\ ((forall Wn Wp o, In (Wn, Wp) (simulated st) ->
           sim Wn Wp L_val = Ok o -> success o = false) ->
        best_params st = None /\ report_of st = NoSuccessfulSimulation).

(* ================================================================== *)
(** ** optimize_inverter.py: the problem handed to the optimiser *)
(* ================================================================== *)

Module Problem.

(** The [problem] dict: numbers of objectives, variables, integer
    variables, constraints and equality constraints, bounds and
    starting point. *)
Record t : Type := mk {
  o : nat;
  n : nat;
  ni : nat;
  m : nat;
  me : nat;
  xl : list float;
  xu : list float;
  x : list float
}.

End Problem.

Definition problem : Problem.t :=
  {| Problem.o := 1;
     Problem.n := 3;
     Problem.ni := 0;
     Problem.m := 2;
     Problem.me := 0;
     Problem.xl := xl;
     Problem.xu := xu;
     Problem.x := [2.0; 6.0; 0.35] |}.

(* ================================================================== *)
(** ** src/optimize_inverter_ltspice.py: around the grid search *)
(* ================================================================== *)

(** A file as lines 126-131 see it: its content and [st_mtime]. *)
Record lib_file : Type := mkFile {
  content : string;
  st_mtime : float
}.

(** [5827_035.lib] in the project directory and in [sim_output];
    [None] when the file does not exist. *)
Record sim_files : Type := mkFiles {
  lib_src : option lib_file;
  lib_dst : option lib_file
}.

(** Lines 128-131: [shutil.copy2] (content and modification time) when
    the source exists and the copy is missing or older. *)
Definition refresh_library (fs : sim_files) : sim_files :=
  match lib_src fs with
  | Some src =>
      if match lib_dst fs with
         | None => true
         | Some dst => Py.greater (st_mtime src) (st_mtime dst)
         end
      then {| lib_src := Some src; lib_dst := Some src |}
      else fs
  | None => fs
  end.

(** One call of the evaluator on a candidate followed by the update of
    the incumbent. *)
Definition visit (sim : evaluator) (c : float * float) (st : search_state)
  : result search_state :=
  o <- sim (fst c) (snd c) L_val ;;
  Ok (step_after (fst c) (snd c) o st).

(** Editing, submission and waiting raise nothing and leave the runner
    in state [r] (lines 54-67). *)
Definition submission_succeeds (tc : toolchain) (Wn_str Wp_str L_str : string)
    (r : runner) : Prop :=
  SpiceEditor tc = Ok tt /\
  set_parameter tc "Wn" Wn_str = Ok tt /\
  set_parameter tc "Wp" Wp_str = Ok tt /\
  set_parameter tc "L" L_str = Ok tt /\
  SimRunner tc = Ok tt /\
  runner_run tc Wn_str Wp_str L_str = Ok tt /\
  wait_completion tc = Ok r.

(** The structured read of lines 80-82 raises, at the construction of
    the reader or at one of the two [get_measure_value] calls; [v_hl]
    is what [tphl] holds when the fallback starts. *)
Definition structured_read_raises (tc : toolchain) (path : string)
    (v_hl : option float) : Prop :=
  (exists e, LTSpiceLogReader tc path = Raise e /\ v_hl = None)
  \/ (exists log e,
        LTSpiceLogReader tc path = Ok log
        /\ log "tphl"%string = Raise e /\ v_hl = None)
  \/ (exists log e,
        LTSpiceLogReader tc path = Ok log
        /\ log "tphl"%string = Ok v_hl
        /\ log "tplh"%string = Raise e).

(** [float(m.group(1))] on a match of the scan, when there is one. *)
Definition parse_match (tc : toolchain) (m : option string)
  : result (option float) :=
  match m with
  | Some g => v <- float_of_str tc g ;; Ok (Some v)
  | None => Ok None
  end.

(** A successful outcome with the given delay. *)
Definition measured (d : float) : outcome :=
  {| success := true; delay_ns := d; tphl := d; tplh := d |}.

(** A log whose [tphl] line matches the pattern but is not a number:
    the reader opens the log, [get_measure_value] raises on the
    measurement, the scan captures ["e+"] and [float("e+")] raises
    [ValueError]. *)
Definition garbled_toolchain : toolchain :=
  working_toolchain
    (Ok (fun _ => Raise (ExternalError "no such measure")))
    "tphl=e+ tplh=1.5e-10"
    (fun pat _ => if String.eqb pat PAT_TPHL then Some "e+"%string
                  else Some "1.5e-10"%string)
    (fun g => if String.eqb g "1.5e-10" then Ok 1.5e-10 else Raise ValueError).

(** A log in which the structured reader finds [tphl] and then raises
    on [tplh], which only the scan finds. *)
Definition half_structured_toolchain : toolchain :=
  working_toolchain
    (Ok (fun name => if String.eqb name "tphl" then Ok (Some 2e-10)
                     else Raise (ExternalError "no such measure")))
    "tplh=1.5e-10"
    (fun pat _ => if String.eqb pat PAT_TPLH then Some "1.5e-10"%string
                  else None)
    (fun g => if String.eqb g "1.5e-10" then Ok 1.5e-10 else Raise ValueError).

(** A run that reports one failed simulation although a task completed
    with a readable log. *)
Definition failed_run_toolchain : toolchain :=
  {| cir_file_exists := Ok true;
     SpiceEditor := Ok tt;
     set_parameter := fun _ _ => Ok tt;
     SimRunner := Ok tt;
     runner_run := fun _ _ _ => Ok tt;
     wait_completion :=
       Ok {| failSim := 1;
             completed_tasks := [mkTask (Some "sim.log"%string)] |};
     path_exists := fun _ => Ok true;
     LTSpiceLogReader := fun _ => Ok (fun _ => Ok (Some 2e-10));
     read_text := fun _ => Ok EmptyString;
     re_search := fun _ _ => None;
     float_of_str := fun _ => Raise ValueError |}.

(* ================================================================== *)
(** ** Positive normal doubles *)
(* ================================================================== *)

(** [sf_normal lo hi f]: [f] is a positive normal binary64 number
    [m * 2^e] with a 53-bit mantissa, and [2^lo <= f < 2^(hi+1)]. *)
Definition sf_normal (lo hi : Z) (f : spec_float) : Prop :=
  exists m e, f = S754_finite false m e
              /\ digits2_pos m = 53%positive
              /\ (lo <= e + 52 <= hi)%Z.

Definition normal_in (lo hi : Z) (x : float) : Prop :=
  sf_normal lo hi (Prim2SF x).

(* ================================================================== *)
(** ** Rounding a fraction to 53 bits *)
(* ================================================================== *)

(** Position of the fraction [N / D] between the integers around it. *)
Definition locn (N D : Z) : location :=
  if (N mod D =? 0)%Z then loc_Exact
  else loc_Inexact (2 * (N mod D) ?= D)%Z.

(** A shift record that describes the fraction [N / D]. *)
Definition tracks (N D : Z) (mrs : shr_record) : Prop :=
  shr_m mrs = (N / D)%Z /\ loc_of_shr_record mrs = locn N D.

(** [N / D] rounded to the nearest integer, ties to even. *)
Definition rne (N D : Z) : Z := round_nearest_even (N / D) (locn N D).

(** A rounded mantissa of 54 bits is [2^53]: it is renormalised. *)
Definition norm53 (R F : Z) : Z * Z :=
  if (R <? 2 ^ 53)%Z then (R, F) else (2 ^ 52, F + 1)%Z.

(** [N / D * 2^E] rounded to a 53-bit mantissa and its exponent. *)
Definition round53 (N D E : Z) : Z * Z :=
  let n := (Zdigits2 (N / D) - 53)%Z in
  norm53 (rne N (D * 2 ^ n)) (E + n).

(** Order of two positive doubles given by mantissa and exponent. *)
Definition lexle (x y : Z * Z) : Prop :=
  (snd x < snd y \/ (snd x = snd y /\ fst x <= fst y))%Z.

(* ================================================================== *)
(** * Binary64 arithmetic on positive normal numbers *)
(* ================================================================== *)

Section Digits.
Local Open Scope Z_scope.

Lemma digits2_bounds (p : positive) :
  2 ^ (Zpos (digits2_pos p) - 1) <= Zpos p < 2 ^ Zpos (digits2_pos p).
Proof.
  induction p as [p IH | p IH | ]; cbn [digits2_pos].
  - rewrite Pos2Z.inj_succ.
    replace (Z.succ (Zpos (digits2_pos p)) - 1) with (Z.succ (Zpos (digits2_pos p) - 1)) by lia.
    rewrite !Z.pow_succ_r by lia. lia.
  - rewrite Pos2Z.inj_succ.
    replace (Z.succ (Zpos (digits2_pos p)) - 1) with (Z.succ (Zpos (digits2_pos p) - 1)) by lia.
    rewrite !Z.pow_succ_r by lia. lia.
  - cbn. lia.
Qed.

Lemma digits2_unique (p : positive) (d : Z) :
  2 ^ (d - 1) <= Zpos p < 2 ^ d -> Zpos (digits2_pos p) = d.
Proof.
  intros [Hlo Hhi]. pose proof (digits2_bounds p) as [Blo Bhi].
  assert (0 < d).
  { destruct (Z_lt_le_dec 0 d) as [|Hd]; [assumption|].
    destruct (Z.eq_dec d 0) as [->|].
    - cbn in Hhi. lia.
    - rewrite (Z.pow_neg_r 2 d) in Hhi by lia. lia. }
  destruct (Z.lt_trichotomy (Zpos (digits2_pos p)) d) as [Hlt | [Heq | Hgt]].
  - assert (2 ^ Zpos (digits2_pos p) <= 2 ^ (d - 1)) by (apply Z.pow_le_mono_r; lia). lia.
  - assumption.
  - assert (2 ^ d <= 2 ^ (Zpos (digits2_pos p) - 1)) by (apply Z.pow_le_mono_r; lia). lia.
Qed.

Lemma digits2_range (p : positive) (a b : Z) :
  0 <= a -> 2 ^ a <= Zpos p < 2 ^ b -> a + 1 <= Zpos (digits2_pos p) <= b.
Proof.
  intros Ha [Hlo Hhi]. pose proof (digits2_bounds p) as [Blo Bhi].
  split.
  - destruct (Z_lt_le_dec a (Zpos (digits2_pos p))) as [|Hd]; [lia|].
    assert (2 ^ Zpos (digits2_pos p) <= 2 ^ a) by (apply Z.pow_le_mono_r; lia). lia.
  - destruct (Z_lt_le_dec b (Zpos (digits2_pos p))) as [Hd|]; [|lia].
    assert (0 <= b).
    { destruct (Z_lt_le_dec b 0); [|assumption]. rewrite (Z.pow_neg_r 2 b) in Hhi by lia. lia. }
    assert (2 ^ b <= 2 ^ (Zpos (digits2_pos p) - 1)) by (apply Z.pow_le_mono_r; lia). lia.
Qed.

(** [shr_1] halves the mantissa. *)
Lemma shr_1_m (mrs : shr_record) :
  0 <= shr_m mrs -> shr_m (shr_1 mrs) = shr_m mrs / 2.
Proof.
  destruct mrs as [m r s]; cbn [shr_m]. intros Hm.
  destruct m as [ | [p | p | ] | p ]; cbn [shr_1 shr_m].
  - reflexivity.
  - apply Z.div_unique with (r := 1); lia.
  - apply Z.div_unique with (r := 0); lia.
  - reflexivity.
  - lia.
Qed.

Lemma iter_shr_1_m (p : positive) : forall mrs,
  0 <= shr_m mrs ->
  shr_m (iter_pos shr_1 p mrs) = shr_m mrs / 2 ^ Zpos p.
Proof.
  induction p as [p IH | p IH | ]; intros mrs Hm; cbn [iter_pos].
  - assert (H1 : 0 <= shr_m (shr_1 mrs)) by (rewrite shr_1_m by assumption; apply Z.div_pos; lia).
    assert (H2 : 0 <= shr_m (iter_pos shr_1 p (shr_1 mrs))).
    { rewrite IH by assumption. apply Z.div_pos; [assumption | apply Z.pow_pos_nonneg; lia]. }
    rewrite IH, IH, shr_1_m by assumption.
    rewrite !Z.div_div by (try apply Z.pow_pos_nonneg; lia).
    f_equal.
    replace (Zpos p~1) with (1 + Zpos p + Zpos p) by lia.
    rewrite !Z.pow_add_r by lia. change (2 ^ 1) with 2. ring.
  - assert (H2 : 0 <= shr_m (iter_pos shr_1 p mrs)).
    { rewrite IH by assumption. apply Z.div_pos; [assumption | apply Z.pow_pos_nonneg; lia]. }
    rewrite IH, IH by assumption.
    rewrite !Z.div_div by (try apply Z.pow_pos_nonneg; lia).
    f_equal.
    replace (Zpos p~0) with (Zpos p + Zpos p) by lia.
    rewrite Z.pow_add_r by lia. reflexivity.
  - rewrite shr_1_m by assumption. reflexivity.
Qed.


Lemma shr_record_of_loc_m (m : Z) (l : location) :
  shr_m (shr_record_of_loc m l) = m.
Proof. destruct l as [ | [ | | ] ]; reflexivity. Qed.

Lemma shr_fexp_normal (m : positive) (e : Z) (l : location) :
  53 <= Zpos (digits2_pos m) ->
  -1074 <= e + Zpos (digits2_pos m) - 53 ->
  exists mrs,
    shr_fexp prec emax (Zpos m) e l = (mrs, e + Zpos (digits2_pos m) - 53)
    /\ shr_m mrs = Zpos m / 2 ^ (Zpos (digits2_pos m) - 53).
Proof.
  intros Hd He. unfold shr_fexp, fexp, SpecFloat.emin, prec, emax.
  cbn [Zdigits2].
  replace (3 - 1024 - 53) with (-1074) by reflexivity.
  rewrite Z.max_l by lia.
  replace (Zpos (digits2_pos m) + e - 53 - e) with (Zpos (digits2_pos m) - 53) by lia.
  destruct (Zpos (digits2_pos m) - 53) as [ | p | p ] eqn:Hn; cbn [shr].
  - eexists; split.
    + f_equal. lia.
    + rewrite shr_record_of_loc_m. cbn. now rewrite Z.div_1_r.
  - eexists; split.
    + f_equal. lia.
    + rewrite iter_shr_1_m; rewrite shr_record_of_loc_m; [reflexivity | lia].
  - lia.
Qed.

Lemma normalised_quotient (m d : Z) :
  53 <= d -> 2 ^ (d - 1) <= m < 2 ^ d ->
  2 ^ 52 <= m / 2 ^ (d - 53) < 2 ^ 53.
Proof.
  intros Hd [Hlo Hhi].
  assert (Ht : 0 < 2 ^ (d - 53)) by (apply Z.pow_pos_nonneg; lia).
  replace (d - 1) with (52 + (d - 53)) in Hlo by lia.
  replace d with (53 + (d - 53)) in Hhi at 1 by lia.
  rewrite Z.pow_add_r in Hlo, Hhi by lia.
  split.
  - apply Z.div_le_lower_bound; lia.
  - apply Z.div_lt_upper_bound; lia.
Qed.

Lemma round_nearest_even_bounds (m : Z) (l : location) :
  m <= round_nearest_even m l <= m + 1.
Proof.
  destruct l as [ | [ | | ] ]; cbn [round_nearest_even]; try lia.
  destruct (Z.even m); lia.
Qed.

Lemma binary_round_aux_normal (s : bool) (m : positive) (e : Z) (l : location) :
  53 <= Zpos (digits2_pos m) ->
  -1074 <= e + Zpos (digits2_pos m) - 53 ->
  e + Zpos (digits2_pos m) - 52 <= 971 ->
  exists m' e',
    binary_round_aux prec emax s (Zpos m) e l = S754_finite s m' e'
    /\ digits2_pos m' = 53%positive
    /\ e + Zpos (digits2_pos m) - 53 <= e' <= e + Zpos (digits2_pos m) - 52.
Proof.
  intros Hd Hlo Hhi. unfold binary_round_aux.
  destruct (shr_fexp_normal m e l Hd Hlo) as (mrs & -> & Hm).
  pose proof (normalised_quotient _ _ Hd (digits2_bounds m)) as HM.
  rewrite <- Hm in HM.
  pose proof (round_nearest_even_bounds (shr_m mrs) (loc_of_shr_record mrs)) as HR.
  destruct (round_nearest_even (shr_m mrs) (loc_of_shr_record mrs)) as [ | q | q ];
    try lia.
  assert (Hdq : 53 <= Zpos (digits2_pos q) <= 54).
  { change 53 with (52 + 1). apply digits2_range; lia. }
  destruct (shr_fexp_normal q (e + Zpos (digits2_pos m) - 53) loc_Exact)
    as (mrs2 & -> & Hm2); try lia.
  assert (HM2 : 2 ^ 52 <= shr_m mrs2 < 2 ^ 53).
  { rewrite Hm2. apply normalised_quotient; [lia | apply digits2_bounds]. }
  destruct (shr_m mrs2) as [ | q2 | q2 ]; try lia.
  unfold prec, emax.
  replace (_ <=? 1024 - 53) with true by (symmetry; apply Z.leb_le; lia).
  exists q2, (e + Zpos (digits2_pos m) - 53 + Zpos (digits2_pos q) - 53).
  split; [reflexivity | split; [ | lia ] ].
  apply Pos2Z.inj. apply digits2_unique. exact HM2.
Qed.


Lemma mantissa53 (m : positive) :
  digits2_pos m = 53%positive -> 2 ^ 52 <= Zpos m < 2 ^ 53.
Proof. intros H. pose proof (digits2_bounds m) as B. rewrite H in B. exact B. Qed.

Lemma SFmul_normal (a b c d : Z) (x y : spec_float) :
  sf_normal a b x -> sf_normal c d y ->
  -1022 <= a + c -> b + d + 2 <= 1023 ->
  sf_normal (a + c) (b + d + 2) (SF64mul x y).
Proof.
  intros (mx & ex & -> & Hdx & Hex) (my & ey & -> & Hdy & Hey) Hlo Hhi.
  apply mantissa53 in Hdx, Hdy.
  unfold SF64mul, SFmul. cbn [xorb].
  assert (HD : 104 + 1 <= Zpos (digits2_pos (mx * my)) <= 106).
  { apply digits2_range; [lia | ]. rewrite Pos2Z.inj_mul.
    change (2 ^ 104) with (2 ^ 52 * 2 ^ 52). change (2 ^ 106) with (2 ^ 53 * 2 ^ 53).
    split; [apply Z.mul_le_mono_nonneg | apply Z.mul_lt_mono_nonneg]; lia. }
  destruct (binary_round_aux_normal false (mx * my) (ex + ey) loc_Exact)
    as (m' & e' & -> & Hd' & He'); try lia.
  exists m', e'. repeat split; try assumption; lia.
Qed.

Lemma SFdiv_normal (a b c d : Z) (x y : spec_float) :
  sf_normal a b x -> sf_normal c d y ->
  -1022 <= a - d - 1 -> b - c + 1 <= 1023 ->
  sf_normal (a - d - 1) (b - c + 1) (SF64div x y).
Proof.
  intros (mx & ex & -> & Hdx & Hex) (my & ey & -> & Hdy & Hey) Hlo Hhi.
  unfold SF64div, SFdiv, SFdiv_core_binary. cbn [xorb Zdigits2].
  rewrite Hdx, Hdy. apply mantissa53 in Hdx, Hdy.
  unfold fexp, SpecFloat.emin, prec, emax.
  replace (3 - 1024 - 53) with (-1074) by reflexivity.
  replace (53 + ex - (53 + ey) - 53) with (ex - ey - 53) by lia.
  rewrite Z.max_l, Z.min_l by lia.
  replace (ex - ey - (ex - ey - 53)) with 53 by lia.
  rewrite Z.shiftl_mul_pow2 by lia.
  pose proof (Z_div_mod (Zpos mx * 2 ^ 53) (Zpos my) eq_refl) as Hdm.
  destruct (Z.div_eucl (Zpos mx * 2 ^ 53) (Zpos my)) as [q r].
  destruct Hdm as [Heq Hr].
  assert (Hq : 2 ^ 52 <= q < 2 ^ 54).
  { split.
    - destruct (Z_lt_le_dec q (2 ^ 52)) as [Hc | ]; [exfalso | assumption].
      assert (Zpos my * q + r < Zpos my * 2 ^ 52) by nia.
      assert (Zpos my * 2 ^ 52 <= 2 ^ 53 * 2 ^ 52) by (apply Z.mul_le_mono_nonneg_r; lia).
      assert (2 ^ 52 * 2 ^ 53 <= Zpos mx * 2 ^ 53) by (apply Z.mul_le_mono_nonneg_r; lia).
      lia.
    - destruct (Z_lt_le_dec q (2 ^ 54)) as [ | Hc]; [assumption | exfalso].
      assert (2 ^ 52 * 2 ^ 54 <= Zpos my * q) by (apply Z.mul_le_mono_nonneg; lia).
      assert (Zpos mx * 2 ^ 53 < 2 ^ 53 * 2 ^ 53) by (apply Z.mul_lt_mono_pos_r; lia).
      lia. }
  destruct q as [ | q | q]; try lia.
  assert (HD : 52 + 1 <= Zpos (digits2_pos q) <= 54) by (apply digits2_range; lia).
  destruct (binary_round_aux_normal false q (ex - ey - 53) (new_location (Zpos my) r))
    as (m' & e' & Hbra & Hd' & He'); try lia.
  unfold prec, emax in Hbra. rewrite Hbra.
  exists m', e'. repeat split; try assumption; lia.
Qed.

Lemma shl_align_fst (mx : positive) (ex ez : Z) :
  ez <= ex -> Zpos (fst (shl_align mx ex ez)) = Zpos mx * 2 ^ (ex - ez).
Proof.
  intros H. unfold shl_align.
  destruct (ez - ex) as [ | p | p ] eqn:Hn; cbn [fst]; try lia.
  - replace (ex - ez) with 0 by lia. lia.
  - replace (ex - ez) with (Zpos p) by lia.
    rewrite <- Z.shiftl_mul_pow2 by lia.
    apply (Pos.iter_swap_gen _ _ Zpos xO (Z.mul 2)). reflexivity.
Qed.

Lemma sum_digits (mx my M : positive) (k : Z) :
  0 <= k -> digits2_pos mx = 53%positive -> digits2_pos my = 53%positive ->
  Zpos M = Zpos mx + Zpos my * 2 ^ k ->
  53 + k <= Zpos (digits2_pos M) <= 54 + k.
Proof.
  intros Hk Hdx Hdy HM. apply mantissa53 in Hdx, Hdy.
  assert (Ht : 1 <= 2 ^ k) by (change 1 with (2 ^ 0); apply Z.pow_le_mono_r; lia).
  replace (53 + k) with (52 + k + 1) by lia.
  apply digits2_range; [lia | ].
  rewrite !Z.pow_add_r, HM by lia. nia.
Qed.

Lemma SFadd_normal (a b c d : Z) (x y : spec_float) :
  sf_normal a b x -> sf_normal c d y ->
  -1022 <= a -> -1022 <= c -> Z.max b d + 2 <= 1023 ->
  sf_normal (Z.max a c) (Z.max b d + 2) (SF64add x y).
Proof.
  intros (mx & ex & -> & Hdx & Hex) (my & ey & -> & Hdy & Hey) Hlo1 Hlo2 Hhi.
  unfold SF64add, SFadd. cbn [cond_Zopp].
  pose proof (shl_align_fst mx ex (Z.min ex ey) (Z.le_min_l _ _)) as Hx.
  pose proof (shl_align_fst my ey (Z.min ex ey) (Z.le_min_r _ _)) as Hy.
  set (sx := fst (shl_align mx ex (Z.min ex ey))) in *.
  set (sy := fst (shl_align my ey (Z.min ex ey))) in *.
  change (Zpos sx + Zpos sy) with (Zpos (sx + sy)).
  assert (HM : Zpos (sx + sy) = Zpos sx + Zpos sy) by reflexivity.
  rewrite Hx, Hy in HM. clearbody sx sy. clear Hx Hy.
  assert (HD : 53 + (Z.max ex ey - Z.min ex ey) <= Zpos (digits2_pos (sx + sy))
               <= 54 + (Z.max ex ey - Z.min ex ey)).
  { destruct (Z.le_ge_cases ex ey) as [Hle | Hge].
    - rewrite Z.min_l, Z.max_r in * by lia.
      replace (ex - ex) with 0 in HM by lia. rewrite Z.mul_1_r in HM.
      apply (sum_digits mx my); auto; lia.
    - rewrite Z.min_r, Z.max_l in * by lia.
      replace (ey - ey) with 0 in HM by lia. rewrite Z.mul_1_r in HM.
      apply (sum_digits my mx); auto; lia. }
  cbn [binary_normalize]. unfold binary_round.
  assert (Hal : shl_align (sx + sy) (Z.min ex ey)
                  (fexp prec emax (Zpos (digits2_pos (sx + sy)) + Z.min ex ey))
                = ((sx + sy)%positive, Z.min ex ey)).
  { unfold shl_align, fexp, SpecFloat.emin, prec, emax.
    replace (3 - 1024 - 53) with (-1074) by reflexivity.
    match goal with
    | |- match ?t with _ => _ end = _ => destruct t eqn:Hn; try reflexivity
    end.
    lia. }
  rewrite Hal.
  destruct (binary_round_aux_normal false (sx + sy) (Z.min ex ey) loc_Exact)
    as (m' & e' & -> & Hd' & He'); try lia.
  exists m', e'. repeat split; try assumption; lia.
Qed.

End Digits.

(** The same facts on primitive doubles, through the axioms relating
    them to [spec_float]. *)

Lemma normal_in_mul (a b c d : Z) (x y : float) :
  normal_in a b x -> normal_in c d y ->
  (-1022 <= a + c)%Z -> (b + d + 2 <= 1023)%Z ->
  normal_in (a + c) (b + d + 2) (x * y).
Proof. unfold normal_in. rewrite mul_spec. apply SFmul_normal. Qed.

Lemma normal_in_div (a b c d : Z) (x y : float) :
  normal_in a b x -> normal_in c d y ->
  (-1022 <= a - d - 1)%Z -> (b - c + 1 <= 1023)%Z ->
  normal_in (a - d - 1) (b - c + 1) (x / y).
Proof. unfold normal_in. rewrite div_spec. apply SFdiv_normal. Qed.

Lemma normal_in_add (a b c d : Z) (x y : float) :
  normal_in a b x -> normal_in c d y ->
  (-1022 <= a)%Z -> (-1022 <= c)%Z -> (Z.max b d + 2 <= 1023)%Z ->
  normal_in (Z.max a c) (Z.max b d + 2) (x + y).
Proof. unfold normal_in. rewrite add_spec. apply SFadd_normal. Qed.

Lemma normal_in_weaken (a b a' b' : Z) (x : float) :
  normal_in a b x -> (a' <= a)%Z -> (b <= b')%Z -> normal_in a' b' x.
Proof.
  intros (m & e & H & Hd & He) Ha Hb. exists m, e. repeat split; try assumption; lia.
Qed.

Lemma normal_in_pos (a b : Z) (x : float) :
  normal_in a b x -> (0 <? x) = true.
Proof.
  intros (m & e & H & _). rewrite ltb_spec, H. reflexivity.
Qed.

Lemma normal_in_nonzero (a b : Z) (x : float) :
  normal_in a b x -> (x =? 0) = false.
Proof.
  intros (m & e & H & _). rewrite FloatAxioms.eqb_spec, H. reflexivity.
Qed.

Lemma normal_in_finite (a b : Z) (x : float) :
  normal_in a b x -> is_finite x = true.
Proof.
  intros (m & e & H & _).
  unfold is_finite, is_nan, is_infinity.
  rewrite !FloatAxioms.eqb_spec, abs_spec, H. cbn [SFabs].
  unfold SFeqb, SFcompare. rewrite Z.compare_refl.
  change (PosDef.Pos.compare_cont Eq m m) with (Pos.compare m m).
  rewrite Pos.compare_refl. reflexivity.
Qed.

Lemma normal_in_lt (a b c d : Z) (x y : float) :
  normal_in a b x -> normal_in c d y -> (b < c)%Z -> (x <? y) = true.
Proof.
  intros (mx & ex & Hx & _ & Hex) (my & ey & Hy & _ & Hey) Hlt.
  rewrite ltb_spec, Hx, Hy. unfold SFltb, SFcompare.
  replace (ex ?= ey)%Z with Lt by (symmetry; apply Z.compare_lt_iff; lia).
  reflexivity.
Qed.

Lemma normal_in_le (a b c d : Z) (x y : float) :
  normal_in a b x -> normal_in c d y -> (b < c)%Z -> (x <=? y) = true.
Proof.
  intros (mx & ex & Hx & _ & Hex) (my & ey & Hy & _ & Hey) Hlt.
  rewrite leb_spec, Hx, Hy. unfold SFleb, SFcompare.
  replace (ex ?= ey)%Z with Lt by (symmetry; apply Z.compare_lt_iff; lia).
  reflexivity.
Qed.

(** A double between two positive normal doubles is a positive normal
    double, and its exponent lies between theirs. *)
Lemma normal_in_between (a a' b b' : Z) (lo hi x : float) :
  normal_in a a' lo -> normal_in b b' hi -> (-1022 < a)%Z ->
  (lo <=? x) = true -> (x <=? hi) = true ->
  normal_in a b' x.
Proof.
  intros (ml & el & Hl & _ & Hel) (mh & eh & Hh & _ & Heh) Ha.
  rewrite !leb_spec, Hl, Hh. unfold normal_in, sf_normal.
  pose proof (Prim2SF_valid x) as Hv. intros H1 H2.
  destruct (Prim2SF x) as [s | s | | s m e]; unfold SFleb, SFcompare in H1, H2;
    try discriminate.
  - destruct s; discriminate.
  - destruct s; [discriminate | ].
    assert (el <= e)%Z.
    { destruct (Z.compare_spec el e); try lia; discriminate. }
    assert (e <= eh)%Z.
    { destruct (Z.compare_spec e eh); try lia; discriminate. }
    exists m, e. repeat split; try lia.
    cbn [valid_binary] in Hv. unfold bounded, canonical_mantissa in Hv.
    apply andb_prop in Hv. destruct Hv as [Hc _].
    apply Z.eqb_eq in Hc. unfold fexp, SpecFloat.emin, prec, emax in Hc.
    apply Pos2Z.inj. lia.
Qed.


(* ================================================================== *)
(** * Range analysis of the analytical model *)
(* ================================================================== *)

Ltac closed_term c :=
  match c with
  | context [?x] => is_var x; fail 1
  | _ => idtac
  end.

(** A closed expression is a positive normal double: by evaluation. *)
Ltac normal_const :=
  lazymatch goal with
  | |- normal_in ?lo ?hi ?c =>
      closed_term c;
      let sf := eval vm_compute in (Prim2SF c) in
      lazymatch sf with
      | S754_finite false ?m ?e =>
          let k := eval vm_compute in (e + 52)%Z in
          unify lo k; unify hi k;
          exists m, e;
          split; [vm_compute; reflexivity
                 | split; [vm_compute; reflexivity | lia] ]
      end
  end.

(** Exponent range of an expression built from [*], [/] and [+]. *)
Ltac nrange :=
  first
    [ eassumption
    | normal_const
    | lazymatch goal with
      | |- normal_in _ _ (?x * ?y) =>
          eapply normal_in_mul; [nrange | nrange | lia | lia]
      | |- normal_in _ _ (?x / ?y) =>
          eapply normal_in_div; [nrange | nrange | lia | lia]
      | |- normal_in _ _ (?x + ?y) =>
          eapply normal_in_add; [nrange | nrange | lia | lia | lia]
      end ].

Lemma truediv_normal (x y : float) (a b : Z) :
  normal_in a b y -> Py.truediv x y = Ok (x / y).
Proof.
  intros H. unfold Py.truediv. now rewrite (normal_in_nonzero a b).
Qed.

Lemma ordinary_normal (x : float) :
  ordinary x = true -> normal_in (-333) 332 x.
Proof.
  unfold ordinary. intros H. apply andb_prop in H. destruct H as [H1 H2].
  eapply (normal_in_between (-333) (-333) 332 332 1e-100 1e100);
    try eassumption; try lia; normal_const.
Qed.

Lemma resistance_normal (kprime W_m L_m VOD : float) (a b c d e f : Z) :
  normal_in a b W_m -> normal_in c d L_m ->
  normal_in e f (kprime * (W_m / L_m) * VOD) ->
  resistance kprime W_m L_m VOD = Ok (1.0 / (kprime * (W_m / L_m) * VOD)).
Proof.
  intros HW HL HD. unfold resistance, Py.greater.
  rewrite (normal_in_pos _ _ _ HW).
  rewrite (truediv_normal _ _ _ _ HL). cbn [Py.bind].
  now rewrite (truediv_normal _ _ _ _ HD).
Qed.

Lemma normal_positive_finite (a b : Z) (x : float) :
  normal_in a b x -> positive_finite x = true.
Proof.
  intros H. unfold positive_finite, Py.greater, Py.isfinite.
  now rewrite (normal_in_pos _ _ _ H), (normal_in_finite _ _ _ H).
Qed.

(** The resistance of a transistor whose width and length are positive
    normal doubles of moderate exponent. *)
Lemma resistance_range (kprime VOD W L : float) (a b c d k v : Z) :
  normal_in k k kprime -> normal_in v v VOD ->
  normal_in a b W -> normal_in c d L ->
  (-20 <= k <= 0)%Z -> (0 <= v <= 2)%Z ->
  (-400 <= a)%Z -> (b <= 400)%Z -> (-400 <= c)%Z -> (d <= 400)%Z ->
  exists R, resistance kprime (W * 1e-6) (L * 1e-6) VOD = Ok R
            /\ normal_in (c - b - (k + v) - 8) (d - a - (k + v) + 4) R.
Proof.
  intros Hk Hv HW HL Hkr Hvr Ha Hb Hc Hd.
  pose proof HW as (mW & eW & _ & _ & HWr).
  pose proof HL as (mL & eL & _ & _ & HLr).
  assert (HWm : normal_in (a - 20) (b - 18) (W * 1e-6)).
  { eapply normal_in_weaken; [nrange | lia | lia]. }
  assert (HLm : normal_in (c - 20) (d - 18) (L * 1e-6)).
  { eapply normal_in_weaken; [nrange | lia | lia]. }
  clear HW HL.
  assert (HD : normal_in (k + v + a - d - 3) (k + v + b - c + 7)
                 (kprime * (W * 1e-6 / (L * 1e-6)) * VOD)).
  { eapply normal_in_weaken; [nrange | lia | lia]. }
  eexists. split.
  - eapply resistance_normal; eassumption.
  - eapply normal_in_weaken; [nrange | lia | lia].
Qed.

Lemma resistance_ordinary (kprime VOD W L : float) (k v : Z) :
  normal_in k k kprime -> normal_in v v VOD ->
  (-20 <= k <= 0)%Z -> (0 <= v <= 2)%Z ->
  normal_in (-333) 332 W -> normal_in (-333) 332 L ->
  exists R, resistance kprime (W * 1e-6) (L * 1e-6) VOD = Ok R
            /\ normal_in (-700) 700 R.
Proof.
  intros Hk Hv Hkr Hvr HW HL.
  destruct (resistance_range kprime VOD W L (-333) 332 (-333) 332 k v)
    as (R & HR & Hn); try assumption; try lia.
  exists R. split; [assumption | ].
  eapply normal_in_weaken; [eassumption | lia | lia].
Qed.

(* ================================================================== *)
(** * C1: the performance record *)
(* ================================================================== *)

(** The declared box of [optimize_inverter.py] consists of dimensions of
    ordinary magnitude. *)
Lemma declared_bounds_ordinary (Wn Wp L : float) :
  within_declared_bounds Wn Wp L = true ->
  normal_in (-1) 5 Wn /\ normal_in (-1) 7 Wp /\ normal_in (-2) 0 L.
Proof.
  unfold within_declared_bounds, xl, xu, between. intros H.
  repeat match goal with
         | Hc : _ && _ = true |- _ => apply andb_prop in Hc; destruct Hc
         end.
  repeat apply conj.
  - eapply (normal_in_between (-1) (-1) 5 5 0.5 50.0);
      try eassumption; try lia; normal_const.
  - eapply (normal_in_between (-1) (-1) 7 7 0.5 150.0);
      try eassumption; try lia; normal_const.
  - eapply (normal_in_between (-2) (-2) 0 0 0.35 1.0);
      try eassumption; try lia; normal_const.
Qed.

Lemma normal_is_ordinary (a b : Z) (x : float) :
  normal_in a b x -> (-332 <= a)%Z -> (b <= 331)%Z -> ordinary x = true.
Proof.
  intros H Ha Hb. unfold ordinary. apply andb_true_intro. split.
  - eapply (normal_in_le (-333) (-333)); [normal_const | exact H | lia].
  - eapply (normal_in_le a b 332 332); [exact H | normal_const | lia].
Qed.

Lemma declared_bounds_are_ordinary (Wn Wp L : float) :
  within_declared_bounds Wn Wp L = true ->
  ordinary Wn = true /\ ordinary Wp = true /\ ordinary L = true.
Proof.
  intros H. apply declared_bounds_ordinary in H. destruct H as (HWn & HWp & HL).
  repeat apply conj; eapply normal_is_ordinary; try eassumption; lia.
Qed.

(** The regression fixture of the specification. *)
Example main_fixture :
  compute_performances 2.0 6.0 0.35
  = Ok {| delay := 2.1364328201128328e-12;
          power_dyn := 1.0889999999999999e-05;
          power_stat := 3.2999999999999998e-08;
          power_total := 1.0922999999999999e-05;
          area := 8.3999999999999986 |}.
Proof. vm_compute. reflexivity. Qed.

(** C1, counterexample: two positive widths whose sum overflows give an
    infinite area, so the sentence does not hold of every positive
    double. *)
Lemma positive_inputs_overflow :
  Py.greater 1e308 0 = true /\ Py.greater 1.0 0 = true /\
  (exists p, compute_performances 1e308 1e308 1.0 = Ok p
             /\ area p = infinity /\ Py.isfinite (area p) = false) /\
  ~ positive_inputs_well_formed.
Proof.
  split; [reflexivity | split; [reflexivity | split] ].
  - eexists. split; [vm_compute; reflexivity | split; reflexivity].
  - intros H.
    destruct (H 1e308 1e308 1.0 eq_refl eq_refl eq_refl) as (p & Hp & Hw).
    vm_compute in Hp. injection Hp as <-.
    destruct Hw as (_ & _ & _ & _ & Ha & _). vm_compute in Ha. discriminate.
Qed.

(** A positive width so small against the length that their quotient
    underflows makes [compute_performances] raise. *)
Lemma positive_inputs_underflow :
  Py.greater 1e-300 0 = true /\ Py.greater 1e300 0 = true /\
  compute_performances 1e-300 1.0 1e300 = Raise ZeroDivisionError.
Proof. repeat split; vm_compute; reflexivity. Qed.

(** C1, amended: for widths and length of ordinary magnitude (between
    1e-100 and 1e100, which contains the declared bounds),
    [compute_performances] returns a record whose delay, dynamic, static
    and total power and area are strictly positive and finite, and whose
    total power is the sum of the dynamic and the static power. *)
Theorem compute_performances_well_formed (Wn Wp L : float) :
  ordinary Wn = true -> ordinary Wp = true -> ordinary L = true ->
  exists p, compute_performances Wn Wp L = Ok p /\ well_formed p.
Proof.
  intros HWn HWp HL. apply ordinary_normal in HWn, HWp, HL.
  destruct (resistance_ordinary KPRIME_N (VDD - VTH_N) Wn L (-13) 1)
    as (Rn & HRn & HnRn); try assumption; try lia; try normal_const.
  destruct (resistance_ordinary KPRIME_P (VDD - VTH_P) Wp L (-14) 1)
    as (Rp & HRp & HnRp); try assumption; try lia; try normal_const.
  unfold compute_performances. cbv zeta. rewrite HRn, HRp. cbn [Py.bind].
  eexists. split; [reflexivity | ].
  unfold well_formed; cbn [delay power_dyn power_stat power_total area].
  repeat apply conj.
  - eapply normal_positive_finite. nrange.
  - vm_compute. reflexivity.
  - vm_compute. reflexivity.
  - vm_compute. reflexivity.
  - eapply normal_positive_finite. nrange.
  - reflexivity.
Qed.

Lemma compute_performances_well_formed_fixture :
  ordinary 2.0 = true /\ ordinary 6.0 = true /\ ordinary 0.35 = true /\
  exists p, compute_performances 2.0 6.0 0.35 = Ok p /\ well_formed p.
Proof.
  split; [reflexivity | split; [reflexivity | split; [reflexivity | ] ] ].
  apply (compute_performances_well_formed 2.0 6.0 0.35); reflexivity.
Defined.

(* ================================================================== *)
(** * C2: degenerate widths *)
(* ================================================================== *)

(** Rounding keeps the sign: a negative product is never above zero. *)
Lemma binary_round_aux_negative (m : Z) (e : Z) (l : location) :
  SFltb (S754_zero false) (binary_round_aux prec emax true m e l) = false.
Proof.
  unfold binary_round_aux.
  destruct (shr_fexp prec emax m e l) as [mrs e'].
  destruct (shr_fexp prec emax _ e' loc_Exact) as [mrs2 e2].
  destruct (shr_m mrs2); try reflexivity.
  destruct (e2 <=? emax - prec)%Z; reflexivity.
Qed.

(** [W_m > 0] is false as soon as [W <= 0]: scaling to metres by a
    positive constant cannot make a non-positive width positive. *)
Lemma nonpositive_scaled (x c : float) (a b : Z) :
  normal_in a b c -> (x <=? 0) = true -> Py.greater (x * c) 0 = false.
Proof.
  intros (mc & ec & Hc & _) Hx. unfold Py.greater.
  rewrite ltb_spec, mul_spec, Hc. rewrite leb_spec in Hx.
  change (Prim2SF 0) with (S754_zero false) in *.
  destruct (Prim2SF x) as [s | s | | s m e]; unfold SF64mul, SFmul.
  - reflexivity.
  - destruct s; [reflexivity | discriminate].
  - reflexivity.
  - destruct s; [ | discriminate]. apply binary_round_aux_negative.
Qed.

Lemma resistance_sentinel (kprime VOD W L : float) :
  (W <=? 0) = true ->
  resistance kprime (W * 1e-6) (L * 1e-6) VOD = Ok R_SENTINEL.
Proof.
  intros H. unfold resistance.
  rewrite (nonpositive_scaled W 1e-6 (-20) (-20)); [reflexivity | | assumption].
  normal_const.
Qed.

(** Either way the resistance is defined and is a normal double. *)
Lemma resistance_defined (kprime VOD W L : float) (k v : Z) :
  normal_in k k kprime -> normal_in v v VOD ->
  (-20 <= k <= 0)%Z -> (0 <= v <= 2)%Z ->
  ordinary_or_degenerate W = true -> ordinary L = true ->
  exists R, resistance kprime (W * 1e-6) (L * 1e-6) VOD = Ok R
            /\ normal_in (-700) 700 R
            /\ ((W <=? 0) = true -> R = R_SENTINEL).
Proof.
  intros Hk Hv Hkr Hvr HW HL.
  destruct (W <=? 0) eqn:Hneg.
  - exists R_SENTINEL. split; [now apply resistance_sentinel | split; [ | reflexivity] ].
    eapply normal_in_weaken; [normal_const | lia | lia].
  - unfold ordinary_or_degenerate in HW. rewrite Hneg, orb_false_r in HW.
    apply ordinary_normal in HW, HL.
    destruct (resistance_ordinary kprime VOD W L k v) as (R & HR & Hn);
      try assumption.
    exists R. split; [assumption | split; [assumption | discriminate] ].
Qed.

(** Inside the declared box the delay stays below [2^-23] seconds. *)
Lemma declared_box_delay (Wn Wp L : float) :
  within_declared_bounds Wn Wp L = true ->
  exists p, compute_performances Wn Wp L = Ok p
            /\ normal_in (-53) (-24) (delay p).
Proof.
  intros H. apply declared_bounds_ordinary in H. destruct H as (HWn & HWp & HL).
  destruct (resistance_range KPRIME_N (VDD - VTH_N) Wn L (-1) 5 (-2) 0 (-13) 1)
    as (Rn & HRn & HnRn); try assumption; try lia; try normal_const.
  destruct (resistance_range KPRIME_P (VDD - VTH_P) Wp L (-1) 7 (-2) 0 (-14) 1)
    as (Rp & HRp & HnRp); try assumption; try lia; try normal_const.
  unfold compute_performances. cbv zeta. rewrite HRn, HRp. cbn [Py.bind].
  eexists. split; [reflexivity | ]. cbn [delay].
  eapply normal_in_weaken; [nrange | lia | lia].
Qed.

(** C2, counterexample: with [Wn = 0] and [L > 0], a PMOS width whose
    quotient by the length underflows still divides by zero. *)
Lemma degenerate_Wn_underflow :
  (0 <=? 0) = true /\ Py.greater 1e300 0 = true /\
  compute_performances 0 1e-300 1e300 = Raise ZeroDivisionError /\
  ~ degenerate_Wn_safe.
Proof.
  split; [reflexivity | split; [reflexivity | split] ].
  - vm_compute. reflexivity.
  - intros H. destruct (H 0 1e-300 1e300 eq_refl eq_refl) as (p & Hp & _).
    vm_compute in Hp. discriminate.
Qed.

(** C2, amended: when one width is zero or negative, the length is of
    ordinary magnitude and the other width is of ordinary magnitude or
    degenerate too, [compute_performances] returns (no division by
    zero), the resistance of each degenerate transistor is the sentinel
    1e12, and the delay is strictly greater than the delay of every
    point of the declared box. *)
Theorem degenerate_width_dominates (Wn Wp L : float) :
  (Wn <=? 0) || (Wp <=? 0) = true ->
  ordinary_or_degenerate Wn = true ->
  ordinary_or_degenerate Wp = true ->
  ordinary L = true ->
  exists p,
    compute_performances Wn Wp L = Ok p
    /\ ((Wn <=? 0) = true ->
        resistance KPRIME_N (Wn * 1e-6) (L * 1e-6) (VDD - VTH_N)
        = Ok R_SENTINEL)
    /\ ((Wp <=? 0) = true ->
        resistance KPRIME_P (Wp * 1e-6) (L * 1e-6) (VDD - VTH_P)
        = Ok R_SENTINEL)
    /\ dominates_declared_box (delay p).
Proof.
  intros Hdeg HWn HWp HL.
  destruct (resistance_defined KPRIME_N (VDD - VTH_N) Wn L (-13) 1)
    as (Rn & HRn & HnRn & HsRn); try assumption; try lia; try normal_const.
  destruct (resistance_defined KPRIME_P (VDD - VTH_P) Wp L (-14) 1)
    as (Rp & HRp & HnRp & HsRp); try assumption; try lia; try normal_const.
  eexists. split.
  { unfold compute_performances. cbv zeta. rewrite HRn, HRp. reflexivity. }
  cbn [delay].
  split; [intros; now apply resistance_sentinel | ].
  split; [intros; now apply resistance_sentinel | ].
  assert (Hd : normal_in (-10) 700
                 ((ALPHA_DELAY * Rn * CL + ALPHA_DELAY * Rp * CL) / 2.0)).
  { apply orb_prop in Hdeg. destruct Hdeg as [Hn | Hp].
    - rewrite (HsRn Hn). eapply normal_in_weaken; [nrange | lia | lia].
    - rewrite (HsRp Hp). eapply normal_in_weaken; [nrange | lia | lia]. }
  intros Wn' Wp' L' Hbox.
  destruct (declared_box_delay Wn' Wp' L' Hbox) as (p' & Hp' & Hn').
  exists p'. split; [assumption | ].
  unfold Py.greater. eapply normal_in_lt; [exact Hn' | exact Hd | lia].
Qed.

Lemma degenerate_width_dominates_zero_Wn :
  (0 <=? 0) || (6.0 <=? 0) = true /\
  ordinary_or_degenerate 0 = true /\
  ordinary_or_degenerate 6.0 = true /\
  ordinary 0.35 = true /\
  exists p,
    compute_performances 0 6.0 0.35 = Ok p
    /\ ((0 <=? 0) = true ->
        resistance KPRIME_N (0 * 1e-6) (0.35 * 1e-6) (VDD - VTH_N)
        = Ok R_SENTINEL)
    /\ ((6.0 <=? 0) = true ->
        resistance KPRIME_P (6.0 * 1e-6) (0.35 * 1e-6) (VDD - VTH_P)
        = Ok R_SENTINEL)
    /\ dominates_declared_box (delay p).
Proof.
  split; [reflexivity | split; [reflexivity | split; [reflexivity | split; [reflexivity | ] ] ] ].
  apply (degenerate_width_dominates 0 6.0 0.35); reflexivity.
Defined.

(* ================================================================== *)
(** * C3, C4, C5: the optimiser adapter *)
(* ================================================================== *)

(** A width above the threshold is not zero, so the ratio is defined. *)
Lemma above_threshold_nonzero (Wn : float) :
  Py.greater Wn 0.01 = true -> (Wn =? 0) = false.
Proof.
  unfold Py.greater. rewrite ltb_spec, FloatAxioms.eqb_spec.
  set (c := Prim2SF 0.01). vm_compute in c. subst c.
  set (z := Prim2SF 0). vm_compute in z. subst z.
  destruct (Prim2SF Wn) as [s | s | | s m e];
    unfold SFltb, SFeqb, SFcompare; intros H;
    try discriminate; destruct s; reflexivity.
Qed.

Lemma sizing_ratio_above (Wn Wp : float) :
  Py.greater Wn 0.01 = true -> sizing_ratio Wn Wp = Ok (Wp / Wn).
Proof.
  intros H. unfold sizing_ratio, Py.truediv.
  now rewrite H, (above_threshold_nonzero Wn H).
Qed.

(** [Wn <= 0.01] excludes [Wn > 0.01]. *)
Lemma at_most_threshold_not_above (Wn : float) :
  (Wn <=? 0.01) = true -> Py.greater Wn 0.01 = false.
Proof.
  unfold Py.greater. rewrite ltb_spec, leb_spec.
  set (c := Prim2SF 0.01). vm_compute in c. subst c.
  destruct (Prim2SF Wn) as [s | s | | s m e]; unfold SFleb, SFltb, SFcompare;
    intros H.
  - reflexivity.
  - destruct s; [reflexivity | discriminate].
  - reflexivity.
  - destruct s; [reflexivity | ].
    change (PosDef.Pos.compare_cont Eq) with Pos.compare in *.
    rewrite (Z.compare_antisym e), (Pos.compare_antisym m).
    destruct (e ?= -59)%Z; cbn [CompOpp] in *;
      [ | reflexivity | discriminate].
    destruct (m ?= 5764607523034235)%positive; cbn [CompOpp] in *;
      [reflexivity | reflexivity | discriminate].
Qed.

(** On widths that are ordinary or degenerate and an ordinary length
    [compute_performances] returns, hence so does the adapter. *)
Lemma compute_performances_defined (Wn Wp L : float) :
  ordinary_or_degenerate Wn = true -> ordinary_or_degenerate Wp = true ->
  ordinary L = true ->
  exists p, compute_performances Wn Wp L = Ok p.
Proof.
  intros HWn HWp HL.
  destruct (resistance_defined KPRIME_N (VDD - VTH_N) Wn L (-13) 1)
    as (Rn & HRn & _); try assumption; try lia; try normal_const.
  destruct (resistance_defined KPRIME_P (VDD - VTH_P) Wp L (-14) 1)
    as (Rp & HRp & _); try assumption; try lia; try normal_const.
  unfold compute_performances. cbv zeta. rewrite HRn, HRp.
  eexists. reflexivity.
Qed.

Lemma adapter_defined (Wn Wp L : float) :
  ordinary_or_degenerate Wn = true -> ordinary_or_degenerate Wp = true ->
  ordinary L = true ->
  exists f g1 g2,
    compute_performances_for_optim [Wn; Wp; L] = Ok ([f], [g1; g2]).
Proof.
  intros HWn HWp HL.
  destruct (compute_performances_defined Wn Wp L HWn HWp HL) as (p & Hp).
  unfold compute_performances_for_optim. rewrite Hp. cbn [Py.bind].
  unfold sizing_ratio. destruct (Py.greater Wn 0.01) eqn:Hgt.
  - unfold Py.truediv. rewrite (above_threshold_nonzero Wn Hgt).
    do 3 eexists. reflexivity.
  - do 3 eexists. reflexivity.
Qed.

(** C3: for every parameter vector [Wn, Wp, L] the adapter returns
    exactly when [compute_performances] does, and its scalar objective
    is then 1.0 * (delay * 1e9) + 0.01 * (power_total * 1e6)
    + 0.001 * area, computed on the fields of that record. *)
Theorem optim_objective_weighted_sum (Wn Wp L : float) :
  exists g,
    compute_performances_for_optim [Wn; Wp; L]
    = (perf <- compute_performances Wn Wp L ;;
       Ok ([weighted_objective perf], g)).
Proof.
  unfold compute_performances_for_optim.
  destruct (Py.greater Wn 0.01) eqn:Hgt.
  - exists [Wp / Wn - 1.2; 4.5 - Wp / Wn].
    destruct (compute_performances Wn Wp L) as [perf | e]; [ | reflexivity].
    cbn [Py.bind]. now rewrite (sizing_ratio_above Wn Wp Hgt).
  - exists [1.0 - 1.2; 4.5 - 1.0].
    destruct (compute_performances Wn Wp L) as [perf | e]; [ | reflexivity].
    cbn [Py.bind]. unfold sizing_ratio. now rewrite Hgt.
Qed.

Example optim_objective_fixture :
  compute_performances_for_optim [2.0; 6.0; 0.35]
  = Ok ([0.11976643282011282], [1.8; 1.5]).
Proof. vm_compute. reflexivity. Qed.

(** C4, counterexample: with [Wn] above the threshold and [L = 0] the
    adapter returns no residuals: the [ZeroDivisionError] of
    [compute_performances] reaches the caller. *)
Lemma residuals_not_returned_at_zero_length :
  Py.greater 2.0 0.01 = true
  /\ compute_performances_for_optim [2.0; 6.0; 0] = Raise ZeroDivisionError
  /\ ~ residuals_returned_above_threshold.
Proof.
  split; [reflexivity | split; [vm_compute; reflexivity | ] ].
  intros H. destruct (H 2.0 6.0 0 eq_refl) as (f & Hf).
  vm_compute in Hf. discriminate.
Qed.

(** C4, amended: above the threshold the adapter returns the residuals
    [Wp/Wn - 1.2] and [4.5 - Wp/Wn] whenever [compute_performances]
    returns, and passes its exception on otherwise;
    [compute_performances] does return when [Wn] and [L] are of
    ordinary magnitude and [Wp] is of ordinary magnitude or zero or
    negative.  At ratio 1.2 the first residual is 0, at 1.19 it is
    negative, at 4.5 the second is 0, at 4.51 it is negative. *)
Theorem optim_constraints_window (Wn Wp L : float) :
  Py.greater Wn 0.01 = true ->
  compute_performances_for_optim [Wn; Wp; L]
  = (perf <- compute_performances Wn Wp L ;;
     Ok ([weighted_objective perf], [Wp / Wn - 1.2; 4.5 - Wp / Wn]))
  /\ (ordinary Wn = true -> ordinary_or_degenerate Wp = true ->
      ordinary L = true ->
      exists perf,
        compute_performances Wn Wp L = Ok perf
        /\ compute_performances_for_optim [Wn; Wp; L]
           = Ok ([weighted_objective perf], [Wp / Wn - 1.2; 4.5 - Wp / Wn]))
  /\ (Wp / Wn = 1.2 -> Wp / Wn - 1.2 = 0)
  /\ (Wp / Wn = 1.19 -> Py.less (Wp / Wn - 1.2) 0 = true)
  /\ (Wp / Wn = 4.5 -> 4.5 - Wp / Wn = 0)
  /\ (Wp / Wn = 4.51 -> Py.less (4.5 - Wp / Wn) 0 = true).
Proof.
  intros Hgt.
  assert (Hbind : compute_performances_for_optim [Wn; Wp; L]
                  = (perf <- compute_performances Wn Wp L ;;
                     Ok ([weighted_objective perf],
                         [Wp / Wn - 1.2; 4.5 - Wp / Wn]))).
  { unfold compute_performances_for_optim.
    destruct (compute_performances Wn Wp L) as [perf | e]; [ | reflexivity].
    cbn [Py.bind]. now rewrite (sizing_ratio_above Wn Wp Hgt). }
  split; [exact Hbind | split].
  - intros HWn HWp HL.
    destruct (compute_performances_defined Wn Wp L) as (perf & Hp);
      try assumption.
    + unfold ordinary_or_degenerate. now rewrite HWn.
    + exists perf. split; [exact Hp | ]. rewrite Hbind, Hp. reflexivity.
  - repeat apply conj; intros ->; reflexivity.
Qed.

Lemma optim_constraints_window_at_lower_edge :
  Py.greater 5.0 0.01 = true /\
  ordinary 5.0 = true /\ ordinary_or_degenerate 6.0 = true /\
  ordinary 0.35 = true /\
  (compute_performances_for_optim [5.0; 6.0; 0.35]
   = (perf <- compute_performances 5.0 6.0 0.35 ;;
      Ok ([weighted_objective perf], [6.0 / 5.0 - 1.2; 4.5 - 6.0 / 5.0]))
   /\ (ordinary 5.0 = true -> ordinary_or_degenerate 6.0 = true ->
       ordinary 0.35 = true ->
       exists perf,
         compute_performances 5.0 6.0 0.35 = Ok perf
         /\ compute_performances_for_optim [5.0; 6.0; 0.35]
            = Ok ([weighted_objective perf],
                  [6.0 / 5.0 - 1.2; 4.5 - 6.0 / 5.0]))
   /\ (6.0 / 5.0 = 1.2 -> 6.0 / 5.0 - 1.2 = 0)
   /\ (6.0 / 5.0 = 1.19 -> Py.less (6.0 / 5.0 - 1.2) 0 = true)
   /\ (6.0 / 5.0 = 4.5 -> 4.5 - 6.0 / 5.0 = 0)
   /\ (6.0 / 5.0 = 4.51 -> Py.less (4.5 - 6.0 / 5.0) 0 = true)).
Proof.
  split; [reflexivity | ].
  split; [reflexivity | ].
  split; [reflexivity | ].
  split; [reflexivity | ].
  apply (optim_constraints_window 5.0 6.0 0.35). reflexivity.
Defined.

(** The four boundary vectors of the specification, evaluated. *)
Example optim_constraints_boundaries :
  (exists f, compute_performances_for_optim [5.0; 6.0; 0.35]
             = Ok (f, [0; 4.5 - 1.2]))
  /\ (exists f g1 g2, compute_performances_for_optim [100.0; 119.0; 0.35]
                      = Ok (f, [g1; g2]) /\ Py.less g1 0 = true)
  /\ (exists f, compute_performances_for_optim [2.0; 9.0; 0.35]
                = Ok (f, [4.5 - 1.2; 0]))
  /\ (exists f g1 g2, compute_performances_for_optim [100.0; 451.0; 0.35]
                      = Ok (f, [g1; g2]) /\ Py.less g2 0 = true).
Proof.
  repeat apply conj.
  - eexists. vm_compute. reflexivity.
  - do 3 eexists. split; [vm_compute; reflexivity | reflexivity].
  - eexists. vm_compute. reflexivity.
  - do 3 eexists. split; [vm_compute; reflexivity | reflexivity].
Qed.

(** C5: at or below the threshold (zero and negative widths included)
    the ratio is 1.0 whatever [Wp] is, no division by [Wn] takes place,
    and the residuals are [1.0 - 1.2] and [4.5 - 1.0]. *)
Theorem optim_constraints_forced_ratio (Wn Wp L : float) :
  (Wn <=? 0.01) = true ->
  sizing_ratio Wn Wp = Ok 1.0
  /\ compute_performances_for_optim [Wn; Wp; L]
     = (perf <- compute_performances Wn Wp L ;;
        Ok ([weighted_objective perf], [1.0 - 1.2; 4.5 - 1.0])).
Proof.
  intros Hle. apply at_most_threshold_not_above in Hle.
  assert (Hr : sizing_ratio Wn Wp = Ok 1.0) by (unfold sizing_ratio; now rewrite Hle).
  split; [exact Hr | ].
  unfold compute_performances_for_optim.
  destruct (compute_performances Wn Wp L) as [perf | e]; [ | reflexivity].
  cbn [Py.bind]. now rewrite Hr.
Qed.

Lemma optim_constraints_forced_ratio_at_zero :
  (0 <=? 0.01) = true /\
  sizing_ratio 0 6.0 = Ok 1.0
  /\ compute_performances_for_optim [0; 6.0; 0.35]
     = (perf <- compute_performances 0 6.0 0.35 ;;
        Ok ([weighted_objective perf], [1.0 - 1.2; 4.5 - 1.0])).
Proof.
  split; [reflexivity | ].
  apply (optim_constraints_forced_ratio 0 6.0 0.35). reflexivity.
Defined.

(** At [Wn = 0] the division the adapter avoids would have raised, and
    the adapter returns. *)
Example optim_zero_width_returns :
  Py.truediv 6.0 0 = Raise ZeroDivisionError
  /\ exists f, compute_performances_for_optim [0; 6.0; 0.35]
               = Ok ([f], [1.0 - 1.2; 3.5]).
Proof. split; [reflexivity | eexists; vm_compute; reflexivity]. Qed.

(* ================================================================== *)
(** * C9: unit-suffix formatting *)
(* ================================================================== *)

Lemma last_char_app (s : string) (c : ascii) :
  last_char (s ++ String c EmptyString) = Some c.
Proof.
  induction s as [ | a s IH]; [reflexivity | ].
  cbn [append last_char]. rewrite IH.
  destruct (s ++ String c EmptyString)%string eqn:E; [ | reflexivity].
  destruct s; discriminate.
Qed.

(** C9, counterexample: the channel length 0.35 is below 1 and is
    formatted in micrometres. *)
Lemma length_below_one_in_micrometres :
  Py.greater_eq 0.35 1 = false /\
  length_str 0.35 = "0.350u"%string /\
  ~ suffix_threshold_is_one length_str.
Proof.
  split; [reflexivity | split; [vm_compute; reflexivity | ] ].
  intros H. specialize (H 0.35). vm_compute in H. discriminate.
Qed.

(** C9, amended: the widths Wn and Wp are written with the micrometre
    suffix when they are at least 1 and with the nanometre suffix
    otherwise; the length L is written with the micrometre suffix when
    it is at least 0.1 and with the nanometre suffix otherwise.  The
    formatting is a total function of the double. *)
Theorem unit_suffix_thresholds (v : float) :
  suffix_threshold_is_one width_str
  /\ unit_suffix (length_str v)
     = Some (if Py.greater_eq v 0.1 then "u" else "n")%char.
Proof.
  split.
  - intros w. unfold unit_suffix, width_str.
    destruct (Py.greater_eq w 1); apply last_char_app.
  - unfold unit_suffix, length_str.
    destruct (Py.greater_eq v 0.1); apply last_char_app.
Qed.

Example formatting_examples :
  width_str 2.0 = "2.00u"%string /\ width_str 0.5 = "500n"%string /\
  length_str 0.35 = "0.350u"%string /\ length_str 0.05 = "50n"%string.
Proof. repeat apply conj; vm_compute; reflexivity. Qed.

(* ================================================================== *)
(** * C6, C7, C10: the simulation-backed evaluator *)
(* ================================================================== *)

(** Without the toolchain the answer is the failure outcome, whatever
    the collaborators would have done. *)
Lemma unavailable_is_failure (tc : toolchain) (Wn Wp L : float) :
  run_simulation_and_extract_delay false tc Wn Wp L = Ok FAILURE.
Proof. reflexivity. Qed.

(** The outer [try] turns every exception of its body into the failure
    outcome. *)
Lemma try_body_contained (tc : toolchain) (Wn Wp L : float) :
  cir_file_exists tc = Ok true ->
  run_simulation_and_extract_delay true tc Wn Wp L
  = match simulation_body tc (width_str Wn) (width_str Wp) (length_str L) with
    | Ok o => Ok o
    | Raise _ => Ok FAILURE
    end.
Proof.
  intros H. unfold run_simulation_and_extract_delay. cbn [negb].
  rewrite H. cbn [Py.bind negb]. unfold Py.try_except.
  destruct (simulation_body _ _ _ _); reflexivity.
Qed.




Example crash_is_contained :
  run_simulation_and_extract_delay true crashing_toolchain 2.0 6.0 0.35
  = Ok FAILURE.
Proof. vm_compute. reflexivity. Qed.

(** A completed simulation: the evaluator's answer is the success
    outcome built from whatever the extraction yields. *)
Lemma completed_simulation (tc : toolchain) (Wn Wp L : float) (path : string) :
  simulation_completes tc (width_str Wn) (width_str Wp) (length_str L) path ->
  run_simulation_and_extract_delay true tc Wn Wp L
  = match extract_measurements tc path with
    | Ok (t_hl, t_lh) => Ok (success_outcome t_hl t_lh)
    | Raise _ => Ok FAILURE
    end.
Proof.
  intros (Hc & He & H1 & H2 & H3 & Hr & Hrun & (r & Hw & Hf & Ht & Hl) & Hp).
  rewrite try_body_contained by assumption. unfold simulation_body.
  rewrite He, H1, H2, H3, Hr, Hrun, Hw. cbn [Py.bind]. rewrite Hf.
  destruct (completed_tasks r) as [ | t ts] eqn:Etasks; [congruence | ].
  cbn [List.length Nat.ltb Nat.leb Nat.eqb orb].
  rewrite Hl, Hp. cbn [Py.bind negb].
  destruct (extract_measurements tc path) as [ [t_hl t_lh] | e]; reflexivity.
Qed.

(** The two ways in which a log yields [tplh] and no [tphl]. *)
Lemma structured_reader_only_tplh (tc : toolchain) (path : string)
    (log : log_reader) (v : float) :
  LTSpiceLogReader tc path = Ok log ->
  log "tphl"%string = Ok None -> log "tplh"%string = Ok (Some v) ->
  extract_measurements tc path = Ok (None, Some v).
Proof.
  intros Hl H1 H2. unfold extract_measurements. now rewrite Hl, H1, H2.
Qed.

Lemma textual_fallback_only_tplh (tc : toolchain) (path content g : string)
    (e : exn) (v : float) :
  LTSpiceLogReader tc path = Raise e ->
  read_text tc path = Ok content ->
  re_search tc PAT_TPHL content = None ->
  re_search tc PAT_TPLH content = Some g ->
  float_of_str tc g = Ok v ->
  extract_measurements tc path = Ok (None, Some v).
Proof.
  intros Hl Hr H1 H2 Hf. unfold extract_measurements, textual_fallback.
  rewrite Hl, Hr. cbn [Py.bind]. rewrite H1, H2. cbn [Py.bind].
  now rewrite Hf.
Qed.

(** C7: a completed simulation whose log yields [tplh] but no [tphl]
    from either extraction path is a success; [tphl] is the
    1-microsecond sentinel and [delay_ns] is the average of the sentinel
    and [tplh], in nanoseconds. *)
Theorem missing_tphl_substituted
    (tc : toolchain) (Wn Wp L : float) (path : string) (v : float) :
  simulation_completes tc (width_str Wn) (width_str Wp) (length_str L) path ->
  extract_measurements tc path = Ok (None, Some v) ->
  run_simulation_and_extract_delay true tc Wn Wp L
  = Ok {| success := true;
          delay_ns := (1e-6 + v) / 2.0 * 1e9;
          tphl := 1e-6 * 1e9;
          tplh := v * 1e9 |}.
Proof.
  intros Hc He. rewrite (completed_simulation tc Wn Wp L path Hc), He.
  reflexivity.
Qed.

Lemma working_toolchain_completes (Wn_str Wp_str L_str : string) (tc : toolchain)
    (reader : result log_reader) (content : string)
    (search : string -> string -> option string)
    (parse : string -> result float) :
  tc = working_toolchain reader content search parse ->
  simulation_completes tc Wn_str Wp_str L_str "sim.log".
Proof.
  intros ->. unfold simulation_completes, working_toolchain.
  cbn [cir_file_exists SpiceEditor set_parameter SimRunner runner_run
       wait_completion path_exists].
  repeat apply conj; try reflexivity.
  eexists. repeat apply conj; try reflexivity. discriminate.
Qed.

Lemma missing_tphl_substituted_fallback :
  simulation_completes only_tplh_toolchain
    (width_str 2.0) (width_str 6.0) (length_str 0.35) "sim.log" /\
  extract_measurements only_tplh_toolchain "sim.log" = Ok (None, Some 1.5e-10) /\
  run_simulation_and_extract_delay true only_tplh_toolchain 2.0 6.0 0.35
  = Ok {| success := true;
          delay_ns := (1e-6 + 1.5e-10) / 2.0 * 1e9;
          tphl := 1e-6 * 1e9;
          tplh := 1.5e-10 * 1e9 |}.
Proof.
  assert (Hc : simulation_completes only_tplh_toolchain
                 (width_str 2.0) (width_str 6.0) (length_str 0.35) "sim.log").
  { eapply working_toolchain_completes. reflexivity. }
  assert (He : extract_measurements only_tplh_toolchain "sim.log"
               = Ok (None, Some 1.5e-10)) by reflexivity.
  split; [exact Hc | split; [exact He | ] ].
  exact (missing_tphl_substituted only_tplh_toolchain 2.0 6.0 0.35
           "sim.log" 1.5e-10 Hc He).
Defined.

Example only_tplh_outcome :
  run_simulation_and_extract_delay true only_tplh_toolchain 2.0 6.0 0.35
  = Ok {| success := true; delay_ns := 500.07499999999993;
          tphl := 1000; tplh := 0.15 |}.
Proof. vm_compute. reflexivity. Qed.

(* ================================================================== *)
(** * The order on doubles *)
(* ================================================================== *)

Ltac compare_cases :=
  repeat match goal with
    | H : context [(?a ?= ?b)%Z] |- _ =>
        destruct (Z.compare_spec a b); try discriminate
    | H : context [(?a ?= ?b)%positive] |- _ =>
        destruct (Pos.compare_spec a b); try discriminate
    | |- context [(?a ?= ?b)%Z] =>
        destruct (Z.compare_spec a b)
    | |- context [(?a ?= ?b)%positive] =>
        destruct (Pos.compare_spec a b)
    end.

Lemma SFltb_trans (x y z : spec_float) :
  SFltb x y = true -> SFltb y z = true -> SFltb x z = true.
Proof.
  unfold SFltb, SFcompare.
  change (PosDef.Pos.compare_cont Eq) with Pos.compare.
  destruct x as [sx | sx | | sx mx ex], y as [sy | sy | | sy my ey],
           z as [sz | sz | | sz mz ez];
    try discriminate; try reflexivity;
    destruct sx, sy, sz; try discriminate; try reflexivity;
    intros H1 H2; compare_cases; cbn [CompOpp] in *;
    try discriminate; try reflexivity; subst; exfalso; lia.
Qed.

Lemma SFltb_irrefl (x : spec_float) : SFltb x x = false.
Proof.
  unfold SFltb, SFcompare.
  change (PosDef.Pos.compare_cont Eq) with Pos.compare.
  destruct x as [s | s | | s m e]; try reflexivity; destruct s; try reflexivity;
    rewrite Z.compare_refl, Pos.compare_refl; reflexivity.
Qed.

Lemma ltb_trans (x y z : float) :
  (x <? y) = true -> (y <? z) = true -> (x <? z) = true.
Proof. rewrite !ltb_spec. apply SFltb_trans. Qed.

Lemma ltb_irrefl (x : float) : (x <? x) = false.
Proof. rewrite ltb_spec. apply SFltb_irrefl. Qed.

(* ================================================================== *)
(** * C8: grid search *)
(* ================================================================== *)

Lemma for_each_preserves {A S : Type} (P : S -> Prop) (xs : list A)
    (body : A -> S -> result S) :
  (forall x st st', In x xs -> body x st = Ok st' -> P st -> P st') ->
  forall st st', for_each xs body st = Ok st' -> P st -> P st'.
Proof.
  induction xs as [ | x xs IH]; intros Hbody st st' Hrun HP; cbn [for_each] in Hrun.
  - injection Hrun as <-. exact HP.
  - destruct (body x st) as [st1 | e] eqn:Hb; cbn [Py.bind] in Hrun;
      [ | discriminate].
    eapply IH; [ | exact Hrun | ].
    + intros y s s' Hy. apply Hbody. now right.
    + eapply Hbody; [now left | exact Hb | exact HP].
Qed.

Section Incumbent.

Variable sim : evaluator.

(** The update rule of one iteration. *)
Lemma grid_body_step (Wn Wp : float) (o : outcome)
    (st : search_state) :
  outside_window Wn Wp = Ok false -> sim Wn Wp L_val = Ok o ->
  grid_body sim Wn Wp st = Ok (step_after Wn Wp o st).
Proof.
  intros Hw Hs. unfold grid_body, step_after. rewrite Hw. cbn [Py.bind].
  rewrite Hs. cbn [Py.bind best_delay best_params simulated].
  destruct (success o); cbn [andb]; [ | reflexivity].
  destruct (Py.less (delay_ns o) (best_delay st)); reflexivity.
Qed.

Lemma grid_body_skip (Wn Wp : float) (st : search_state) :
  outside_window Wn Wp = Ok true -> grid_body sim Wn Wp st = Ok st.
Proof. intros Hw. unfold grid_body. now rewrite Hw. Qed.

(** An iteration keeps the incumbent sound and minimal. *)
Lemma step_after_sound (Wn Wp : float) (o : outcome)
    (st : search_state) :
  sim Wn Wp L_val = Ok o ->
  incumbent_sound sim st -> incumbent_sound sim (step_after Wn Wp o st).
Proof.
  intros Hs [Hsome Hnone]. unfold step_after.
  destruct (success o) eqn:Hok; cbn [andb].
  2:{ split; cbn [best_params best_delay simulated].
      - intros a b c Hb. destruct (Hsome a b c Hb) as (HL & Hin & Ho).
        split; [assumption | split; [ | assumption] ].
        apply in_or_app. now left.
      - assumption. }
  destruct (Py.less (delay_ns o) (best_delay st)) eqn:Hlt;
    split; cbn [best_params best_delay simulated].
  - intros a b c Hb. injection Hb as <- <- <-.
    split; [reflexivity | split; [apply in_or_app; right; now left | ] ].
    exists o. repeat apply conj; try assumption; try reflexivity.
    destruct (best_params st) as [ [ [a b] c] | ] eqn:Hbp.
    + destruct (Hsome a b c eq_refl) as (_ & _ & o' & _ & _ & _ & Hb9).
      unfold Py.less in *. eapply ltb_trans; eassumption.
    + rewrite (Hnone eq_refl) in Hlt. exact Hlt.
  - discriminate.
  - intros a b c Hb. destruct (Hsome a b c Hb) as (HL & Hin & Ho).
    split; [assumption | split; [ | assumption] ].
    apply in_or_app. now left.
  - assumption.
Qed.

Lemma step_after_minimal (Wn Wp : float) (o : outcome)
    (st : search_state) :
  sim Wn Wp L_val = Ok o ->
  incumbent_minimal sim st -> incumbent_minimal sim (step_after Wn Wp o st).
Proof.
  intros Hs Hmin a b o' Hin Ho' Hok'. unfold step_after in *.
  cbn [simulated best_delay] in *.
  apply in_app_or in Hin. destruct Hin as [Hold | [Hnew | [] ] ].
  - specialize (Hmin a b o' Hold Ho' Hok').
    destruct (success o && Py.less (delay_ns o) (best_delay st)) eqn:Himp;
      [ | exact Hmin].
    apply andb_prop in Himp. destruct Himp as [_ Hlt].
    destruct (Py.less (delay_ns o') (delay_ns o)) eqn:Hc; [ | reflexivity].
    unfold Py.less in *. rewrite (ltb_trans _ _ _ Hc Hlt) in Hmin. discriminate.
  - injection Hnew as <- <-. rewrite Hs in Ho'. injection Ho' as <-.
    rewrite Hok'. cbn [andb].
    destruct (Py.less (delay_ns o) (best_delay st)) eqn:Hlt; [ | exact Hlt].
    apply ltb_irrefl.
Qed.

(** Every iteration keeps the two incumbent properties. *)
Lemma grid_body_preserves (Wn Wp : float)
    (st st' : search_state) :
  grid_body sim Wn Wp st = Ok st' ->
  incumbent_sound sim st /\ incumbent_minimal sim st ->
  incumbent_sound sim st' /\ incumbent_minimal sim st'.
Proof.
  intros Hrun [Hs Hm]. unfold grid_body in Hrun.
  destruct (outside_window Wn Wp) as [ [ | ] | e] eqn:Hw; cbn [Py.bind] in Hrun;
    try discriminate.
  - injection Hrun as <-. now split.
  - destruct (sim Wn Wp L_val) as [o | e] eqn:Ho; [ | discriminate].
    pose proof (grid_body_step Wn Wp o st Hw Ho) as Hstep.
    unfold grid_body in Hstep. rewrite Hw, Ho in Hstep. cbn [Py.bind] in *.
    rewrite Hstep in Hrun. injection Hrun as <-.
    split; [now apply step_after_sound | now apply step_after_minimal].
Qed.

Lemma grid_search_preserves (Wns Wps : list float)
    (st st' : search_state) :
  grid_search sim Wns Wps st = Ok st' ->
  incumbent_sound sim st /\ incumbent_minimal sim st ->
  incumbent_sound sim st' /\ incumbent_minimal sim st'.
Proof.
  unfold grid_search. intros Hrun Hinv.
  eapply (for_each_preserves
            (fun s => incumbent_sound sim s /\ incumbent_minimal sim s));
    [ | exact Hrun | exact Hinv].
  intros Wn s s' _ Hinner Hs.
  eapply (for_each_preserves
            (fun s => incumbent_sound sim s /\ incumbent_minimal sim s));
    [ | exact Hinner | exact Hs].
  intros Wp t t' _. apply grid_body_preserves.
Qed.

End Incumbent.

Section Visited.

Variable sim : evaluator.
Hypothesis sim_total : total_evaluator sim.

(** Inner loop: candidates handed to the evaluator, in order. *)
Lemma inner_loop_simulated (Wn : float) (Wps : list float) :
  (forall Wp, In Wp Wps ->
     outside_window Wn Wp = Ok (negb (in_window (Wn, Wp)))) ->
  forall st, exists st',
    for_each Wps (fun Wp => grid_body sim Wn Wp) st = Ok st'
    /\ simulated st'
       = simulated st ++ filter in_window (map (fun Wp => (Wn, Wp)) Wps).
Proof.
  induction Wps as [ | Wp Wps IH]; intros Hwin st.
  - exists st. split; [reflexivity | ]. cbn [map filter]. now rewrite app_nil_r.
  - cbn [for_each map filter].
    pose proof (Hwin Wp (or_introl eq_refl)) as Hw.
    destruct (IH (fun y Hy => Hwin y (or_intror Hy))) with
      (st := if in_window (Wn, Wp)
             then match sim Wn Wp L_val with
                  | Ok o => step_after Wn Wp o st
                  | Raise _ => st
                  end
             else st) as (st' & Hrun & Hsim).
    exists st'. destruct (in_window (Wn, Wp)) eqn:Hin; cbn [negb] in Hw.
    + destruct (sim_total Wn Wp L_val) as (o & Ho). rewrite Ho in *.
      rewrite (grid_body_step sim Wn Wp o st Hw Ho). cbn [Py.bind].
      split; [exact Hrun | ]. rewrite Hsim. unfold step_after.
      cbn [simulated]. now rewrite <- app_assoc.
    + rewrite (grid_body_skip sim Wn Wp st Hw). cbn [Py.bind].
      split; [exact Hrun | exact Hsim].
Qed.

Lemma grid_search_simulated (Wns Wps : list float) :
  (forall Wn Wp, In Wn Wns -> In Wp Wps ->
     outside_window Wn Wp = Ok (negb (in_window (Wn, Wp)))) ->
  forall st, exists st',
    grid_search sim Wns Wps st = Ok st'
    /\ simulated st' = simulated st ++ filter in_window (grid Wns Wps).
Proof.
  unfold grid_search, grid.
  induction Wns as [ | Wn Wns IH]; intros Hwin st.
  - exists st. split; [reflexivity | ]. cbn. now rewrite app_nil_r.
  - cbn [for_each flat_map].
    destruct (inner_loop_simulated Wn Wps
                (fun Wp Hp => Hwin Wn Wp (or_introl eq_refl) Hp) st)
      as (st1 & Hrun1 & Hsim1).
    destruct (IH (fun a b Ha Hb => Hwin a b (or_intror Ha) Hb) st1)
      as (st' & Hrun & Hsim).
    exists st'. rewrite Hrun1. cbn [Py.bind]. split; [exact Hrun | ].
    rewrite Hsim, Hsim1, filter_app. now rewrite <- app_assoc.
Qed.

End Visited.

(** On the grid of the source the loop condition is the window test. *)
Lemma source_grid_window (Wn Wp : float) :
  In Wn Wn_values -> In Wp Wp_values ->
  outside_window Wn Wp = Ok (negb (in_window (Wn, Wp))).
Proof.
  unfold Wn_values, Wp_values. cbn [In].
  intros [<- | [<- | [<- | [] ] ] ] [<- | [<- | [<- | [] ] ] ];
    vm_compute; reflexivity.
Qed.

(** C8: over Wn in {1.0, 2.0, 3.0} and Wp in {3.0, 6.0, 9.0} the
    evaluator is called on exactly the pairs whose ratio Wp/Wn lies in
    [1.2, 4.5] ((1.0, 3.0) is evaluated, (3.0, 3.0) and (1.0, 9.0) are
    skipped); the incumbent changes only when a successful outcome has a
    strictly smaller delay, so the final incumbent is a successful
    candidate, no successful candidate is strictly faster, a failed
    outcome is never the incumbent, and when every evaluated candidate
    fails there is no best result. *)
Theorem grid_search_tracks_best_success (sim : evaluator) :
  total_evaluator sim -> grid_search_contract sim.
Proof.
  intros Htot. unfold grid_search_contract.
  destruct (grid_search_simulated sim Htot Wn_values Wp_values
              source_grid_window initial_search) as (st & Hrun & Hsim).
  assert (Hinv : incumbent_sound sim st /\ incumbent_minimal sim st).
  { eapply grid_search_preserves; [exact Hrun | ]. split.
    - split; [discriminate | reflexivity].
    - intros a b o []. }
  destruct Hinv as [Hsound Hmin].
  cbn [simulated initial_search app] in Hsim.
  exists st.
  split; [exact Hrun | ].
  split; [intros h; unfold optimize_with; cbn [negb]; now rewrite Hrun | ].
  split; [exact Hsim | ].
  split; [rewrite Hsim; vm_compute; reflexivity | ].
  split; [repeat apply conj; reflexivity | ].
  split; [intros Wn Wp o s; apply grid_body_step | ].
  split; [exact Hsound | ].
  split; [exact Hmin | ].
  intros Hfail.
  assert (Hnone : best_params st = None).
  { destruct (best_params st) as [ [ [a b] c] | ] eqn:Hbp; [ | reflexivity].
    destruct Hsound as [Hsome _].
    destruct (Hsome a b c Hbp) as (_ & Hin & o & Ho & Hok & _).
    rewrite (Hfail a b o Hin Ho) in Hok. discriminate. }
  split; [exact Hnone | ]. unfold report_of. now rewrite Hnone.
Qed.

Lemma grid_search_all_failures :
  total_evaluator (const_sim FAILURE) /\ grid_search_contract (const_sim FAILURE).
Proof.
  assert (H : total_evaluator (const_sim FAILURE)).
  { intros Wn Wp L. exists FAILURE. reflexivity. }
  split; [exact H | ].
  exact (grid_search_tracks_best_success (const_sim FAILURE) H).
Defined.

Example grid_search_all_failures_run :
  optimize_with true working_host (const_sim FAILURE)
  = Ok (NoSuccessfulSimulation,
        {| best_delay := 1e9; best_params := None;
           simulated := [(1.0, 3.0); (2.0, 3.0); (2.0, 6.0); (2.0, 9.0);
                         (3.0, 6.0); (3.0, 9.0)] |}).
Proof. vm_compute. reflexivity. Qed.

(* ================================================================== *)
(** * C10: an outcome made of sentinels only *)
(* ================================================================== *)

(** C10: a completed simulation whose log yields neither measurement is
    still a success with [delay_ns = 1000.0]; that is below the 1e6
    failure penalty; and in the grid search such an outcome replaces
    any incumbent whose delay is above 1000 ns, the initial one and a
    measured one alike. *)
Theorem sentinel_only_outcome_competes
    (world : float -> float -> float -> toolchain) (Wn Wp : float)
    (path : string) :
  simulation_completes (world Wn Wp L_val)
    (width_str Wn) (width_str Wp) (length_str L_val) path ->
  extract_measurements (world Wn Wp L_val) path = Ok (None, None) ->
  simulator true world Wn Wp L_val
  = Ok {| success := true; delay_ns := 1000.0;
          tphl := 1000.0; tplh := 1000.0 |}
  /\ Py.less 1000.0 (delay_ns FAILURE) = true
  /\ Py.less 1000.0 (best_delay initial_search) = true
  /\ (forall st,
        outside_window Wn Wp = Ok false ->
        Py.less 1000.0 (best_delay st) = true ->
        grid_body (simulator true world) Wn Wp st
        = Ok {| best_delay := 1000.0;
                best_params := Some (Wn, Wp, L_val);
                simulated := simulated st ++ [(Wn, Wp)] |}).
Proof.
  intros Hc He.
  assert (Hsim : simulator true world Wn Wp L_val
                 = Ok {| success := true; delay_ns := 1000.0;
                         tphl := 1000.0; tplh := 1000.0 |}).
  { unfold simulator.
    rewrite (completed_simulation _ Wn Wp L_val path Hc), He. reflexivity. }
  split; [exact Hsim | ].
  split; [reflexivity | ].
  split; [reflexivity | ].
  intros st Hw Hlt.
  rewrite (grid_body_step _ Wn Wp _ st Hw Hsim). unfold step_after.
  cbn [success delay_ns andb]. now rewrite Hlt.
Qed.

Lemma sentinel_only_outcome_competes_run :
  simulation_completes (one_measured_world 2.0 3.0 L_val)
    (width_str 2.0) (width_str 3.0) (length_str L_val) "sim.log" /\
  extract_measurements (one_measured_world 2.0 3.0 L_val) "sim.log"
  = Ok (None, None) /\
  (simulator true one_measured_world 2.0 3.0 L_val
   = Ok {| success := true; delay_ns := 1000.0;
           tphl := 1000.0; tplh := 1000.0 |}
   /\ Py.less 1000.0 (delay_ns FAILURE) = true
   /\ Py.less 1000.0 (best_delay initial_search) = true
   /\ (forall st,
         outside_window 2.0 3.0 = Ok false ->
         Py.less 1000.0 (best_delay st) = true ->
         grid_body (simulator true one_measured_world) 2.0 3.0 st
         = Ok {| best_delay := 1000.0;
                 best_params := Some (2.0, 3.0, L_val);
                 simulated := simulated st ++ [(2.0, 3.0)] |})).
Proof.
  assert (Hc : simulation_completes (one_measured_world 2.0 3.0 L_val)
                 (width_str 2.0) (width_str 3.0) (length_str L_val) "sim.log").
  { eapply working_toolchain_completes. reflexivity. }
  assert (He : extract_measurements (one_measured_world 2.0 3.0 L_val) "sim.log"
               = Ok (None, None)) by reflexivity.
  split; [exact Hc | split; [exact He | ] ].
  exact (sentinel_only_outcome_competes one_measured_world 2.0 3.0
           "sim.log" Hc He).
Defined.

(** A whole run: the first candidate is measured at 2000 ns, the logs of
    the others hold no measurement; the second candidate, all sentinel,
    takes the incumbent's place. *)
Example sentinel_displaces_measurement :
  simulator true one_measured_world 1.0 3.0 L_val
  = Ok {| success := true; delay_ns := 2000.0;
          tphl := 2000.0; tplh := 2000.0 |}
  /\ optimize_with_simulator true working_host one_measured_world
     = Ok (BestSolution (2.0, 3.0, L_val) 1000.0,
           {| best_delay := 1000.0;
              best_params := Some (2.0, 3.0, L_val);
              simulated := [(1.0, 3.0); (2.0, 3.0); (2.0, 6.0); (2.0, 9.0);
                            (3.0, 6.0); (3.0, 9.0)] |}).
Proof. split; vm_compute; reflexivity. Qed.

(* ================================================================== *)
(** * The sign of a difference of doubles *)
(* ================================================================== *)

Section Sign.
Local Open Scope Z_scope.

(** What validity says of a finite double. *)
Lemma valid_finite (s : bool) (m : positive) (e : Z) :
  valid_binary (S754_finite s m e) = true ->
  -1074 <= e /\ Zpos m < 2 ^ 53 /\ (-1074 < e -> 2 ^ 52 <= Zpos m).
Proof.
  cbn [valid_binary]. unfold bounded, canonical_mantissa. intros H.
  apply andb_prop in H. destruct H as [Hc _]. apply Z.eqb_eq in Hc.
  unfold fexp, SpecFloat.emin, prec, emax in Hc.
  pose proof (digits2_bounds m) as [Blo Bhi].
  assert (Hd : Zpos (digits2_pos m) <= 53) by lia.
  repeat apply conj.
  - lia.
  - assert (2 ^ Zpos (digits2_pos m) <= 2 ^ 53) by (apply Z.pow_le_mono_r; lia).
    lia.
  - intros He. replace (Zpos (digits2_pos m)) with 53 in Blo by lia. exact Blo.
Qed.

(** Shifting a mantissa to its canonical exponent, from an exponent
    that is not below the smallest one, never empties it. *)
Lemma shr_fexp_positive (m : positive) (e : Z) (l : location) :
  -1074 <= e ->
  exists mrs e',
    shr_fexp prec emax (Zpos m) e l = (mrs, e')
    /\ 1 <= shr_m mrs /\ -1074 <= e'.
Proof.
  intros He. unfold shr_fexp, fexp, SpecFloat.emin, prec, emax.
  cbn [Zdigits2]. replace (3 - 1024 - 53) with (-1074) by reflexivity.
  destruct (Z.max (Zpos (digits2_pos m) + e - 53) (-1074) - e)
    as [ | p | p ] eqn:Hn; cbn [shr].
  - do 2 eexists. split; [reflexivity | ].
    rewrite shr_record_of_loc_m. lia.
  - do 2 eexists. split; [reflexivity | ].
    rewrite iter_shr_1_m; rewrite shr_record_of_loc_m; [ | lia].
    assert (Hp : Zpos p = Zpos (digits2_pos m) - 53) by lia.
    rewrite Hp.
    pose proof (normalised_quotient (Zpos m) (Zpos (digits2_pos m))
                  ltac:(lia) (digits2_bounds m)) as [Hq _].
    split; [ | lia].
    assert (1 <= 2 ^ 52) by (apply (Z.pow_le_mono_r 2 0 52); lia). lia.
  - do 2 eexists. split; [reflexivity | ].
    rewrite shr_record_of_loc_m. lia.
Qed.

(** Rounding a non-zero magnitude gives a non-zero number of the same
    sign, finite or infinite. *)
Lemma binary_round_aux_signed (s : bool) (m : positive) (e : Z) (l : location) :
  -1074 <= e ->
  (exists m' e', binary_round_aux prec emax s (Zpos m) e l = S754_finite s m' e')
  \/ binary_round_aux prec emax s (Zpos m) e l = S754_infinity s.
Proof.
  intros He. unfold binary_round_aux.
  destruct (shr_fexp_positive m e l He) as (mrs & e1 & -> & Hm & He1).
  pose proof (round_nearest_even_bounds (shr_m mrs) (loc_of_shr_record mrs)) as HR.
  destruct (round_nearest_even (shr_m mrs) (loc_of_shr_record mrs)) as [ | q | q ];
    try lia.
  destruct (shr_fexp_positive q e1 loc_Exact He1) as (mrs2 & e2 & -> & Hm2 & He2).
  destruct (shr_m mrs2) as [ | q2 | q2 ]; try lia.
  destruct (e2 <=? emax - prec); [left; eauto | right; reflexivity].
Qed.

Lemma binary_round_signed (s : bool) (m : positive) (e : Z) :
  -1074 <= e ->
  (exists m' e', binary_round prec emax s m e = S754_finite s m' e')
  \/ binary_round prec emax s m e = S754_infinity s.
Proof.
  intros He. unfold binary_round, shl_align.
  destruct (fexp prec emax (Zpos (digits2_pos m) + e) - e) eqn:Hn;
    apply binary_round_aux_signed; try assumption.
  unfold fexp, SpecFloat.emin, prec, emax. lia.
Qed.

(** The comparisons of a normalised integer with zero are those of the
    integer. *)
Lemma binary_normalize_nonneg (d e : Z) :
  -1074 <= e ->
  SFleb (S754_zero false) (binary_normalize prec emax d e false) = (0 <=? d).
Proof.
  intros He. destruct d as [ | p | p ]; cbn [binary_normalize].
  - reflexivity.
  - destruct (binary_round_signed false p e He) as [(m' & e' & ->) | ->];
      reflexivity.
  - destruct (binary_round_signed true p e He) as [(m' & e' & ->) | ->];
      reflexivity.
Qed.

Lemma binary_normalize_neg (d e : Z) :
  -1074 <= e ->
  SFltb (binary_normalize prec emax d e false) (S754_zero false) = (d <? 0).
Proof.
  intros He. destruct d as [ | p | p ]; cbn [binary_normalize].
  - reflexivity.
  - destruct (binary_round_signed false p e He) as [(m' & e' & ->) | ->];
      reflexivity.
  - destruct (binary_round_signed true p e He) as [(m' & e' & ->) | ->];
      reflexivity.
Qed.

(** On valid doubles the lexicographic comparison of (exponent,
    mantissa) is the comparison of the aligned mantissas. *)
Lemma aligned_compare (sx sy : bool) (mx my : positive) (ex ey : Z) :
  valid_binary (S754_finite sx mx ex) = true ->
  valid_binary (S754_finite sy my ey) = true ->
  match ex ?= ey with
  | Lt => Lt
  | Gt => Gt
  | Eq => (mx ?= my)%positive
  end
  = (Zpos (fst (shl_align mx ex (Z.min ex ey)))
     ?= Zpos (fst (shl_align my ey (Z.min ex ey)))).
Proof.
  intros Hx Hy.
  apply valid_finite in Hx, Hy.
  destruct Hx as (Hex & Hmx & Hnx). destruct Hy as (Hey & Hmy & Hny).
  rewrite (shl_align_fst mx ex (Z.min ex ey)) by lia.
  rewrite (shl_align_fst my ey (Z.min ex ey)) by lia.
  destruct (Z.compare_spec ex ey) as [Heq | Hlt | Hgt].
  - subst ey. rewrite Z.min_id, Z.sub_diag, !Z.mul_1_r. reflexivity.
  - rewrite Z.min_l by lia. rewrite Z.sub_diag, Z.mul_1_r.
    symmetry. apply Z.compare_lt_iff.
    assert (2 <= 2 ^ (ey - ex)) by (apply (Z.pow_le_mono_r 2 1); lia).
    specialize (Hny ltac:(lia)). nia.
  - rewrite Z.min_r by lia. rewrite Z.sub_diag, Z.mul_1_r.
    symmetry. apply Z.compare_gt_iff.
    assert (2 <= 2 ^ (ex - ey)) by (apply (Z.pow_le_mono_r 2 1); lia).
    specialize (Hnx ltac:(lia)). nia.
Qed.

Lemma compare_opp_lex (c z : comparison) :
  match c with Lt => Gt | Gt => Lt | Eq => CompOpp z end
  = CompOpp (match c with Lt => Lt | Gt => Gt | Eq => z end).
Proof. destruct c; reflexivity. Qed.

(** Finite minus finite: the difference is non-negative exactly when
    the subtrahend is at most the minuend, and negative exactly when
    the minuend is below the subtrahend. *)
Lemma SFsub_finite_sign (sx sy : bool) (mx my : positive) (ex ey : Z) :
  valid_binary (S754_finite sx mx ex) = true ->
  valid_binary (S754_finite sy my ey) = true ->
  SFleb (S754_zero false)
        (SF64sub (S754_finite sx mx ex) (S754_finite sy my ey))
  = SFleb (S754_finite sy my ey) (S754_finite sx mx ex)
  /\ SFltb (SF64sub (S754_finite sx mx ex) (S754_finite sy my ey))
           (S754_zero false)
     = SFltb (S754_finite sx mx ex) (S754_finite sy my ey).
Proof.
  intros Hx Hy.
  pose proof (aligned_compare sx sy mx my ex ey Hx Hy) as Hxy.
  pose proof (aligned_compare sy sx my mx ey ex Hy Hx) as Hyx.
  rewrite (Z.min_comm ey ex) in Hyx.
  pose proof (valid_finite _ _ _ Hx) as (Hex & _).
  pose proof (valid_finite _ _ _ Hy) as (Hey & _).
  unfold SF64sub, SFsub.
  rewrite binary_normalize_nonneg, binary_normalize_neg by lia.
  set (A := Zpos (fst (shl_align mx ex (Z.min ex ey)))) in *.
  set (B := Zpos (fst (shl_align my ey (Z.min ex ey)))) in *.
  assert (HA : 0 < A) by (unfold A; lia).
  assert (HB : 0 < B) by (unfold B; lia).
  unfold SFleb, SFltb, SFcompare.
  change (PosDef.Pos.compare_cont Eq) with Pos.compare.
  destruct sx, sy; cbn [cond_Zopp];
    rewrite ?compare_opp_lex, ?Hxy, ?Hyx.
  - destruct (Z.compare_spec A B), (Z.compare_spec B A); cbn [CompOpp];
      try lia; split;
      try (apply Z.leb_le; lia); try (apply Z.leb_gt; lia);
      try (apply Z.ltb_lt; lia); try (apply Z.ltb_ge; lia).
  - split; [apply Z.leb_gt; lia | apply Z.ltb_lt; lia].
  - split; [apply Z.leb_le; lia | apply Z.ltb_ge; lia].
  - destruct (Z.compare_spec A B), (Z.compare_spec B A);
      try lia; split;
      try (apply Z.leb_le; lia); try (apply Z.leb_gt; lia);
      try (apply Z.ltb_lt; lia); try (apply Z.ltb_ge; lia).
Qed.

End Sign.

(** Subtracting a finite non-zero double [c]: the sign of [x - c] and
    of [c - x] is read off the comparison of [x] with [c], for every
    double [x], infinities and NaN included. *)
Lemma sub_sign_left (x c : float) (s : bool) (m : positive) (e : Z) :
  Prim2SF c = S754_finite s m e ->
  (0 <=? x - c) = (c <=? x) /\ (x - c <? 0) = (x <? c).
Proof.
  intros Hc. rewrite !leb_spec, !ltb_spec, sub_spec, Hc.
  change (Prim2SF 0) with (S754_zero false).
  pose proof (Prim2SF_valid x) as Hx. pose proof (Prim2SF_valid c) as Hv.
  rewrite Hc in Hv.
  destruct (Prim2SF x) as [sx | sx | | sx mx ex].
  - destruct sx, s; split; reflexivity.
  - destruct sx, s; split; reflexivity.
  - split; reflexivity.
  - apply SFsub_finite_sign; assumption.
Qed.

Lemma sub_sign_right (x c : float) (s : bool) (m : positive) (e : Z) :
  Prim2SF c = S754_finite s m e ->
  (0 <=? c - x) = (x <=? c) /\ (c - x <? 0) = (c <? x).
Proof.
  intros Hc. rewrite !leb_spec, !ltb_spec, sub_spec, Hc.
  change (Prim2SF 0) with (S754_zero false).
  pose proof (Prim2SF_valid x) as Hx. pose proof (Prim2SF_valid c) as Hv.
  rewrite Hc in Hv.
  destruct (Prim2SF x) as [sx | sx | | sx mx ex].
  - destruct sx, s; split; reflexivity.
  - destruct sx, s; split; reflexivity.
  - split; reflexivity.
  - apply SFsub_finite_sign; assumption.
Qed.

(* ================================================================== *)
(** * Rounding to nearest is monotone *)
(* ================================================================== *)

Section Nearest.
Local Open Scope Z_scope.

Lemma locn_exact (N D : Z) : N mod D = 0 -> locn N D = loc_Exact.
Proof. intros H. unfold locn. now rewrite H. Qed.

Lemma locn_inexact (N D : Z) (c : comparison) :
  N mod D <> 0 -> (2 * (N mod D) ?= D) = c -> locn N D = loc_Inexact c.
Proof.
  intros H Hc. unfold locn.
  destruct (Z.eqb_spec (N mod D) 0); [contradiction | now rewrite Hc].
Qed.

Lemma halved_remainder (N D : Z) :
  0 < D -> N mod (D * 2) = N mod D + D * ((N / D) mod 2)
           /\ N / (D * 2) = N / D / 2.
Proof.
  intros HD.
  pose proof (Z.div_mod N D ltac:(lia)) as H1.
  pose proof (Z.mod_pos_bound N D HD) as H2.
  pose proof (Z.div_mod (N / D) 2 ltac:(lia)) as H3.
  pose proof (Z.mod_pos_bound (N / D) 2 ltac:(lia)) as H4.
  assert (E : N = D * 2 * (N / D / 2) + (N mod D + D * ((N / D) mod 2))) by nia.
  split.
  - symmetry. apply Z.mod_unique_pos with (q := N / D / 2); [nia | exact E].
  - symmetry. apply Z.div_unique_pos with (r := N mod D + D * ((N / D) mod 2));
      [nia | exact E].
Qed.

Ltac decide_location :=
  first [ apply locn_exact; lia
        | apply locn_inexact;
          [lia | first [apply Z.compare_lt_iff | apply Z.compare_eq_iff
                       | apply Z.compare_gt_iff]; lia] ].

(** One right shift keeps the record in step with the fraction. *)
Lemma shr_1_tracks (N D : Z) (mrs : shr_record) :
  0 < D -> 0 <= N -> tracks N D mrs -> tracks N (D * 2) (shr_1 mrs).
Proof.
  intros HD HN [Hm Hl].
  destruct (halved_remainder N D HD) as [Hr Hq].
  pose proof (Z.mod_pos_bound N D HD) as Hb.
  assert (H0 : 0 <= N / D) by (apply Z.div_pos; lia).
  pose proof (Zmod_odd (N / D)) as Hodd.
  split.
  - rewrite shr_1_m by lia. rewrite Hm. symmetry. exact Hq.
  - destruct mrs as [m r s]. cbn [shr_m] in Hm. subst m.
    assert (Hs : (N mod D = 0 /\ r = false /\ s = false)
                 \/ (N mod D <> 0 /\ orb r s = true)).
    { unfold locn in Hl. destruct (Z.eqb_spec (N mod D) 0).
      - left. destruct r, s; cbn in Hl; try discriminate. auto.
      - right. split; [assumption | ]. destruct r, s; cbn in Hl; try discriminate;
          reflexivity. }
    clear Hl. symmetry.
    destruct (N / D) as [ | [p | p | ] | p ]; try lia; cbn [Z.odd] in Hodd;
      cbn [shr_1 loc_of_shr_record];
      destruct Hs as [(Hz & -> & ->) | (Hz & ->)]; cbn [orb];
      decide_location.
Qed.

Lemma iter_shr_1_tracks (p : positive) : forall N D mrs,
  0 < D -> 0 <= N -> tracks N D mrs ->
  tracks N (D * 2 ^ Zpos p) (iter_pos shr_1 p mrs).
Proof.
  induction p as [p IH | p IH | ]; intros N D mrs HD HN H; cbn [iter_pos].
  - assert (Ht : 0 < 2 ^ Zpos p) by (apply Z.pow_pos_nonneg; lia).
    replace (D * 2 ^ Zpos p~1) with (D * 2 * 2 ^ Zpos p * 2 ^ Zpos p).
    + apply IH; [nia | assumption | ]. apply IH; [lia | assumption | ].
      apply shr_1_tracks; assumption.
    + replace (Zpos p~1) with (1 + Zpos p + Zpos p) by lia.
      rewrite !Z.pow_add_r by lia. change (2 ^ 1) with 2. ring.
  - assert (Ht : 0 < 2 ^ Zpos p) by (apply Z.pow_pos_nonneg; lia).
    replace (D * 2 ^ Zpos p~0) with (D * 2 ^ Zpos p * 2 ^ Zpos p).
    + apply IH; [nia | assumption | ]. apply IH; assumption.
    + replace (Zpos p~0) with (Zpos p + Zpos p) by lia.
      rewrite !Z.pow_add_r by lia. ring.
  - change (2 ^ 1) with 2. apply shr_1_tracks; assumption.
Qed.

Lemma record_of_location (m : Z) (l : location) :
  loc_of_shr_record (shr_record_of_loc m l) = l.
Proof. destruct l as [ | [ | | ] ]; reflexivity. Qed.

(** The shift that brings a long mantissa back to 53 bits. *)
Lemma shr_fexp_tracks (N D : Z) (m : positive) (e : Z) :
  0 < D -> 0 <= N -> Zpos m = N / D ->
  53 <= Zpos (digits2_pos m) ->
  -1074 <= e + Zpos (digits2_pos m) - 53 ->
  exists mrs,
    shr_fexp prec emax (Zpos m) e (locn N D)
    = (mrs, e + Zpos (digits2_pos m) - 53)
    /\ tracks N (D * 2 ^ (Zpos (digits2_pos m) - 53)) mrs.
Proof.
  intros HD HN Hm Hd He. unfold shr_fexp, fexp, SpecFloat.emin, prec, emax.
  cbn [Zdigits2].
  replace (3 - 1024 - 53) with (-1074) by reflexivity.
  rewrite Z.max_l by lia.
  replace (Zpos (digits2_pos m) + e - 53 - e) with (Zpos (digits2_pos m) - 53) by lia.
  assert (H0 : tracks N D (shr_record_of_loc (Zpos m) (locn N D))).
  { split; [rewrite shr_record_of_loc_m; exact Hm | apply record_of_location]. }
  destruct (Zpos (digits2_pos m) - 53) as [ | p | p ] eqn:Hn; cbn [shr].
  - eexists; split; [f_equal; lia | ]. now rewrite Z.mul_1_r.
  - eexists; split; [f_equal; lia | ]. now apply iter_shr_1_tracks.
  - lia.
Qed.

End Nearest.

Section Monotone.
Local Open Scope Z_scope.

Lemma rne_bounds (N D : Z) : N / D <= rne N D <= N / D + 1.
Proof. apply round_nearest_even_bounds. Qed.

(** Rounding to nearest, ties to even, is monotone on fractions. *)
Lemma rne_mono (N D N' D' : Z) :
  0 < D -> 0 < D' -> N * D' <= N' * D -> rne N D <= rne N' D'.
Proof.
  intros HD HD' Hle.
  pose proof (Z.div_mod N D ltac:(lia)) as E1.
  pose proof (Z.mod_pos_bound N D HD) as B1.
  pose proof (Z.div_mod N' D' ltac:(lia)) as E2.
  pose proof (Z.mod_pos_bound N' D' HD') as B2.
  pose proof (rne_bounds N D) as R1. pose proof (rne_bounds N' D') as R2.
  assert (Hq : N / D <= N' / D').
  { destruct (Z_le_gt_dec (N / D) (N' / D')) as [ | Hc]; [assumption | exfalso].
    assert (D * D' * (N' / D' + 1) <= D * D' * (N / D)) by (apply Z.mul_le_mono_nonneg_l; nia).
    nia. }
  destruct (Z.eq_dec (N / D) (N' / D')) as [Heq | Hne]; [ | lia].
  assert (Hr : (N mod D) * D' <= (N' mod D') * D) by nia.
  clear R1 R2 Hq. unfold rne, locn. rewrite <- Heq.
  set (q := N / D) in *. set (r := N mod D) in *. set (r' := N' mod D') in *.
  clearbody q r r'. clear E1 E2 Heq Hle.
  destruct (Z.eqb_spec r 0) as [-> | Hr0]; cbn [round_nearest_even].
  - apply round_nearest_even_bounds.
  - destruct (Z.eqb_spec r' 0) as [-> | Hr0']; [nia | ].
    destruct (Z.compare_spec (2 * r) D) as [H1 | H1 | H1];
      destruct (Z.compare_spec (2 * r') D') as [H2 | H2 | H2];
      cbn [round_nearest_even]; try destruct (Z.even q); try lia; exfalso; nia.
Qed.

Lemma norm53_cases (R F : Z) :
  2 ^ 52 <= R <= 2 ^ 53 ->
  (R < 2 ^ 53 /\ norm53 R F = (R, F))
  \/ (R = 2 ^ 53 /\ norm53 R F = (2 ^ 52, F + 1)).
Proof.
  intros H. unfold norm53. destruct (Z.ltb_spec R (2 ^ 53)); [left | right];
    split; try reflexivity; lia.
Qed.

(** The fraction behind a quotient of at least 53 bits, once shifted to
    53 bits. *)
Lemma shifted_fraction (N D : Z) :
  0 < D -> 0 < N / D -> 53 <= Zdigits2 (N / D) ->
  let Dn := D * 2 ^ (Zdigits2 (N / D) - 53) in
  0 < Dn /\ 2 ^ 52 * Dn <= N < 2 ^ 53 * Dn
  /\ 2 ^ 52 <= rne N Dn <= 2 ^ 53.
Proof.
  intros HD Hq Hd Dn.
  assert (Ht : 0 < 2 ^ (Zdigits2 (N / D) - 53)) by (apply Z.pow_pos_nonneg; lia).
  assert (HDn : 0 < Dn) by (unfold Dn; nia).
  assert (HM : 2 ^ 52 <= N / Dn < 2 ^ 53).
  { unfold Dn. rewrite <- Z.div_div by lia.
    destruct (N / D) as [ | p | p ] eqn:Hp; try lia.
    apply normalised_quotient; [exact Hd | apply digits2_bounds]. }
  pose proof (Z.div_mod N Dn ltac:(lia)) as E1.
  pose proof (Z.mod_pos_bound N Dn HDn) as B1.
  pose proof (rne_bounds N Dn) as R1.
  repeat apply conj; try lia; nia.
Qed.

(** What [binary_round_aux] computes when neither underflow nor
    overflow is in reach. *)
Lemma binary_round_aux_round53 (s : bool) (N D : Z) (m : positive) (e : Z) :
  0 < D -> 0 <= N -> Zpos m = N / D ->
  53 <= Zpos (digits2_pos m) ->
  -1074 <= e + Zpos (digits2_pos m) - 53 ->
  e + Zpos (digits2_pos m) - 52 <= 971 ->
  exists m',
    binary_round_aux prec emax s (Zpos m) e (locn N D)
    = S754_finite s m' (snd (round53 N D e))
    /\ Zpos m' = fst (round53 N D e).
Proof.
  intros HD HN Hm Hd Hlo Hhi. unfold binary_round_aux.
  destruct (shr_fexp_tracks N D m e HD HN Hm Hd Hlo) as (mrs & -> & Hq & Hl).
  rewrite Hq, Hl. fold (rne N (D * 2 ^ (Zpos (digits2_pos m) - 53))).
  unfold round53. rewrite <- Hm. cbn [Zdigits2].
  destruct (shifted_fraction N D HD) as (HDn & HNn & HR);
    [rewrite <- Hm; lia | rewrite <- Hm; exact Hd | ].
  rewrite <- Hm in HDn, HNn, HR. cbn [Zdigits2] in HDn, HNn, HR.
  set (n := Zpos (digits2_pos m) - 53) in *.
  set (R := rne N (D * 2 ^ n)) in *. clearbody R.
  destruct R as [ | q | q ]; try lia.
  assert (Hdq : 53 <= Zpos (digits2_pos q) <= 54).
  { change 53 with (52 + 1) at 1. apply digits2_range; lia. }
  replace (e + Zpos (digits2_pos m) - 53) with (e + n) by (unfold n; lia).
  destruct (shr_fexp_normal q (e + n) loc_Exact) as (mrs2 & -> & Hm2);
    try (unfold n; lia).
  destruct (norm53_cases (Zpos q) (e + n) HR) as [(Hlt & ->) | (Heq & ->)];
    cbn [fst snd].
  - assert (Hd53 : Zpos (digits2_pos q) = 53) by (apply digits2_unique; lia).
    rewrite Hd53 in *. replace (53 - 53) with 0 in Hm2 by lia.
    rewrite Z.div_1_r in Hm2. rewrite Hm2.
    unfold prec, emax.
    replace (_ <=? 1024 - 53) with true by (symmetry; apply Z.leb_le; unfold n; lia).
    exists q. split; [f_equal; lia | reflexivity].
  - assert (Hd54 : Zpos (digits2_pos q) = 54) by (apply digits2_unique; lia).
    rewrite Hd54 in *. rewrite Heq in Hm2.
    replace (2 ^ 53 / 2 ^ (54 - 53)) with 4503599627370496 in Hm2 by reflexivity.
    rewrite Hm2.
    unfold prec, emax.
    replace (_ <=? 1024 - 53) with true by (symmetry; apply Z.leb_le; unfold n; lia).
    exists 4503599627370496%positive. split; [f_equal; lia | reflexivity].
Qed.

(** The rounded results of two fractions are ordered as the fractions
    are. *)
Lemma round53_mono (N D E N' D' E' a a' : Z) :
  0 < D -> 0 < D' -> 0 < N / D -> 0 < N' / D' ->
  53 <= Zdigits2 (N / D) -> 53 <= Zdigits2 (N' / D') ->
  0 <= a -> 0 <= a' -> E - a = E' - a' ->
  N * 2 ^ a * D' <= N' * 2 ^ a' * D ->
  lexle (round53 N D E) (round53 N' D' E').
Proof.
  intros HD HD' Hq Hq' Hd Hd' Ha Ha' HE Hle.
  destruct (shifted_fraction N D HD Hq Hd) as (HDn & HN & HR).
  destruct (shifted_fraction N' D' HD' Hq' Hd') as (HDn' & HN' & HR').
  unfold round53.
  set (n := Zdigits2 (N / D) - 53) in *. set (n' := Zdigits2 (N' / D') - 53) in *.
  set (Dn := D * 2 ^ n) in *. set (Dn' := D' * 2 ^ n') in *.
  assert (Hs : N * 2 ^ (a + n) * Dn' <= N' * 2 ^ (a' + n') * Dn).
  { unfold Dn, Dn'. rewrite !Z.pow_add_r by lia.
    assert (0 < 2 ^ n) by (apply Z.pow_pos_nonneg; lia).
    assert (0 < 2 ^ n') by (apply Z.pow_pos_nonneg; lia).
    replace (N * (2 ^ a * 2 ^ n) * (D' * 2 ^ n'))
      with (N * 2 ^ a * D' * (2 ^ n * 2 ^ n')) by ring.
    replace (N' * (2 ^ a' * 2 ^ n') * (D * 2 ^ n))
      with (N' * 2 ^ a' * D * (2 ^ n * 2 ^ n')) by ring.
    apply Z.mul_le_mono_nonneg_r; nia. }
  assert (HF : (E + n) - (a + n) = (E' + n') - (a' + n')) by lia.
  set (b := a + n) in *. set (b' := a' + n') in *.
  assert (Hb : 0 <= b) by (unfold b; lia). assert (Hb' : 0 <= b') by (unfold b'; lia).
  set (F := E + n) in *. set (F' := E' + n') in *.
  clearbody F F' b b' Dn Dn'. clear Hle HE.
  remember (rne N Dn) as R eqn:ER. remember (rne N' Dn') as R' eqn:ER'.
  assert (Hp' : 0 < 2 ^ b') by (apply Z.pow_pos_nonneg; lia).
  destruct (Z.lt_trichotomy b b') as [Hlt | [Heq | Hgt]].
  - (* smaller exponent *)
    unfold lexle.
    destruct (norm53_cases R F HR) as [(H1 & ->) | (H1 & ->)];
      destruct (norm53_cases R' F' HR') as [(H2 & ->) | (H2 & ->)];
      cbn [fst snd]; lia.
  - (* same exponent *)
    subst b'. assert (HRR : R <= R').
    { subst R R'. apply rne_mono; try assumption.
      apply Z.mul_le_mono_pos_r with (p := 2 ^ b); [assumption | ].
      replace (N * Dn' * 2 ^ b) with (N * 2 ^ b * Dn') by ring.
      replace (N' * Dn * 2 ^ b) with (N' * 2 ^ b * Dn) by ring. exact Hs. }
    unfold lexle.
    destruct (norm53_cases R F HR) as [(H1 & ->) | (H1 & ->)];
      destruct (norm53_cases R' F' HR') as [(H2 & ->) | (H2 & ->)];
      cbn [fst snd]; lia.
  - (* a larger exponent contradicts the order of the fractions *)
    exfalso.
    assert (H2 : 2 * 2 ^ b' <= 2 ^ b).
    { replace b with (1 + (b - 1)) by lia. rewrite Z.pow_add_r by lia.
      change (2 ^ 1) with 2. apply Z.mul_le_mono_nonneg_l; [lia | ].
      apply Z.pow_le_mono_r; lia. }
    assert (H3 : 2 ^ 52 * Dn * (2 * 2 ^ b') * Dn' <= N * 2 ^ b * Dn').
    { apply Z.mul_le_mono_nonneg_r; [lia | ].
      apply Z.mul_le_mono_nonneg; nia. }
    assert (H4 : N' * 2 ^ b' * Dn < 2 ^ 53 * Dn' * 2 ^ b' * Dn).
    { apply Z.mul_lt_mono_pos_r; [assumption | ].
      apply Z.mul_lt_mono_pos_r; [assumption | lia]. }
    replace (2 ^ 52 * Dn * (2 * 2 ^ b') * Dn') with (2 ^ 53 * Dn' * 2 ^ b' * Dn) in H3.
    + lia.
    + change (2 ^ 53) with (2 ^ 52 * 2). ring.
Qed.

End Monotone.

Section Ordered.
Local Open Scope Z_scope.

Lemma normal_leb (mx mx' : positive) (ex ex' : Z) :
  SFleb (S754_finite false mx ex) (S754_finite false mx' ex') = true
  <-> lexle (Zpos mx, ex) (Zpos mx', ex').
Proof.
  unfold SFleb, SFcompare, lexle. cbn [fst snd].
  change (PosDef.Pos.compare_cont Eq) with Pos.compare.
  destruct (Z.compare_spec ex ex') as [He | He | He].
  - destruct (Pos.compare_spec mx mx') as [Hm | Hm | Hm]; split; intros H;
      try reflexivity; try discriminate; try lia.
  - split; intros H; [lia | reflexivity].
  - split; intros H; [discriminate | lia].
Qed.

(** The order of two normal doubles is the order of their values. *)
Lemma lexle_value (mx mx' : positive) (ex ex' g : Z) :
  digits2_pos mx = 53%positive -> digits2_pos mx' = 53%positive ->
  lexle (Zpos mx, ex) (Zpos mx', ex') -> g <= ex -> g <= ex' ->
  Zpos mx * 2 ^ (ex - g) <= Zpos mx' * 2 ^ (ex' - g).
Proof.
  intros Hd Hd' H Hg Hg'. apply mantissa53 in Hd, Hd'.
  assert (Hp : 0 < 2 ^ (ex - g)) by (apply Z.pow_pos_nonneg; lia).
  destruct H as [Hlt | [Heq Hle] ]; cbn [fst snd] in *.
  - assert (H2 : 2 * 2 ^ (ex - g) <= 2 ^ (ex' - g)).
    { replace (ex' - g) with (1 + (ex' - g - 1)) by lia. rewrite Z.pow_add_r by lia.
      change (2 ^ 1) with 2. apply Z.mul_le_mono_nonneg_l; [lia | ].
      apply Z.pow_le_mono_r; lia. }
    assert (Zpos mx * 2 ^ (ex - g) <= 2 ^ 53 * 2 ^ (ex - g)) by nia.
    assert (2 ^ 52 * (2 * 2 ^ (ex - g)) <= Zpos mx' * 2 ^ (ex' - g))
      by (apply Z.mul_le_mono_nonneg; lia).
    change (2 ^ 53) with (2 ^ 52 * 2) in *. lia.
  - rewrite <- Heq. apply Z.mul_le_mono_nonneg_r; lia.
Qed.

(** Two roundings away from underflow and overflow are ordered as the
    fractions they round. *)
Lemma binary_round_aux_mono (N D N' D' : Z) (m m' : positive) (e e' a a' : Z) :
  0 < D -> 0 <= N -> Zpos m = N / D ->
  53 <= Zpos (digits2_pos m) ->
  -1074 <= e + Zpos (digits2_pos m) - 53 ->
  e + Zpos (digits2_pos m) - 52 <= 971 ->
  0 < D' -> 0 <= N' -> Zpos m' = N' / D' ->
  53 <= Zpos (digits2_pos m') ->
  -1074 <= e' + Zpos (digits2_pos m') - 53 ->
  e' + Zpos (digits2_pos m') - 52 <= 971 ->
  0 <= a -> 0 <= a' -> e - a = e' - a' ->
  N * 2 ^ a * D' <= N' * 2 ^ a' * D ->
  SFleb (binary_round_aux prec emax false (Zpos m) e (locn N D))
        (binary_round_aux prec emax false (Zpos m') e' (locn N' D')) = true.
Proof.
  intros HD HN Hm Hd Hlo Hhi HD' HN' Hm' Hd' Hlo' Hhi' Ha Ha' He Hle.
  destruct (binary_round_aux_round53 false N D m e) as (r & -> & Hr); try assumption.
  destruct (binary_round_aux_round53 false N' D' m' e') as (r' & -> & Hr');
    try assumption.
  apply normal_leb. rewrite Hr, Hr'.
  replace (fst (round53 N D e), snd (round53 N D e)) with (round53 N D e)
    by (destruct (round53 N D e); reflexivity).
  replace (fst (round53 N' D' e'), snd (round53 N' D' e')) with (round53 N' D' e')
    by (destruct (round53 N' D' e'); reflexivity).
  apply (round53_mono N D e N' D' e' a a'); try assumption;
    try (rewrite <- Hm; cbn [Zdigits2]; lia);
    try (rewrite <- Hm'; cbn [Zdigits2]; lia).
Qed.

Lemma exact_location (N : Z) : loc_Exact = locn N 1.
Proof. symmetry. apply locn_exact. apply Z.mod_1_r. Qed.

Lemma product_digits (mx my : positive) :
  digits2_pos mx = 53%positive -> digits2_pos my = 53%positive ->
  105 <= Zpos (digits2_pos (mx * my)) <= 106.
Proof.
  intros Hdx Hdy. apply mantissa53 in Hdx, Hdy.
  change 105 with (104 + 1).
  apply digits2_range; [lia | ]. rewrite Pos2Z.inj_mul.
  change (2 ^ 104) with (2 ^ 52 * 2 ^ 52). change (2 ^ 106) with (2 ^ 53 * 2 ^ 53).
  split; [apply Z.mul_le_mono_nonneg | apply Z.mul_lt_mono_nonneg]; lia.
Qed.

(** Multiplication by a positive normal double is monotone. *)
Lemma SFmul_mono (a b c d : Z) (x x' y : spec_float) :
  sf_normal a b x -> sf_normal a b x' -> sf_normal c d y ->
  -1022 <= a + c -> b + d + 2 <= 1023 ->
  SFleb x x' = true -> SFleb (SF64mul x y) (SF64mul x' y) = true.
Proof.
  intros (mx & ex & -> & Hdx & Hex) (mx' & ex' & -> & Hdx' & Hex')
         (my & ey & -> & Hdy & Hey) Hlo Hhi Hle.
  apply normal_leb in Hle.
  pose proof (lexle_value mx mx' ex ex' (Z.min ex ex') Hdx Hdx' Hle
                (Z.le_min_l _ _) (Z.le_min_r _ _)) as Hv.
  pose proof (product_digits mx my Hdx Hdy) as HD.
  pose proof (product_digits mx' my Hdx' Hdy) as HD'.
  unfold SF64mul, SFmul. cbn [xorb].
  rewrite (exact_location (Zpos (mx * my))) at 1.
  rewrite (exact_location (Zpos (mx' * my))).
  apply (binary_round_aux_mono _ 1 _ 1 _ _ _ _
           (ex - Z.min ex ex') (ex' - Z.min ex ex'));
    try rewrite Z.div_1_r; try reflexivity; try lia.
  rewrite !Pos2Z.inj_mul, !Z.mul_1_r.
  replace (Zpos mx * Zpos my * 2 ^ (ex - Z.min ex ex'))
    with (Zpos mx * 2 ^ (ex - Z.min ex ex') * Zpos my) by ring.
  replace (Zpos mx' * Zpos my * 2 ^ (ex' - Z.min ex ex'))
    with (Zpos mx' * 2 ^ (ex' - Z.min ex ex') * Zpos my) by ring.
  apply Z.mul_le_mono_nonneg_r; lia.
Qed.

Lemma SFmul_comm (mx my : positive) (ex ey : Z) :
  SF64mul (S754_finite false mx ex) (S754_finite false my ey)
  = SF64mul (S754_finite false my ey) (S754_finite false mx ex).
Proof.
  unfold SF64mul, SFmul. now rewrite Pos.mul_comm, Z.add_comm.
Qed.

End Ordered.

Section Quotients.
Local Open Scope Z_scope.

(** The location computed by the division is the location of the
    fraction. *)
Lemma new_location_locn (N D : Z) :
  0 < D -> new_location D (N mod D) = locn N D.
Proof.
  intros HD. pose proof (Z.mod_pos_bound N D HD) as Hb.
  unfold new_location, new_location_even, new_location_odd, locn.
  destruct (Z.even D) eqn:Hev; [reflexivity | ].
  destruct (Z.eqb_spec (N mod D) 0) as [ | Hnz]; [reflexivity | ].
  f_equal.
  assert (Hodd : Z.odd D = true) by (rewrite <- Z.negb_even, Hev; reflexivity).
  apply Z.odd_spec in Hodd. destruct Hodd as [k Hk].
  destruct (Z.compare_spec (2 * (N mod D) + 1) D);
    destruct (Z.compare_spec (2 * (N mod D)) D); try reflexivity; lia.
Qed.

(** The integer division performed by [SFdiv] on two normal doubles. *)
Lemma SFdiv_core_normal (mx my : positive) (ex ey : Z) :
  digits2_pos mx = 53%positive -> digits2_pos my = 53%positive ->
  -1074 <= ex - ey - 53 ->
  exists q,
    SFdiv_core_binary prec emax (Zpos mx) ex (Zpos my) ey
    = (Zpos q, ex - ey - 53, locn (Zpos mx * 2 ^ 53) (Zpos my))
    /\ Zpos q = Zpos mx * 2 ^ 53 / Zpos my
    /\ 53 <= Zpos (digits2_pos q) <= 54.
Proof.
  intros Hdx Hdy Hlo.
  unfold SFdiv_core_binary. cbn [Zdigits2].
  rewrite Hdx, Hdy. apply mantissa53 in Hdx, Hdy.
  unfold fexp, SpecFloat.emin, prec, emax.
  replace (3 - 1024 - 53) with (-1074) by reflexivity.
  replace (53 + ex - (53 + ey) - 53) with (ex - ey - 53) by lia.
  rewrite Z.max_l, Z.min_l by lia.
  replace (ex - ey - (ex - ey - 53)) with 53 by lia.
  rewrite Z.shiftl_mul_pow2 by lia.
  pose proof (Z_div_mod (Zpos mx * 2 ^ 53) (Zpos my) eq_refl) as Hdm.
  assert (Eq : Zpos mx * 2 ^ 53 / Zpos my
               = fst (Z.div_eucl (Zpos mx * 2 ^ 53) (Zpos my))) by reflexivity.
  assert (Er : (Zpos mx * 2 ^ 53) mod Zpos my
               = snd (Z.div_eucl (Zpos mx * 2 ^ 53) (Zpos my))) by reflexivity.
  destruct (Z.div_eucl (Zpos mx * 2 ^ 53) (Zpos my)) as [q r].
  cbn [fst snd] in Eq, Er. destruct Hdm as [Heq Hr].
  assert (Hq : 2 ^ 52 <= q < 2 ^ 54).
  { split.
    - destruct (Z_lt_le_dec q (2 ^ 52)) as [Hc | ]; [exfalso | assumption].
      assert (Zpos my * q + r < Zpos my * 2 ^ 52) by nia.
      assert (Zpos my * 2 ^ 52 <= 2 ^ 53 * 2 ^ 52) by (apply Z.mul_le_mono_nonneg_r; lia).
      assert (2 ^ 52 * 2 ^ 53 <= Zpos mx * 2 ^ 53) by (apply Z.mul_le_mono_nonneg_r; lia).
      lia.
    - destruct (Z_lt_le_dec q (2 ^ 54)) as [ | Hc]; [assumption | exfalso].
      assert (2 ^ 52 * 2 ^ 54 <= Zpos my * q) by (apply Z.mul_le_mono_nonneg; lia).
      assert (Zpos mx * 2 ^ 53 < 2 ^ 53 * 2 ^ 53) by (apply Z.mul_lt_mono_pos_r; lia).
      lia. }
  destruct q as [ | q | q]; try lia.
  exists q. split; [ | split].
  - rewrite <- Er. rewrite new_location_locn by lia. reflexivity.
  - symmetry. exact Eq.
  - change 53 with (52 + 1) at 1. apply digits2_range; lia.
Qed.

(** Division by a positive normal double is monotone. *)
Lemma SFdiv_mono (a b c d : Z) (x x' y : spec_float) :
  sf_normal a b x -> sf_normal a b x' -> sf_normal c d y ->
  -1022 <= a - d - 1 -> b - c + 1 <= 1023 ->
  SFleb x x' = true -> SFleb (SF64div x y) (SF64div x' y) = true.
Proof.
  intros (mx & ex & -> & Hdx & Hex) (mx' & ex' & -> & Hdx' & Hex')
         (my & ey & -> & Hdy & Hey) Hlo Hhi Hle.
  apply normal_leb in Hle.
  pose proof (lexle_value mx mx' ex ex' (Z.min ex ex') Hdx Hdx' Hle
                (Z.le_min_l _ _) (Z.le_min_r _ _)) as Hv.
  unfold SF64div, SFdiv. cbn [xorb].
  destruct (SFdiv_core_normal mx my ex ey Hdx Hdy) as (q & -> & Hq & Hdq); [lia | ].
  destruct (SFdiv_core_normal mx' my ex' ey Hdx' Hdy) as (q' & -> & Hq' & Hdq');
    [lia | ].
  apply (binary_round_aux_mono _ _ _ _ _ _ _ _
           (ex - Z.min ex ex') (ex' - Z.min ex ex'));
    try assumption; try lia.
  replace (Zpos mx * 2 ^ 53 * 2 ^ (ex - Z.min ex ex') * Zpos my)
    with (Zpos mx * 2 ^ (ex - Z.min ex ex') * (2 ^ 53 * Zpos my)) by ring.
  replace (Zpos mx' * 2 ^ 53 * 2 ^ (ex' - Z.min ex ex') * Zpos my)
    with (Zpos mx' * 2 ^ (ex' - Z.min ex ex') * (2 ^ 53 * Zpos my)) by ring.
  apply Z.mul_le_mono_nonneg_r; lia.
Qed.

(** Division of a positive normal double is antitone in the divisor. *)
Lemma SFdiv_anti (a b c d : Z) (x x' y : spec_float) :
  sf_normal a b x -> sf_normal a b x' -> sf_normal c d y ->
  -1022 <= c - b - 1 -> d - a + 1 <= 1023 ->
  SFleb x x' = true -> SFleb (SF64div y x') (SF64div y x) = true.
Proof.
  intros (mx & ex & -> & Hdx & Hex) (mx' & ex' & -> & Hdx' & Hex')
         (my & ey & -> & Hdy & Hey) Hlo Hhi Hle.
  apply normal_leb in Hle.
  pose proof (lexle_value mx mx' ex ex' (Z.min ex ex') Hdx Hdx' Hle
                (Z.le_min_l _ _) (Z.le_min_r _ _)) as Hv.
  unfold SF64div, SFdiv. cbn [xorb].
  destruct (SFdiv_core_normal my mx' ey ex' Hdy Hdx') as (q' & -> & Hq' & Hdq');
    [lia | ].
  destruct (SFdiv_core_normal my mx ey ex Hdy Hdx) as (q & -> & Hq & Hdq); [lia | ].
  apply (binary_round_aux_mono _ _ _ _ _ _ _ _
           (ex - Z.min ex ex') (ex' - Z.min ex ex'));
    try assumption; try lia.
  replace (Zpos my * 2 ^ 53 * 2 ^ (ex - Z.min ex ex') * Zpos mx)
    with (Zpos mx * 2 ^ (ex - Z.min ex ex') * (2 ^ 53 * Zpos my)) by ring.
  replace (Zpos my * 2 ^ 53 * 2 ^ (ex' - Z.min ex ex') * Zpos mx')
    with (Zpos mx' * 2 ^ (ex' - Z.min ex ex') * (2 ^ 53 * Zpos my)) by ring.
  apply Z.mul_le_mono_nonneg_r; lia.
Qed.

End Quotients.

Section Sums.
Local Open Scope Z_scope.

(** The sum of two normal doubles is their exact sum, rounded. *)
Lemma SFadd_exact (mx my : positive) (ex ey : Z) :
  digits2_pos mx = 53%positive -> digits2_pos my = 53%positive ->
  -1074 <= ex -> -1074 <= ey ->
  exists S,
    SF64add (S754_finite false mx ex) (S754_finite false my ey)
    = binary_round_aux prec emax false (Zpos S) (Z.min ex ey) loc_Exact
    /\ Zpos S = Zpos mx * 2 ^ (ex - Z.min ex ey) + Zpos my * 2 ^ (ey - Z.min ex ey)
    /\ 53 + (Z.max ex ey - Z.min ex ey) <= Zpos (digits2_pos S)
       <= 54 + (Z.max ex ey - Z.min ex ey).
Proof.
  intros Hdx Hdy Hex Hey.
  unfold SF64add, SFadd. cbn [cond_Zopp].
  pose proof (shl_align_fst mx ex (Z.min ex ey) (Z.le_min_l _ _)) as Hx.
  pose proof (shl_align_fst my ey (Z.min ex ey) (Z.le_min_r _ _)) as Hy.
  set (sx := fst (shl_align mx ex (Z.min ex ey))) in *.
  set (sy := fst (shl_align my ey (Z.min ex ey))) in *.
  change (Zpos sx + Zpos sy) with (Zpos (sx + sy)).
  assert (HM : Zpos (sx + sy) = Zpos sx + Zpos sy) by reflexivity.
  rewrite Hx, Hy in HM. clearbody sx sy. clear Hx Hy.
  assert (HD : 53 + (Z.max ex ey - Z.min ex ey) <= Zpos (digits2_pos (sx + sy))
               <= 54 + (Z.max ex ey - Z.min ex ey)).
  { destruct (Z.le_ge_cases ex ey) as [Hle | Hge].
    - rewrite Z.min_l, Z.max_r in * by lia.
      replace (ex - ex) with 0 in HM by lia. rewrite Z.mul_1_r in HM.
      apply (sum_digits mx my); auto; lia.
    - rewrite Z.min_r, Z.max_l in * by lia.
      replace (ey - ey) with 0 in HM by lia. rewrite Z.mul_1_r in HM.
      apply (sum_digits my mx); auto; lia. }
  cbn [binary_normalize]. unfold binary_round.
  assert (Hal : shl_align (sx + sy) (Z.min ex ey)
                  (fexp prec emax (Zpos (digits2_pos (sx + sy)) + Z.min ex ey))
                = ((sx + sy)%positive, Z.min ex ey)).
  { unfold shl_align, fexp, SpecFloat.emin, prec, emax.
    replace (3 - 1024 - 53) with (-1074) by reflexivity.
    match goal with
    | |- match ?t with _ => _ end = _ => destruct t eqn:Hn; try reflexivity
    end.
    lia. }
  rewrite Hal. exists (sx + sy)%positive.
  split; [reflexivity | split; [exact HM | exact HD] ].
Qed.

(** Adding a positive normal double is monotone. *)
Lemma SFadd_mono (a b c d : Z) (x x' y : spec_float) :
  sf_normal a b x -> sf_normal a b x' -> sf_normal c d y ->
  -1022 <= a -> -1022 <= c -> Z.max b d + 2 <= 1023 ->
  SFleb x x' = true -> SFleb (SF64add x y) (SF64add x' y) = true.
Proof.
  intros (mx & ex & -> & Hdx & Hex) (mx' & ex' & -> & Hdx' & Hex')
         (my & ey & -> & Hdy & Hey) Hlo1 Hlo2 Hhi Hle.
  apply normal_leb in Hle.
  set (g := Z.min (Z.min ex ex') ey).
  assert (Hg : g <= ex /\ g <= ex' /\ g <= ey) by (unfold g; lia).
  pose proof (lexle_value mx mx' ex ex' g Hdx Hdx' Hle
                ltac:(lia) ltac:(lia)) as Hv.
  destruct (SFadd_exact mx my ex ey Hdx Hdy) as (S & -> & HS & HdS); try lia.
  destruct (SFadd_exact mx' my ex' ey Hdx' Hdy) as (S' & -> & HS' & HdS'); try lia.
  rewrite (exact_location (Zpos S)) at 1. rewrite (exact_location (Zpos S')).
  apply (binary_round_aux_mono _ 1 _ 1 _ _ _ _
           (Z.min ex ey - g) (Z.min ex' ey - g));
    try rewrite Z.div_1_r; try reflexivity; try lia.
  rewrite !Z.mul_1_r, HS, HS', !Z.mul_add_distr_r, <- !Z.mul_assoc,
    <- !Z.pow_add_r by lia.
  replace (ex - Z.min ex ey + (Z.min ex ey - g)) with (ex - g) by lia.
  replace (ey - Z.min ex ey + (Z.min ex ey - g)) with (ey - g) by lia.
  replace (ex' - Z.min ex' ey + (Z.min ex' ey - g)) with (ex' - g) by lia.
  replace (ey - Z.min ex' ey + (Z.min ex' ey - g)) with (ey - g) by lia.
  lia.
Qed.

Lemma SFadd_comm (mx my : positive) (ex ey : Z) :
  SF64add (S754_finite false mx ex) (S754_finite false my ey)
  = SF64add (S754_finite false my ey) (S754_finite false mx ex).
Proof.
  unfold SF64add, SFadd. cbn [cond_Zopp]. now rewrite Z.min_comm, Z.add_comm.
Qed.

End Sums.

(** ** Monotone operations on primitive doubles *)

Lemma mul_mono_l (a b c d : Z) (x x' y : float) :
  normal_in a b x -> normal_in a b x' -> normal_in c d y ->
  (-1022 <= a + c)%Z -> (b + d + 2 <= 1023)%Z ->
  (x <=? x') = true -> (x * y <=? x' * y) = true.
Proof.
  unfold normal_in. rewrite !leb_spec, !mul_spec. apply SFmul_mono.
Qed.

Lemma mul_mono_r (a b c d : Z) (x x' y : float) :
  normal_in a b x -> normal_in a b x' -> normal_in c d y ->
  (-1022 <= a + c)%Z -> (b + d + 2 <= 1023)%Z ->
  (x <=? x') = true -> (y * x <=? y * x') = true.
Proof.
  unfold normal_in. rewrite !leb_spec, !mul_spec. intros Hx Hx' Hy Hlo Hhi Hle.
  pose proof (SFmul_mono a b c d _ _ _ Hx Hx' Hy Hlo Hhi Hle) as H.
  destruct Hx as (mx & ex & Ex & _), Hx' as (mx' & ex' & Ex' & _),
           Hy as (my & ey & Ey & _).
  rewrite Ex, Ex', Ey in *. now rewrite !(SFmul_comm my).
Qed.

Lemma div_mono_l (a b c d : Z) (x x' y : float) :
  normal_in a b x -> normal_in a b x' -> normal_in c d y ->
  (-1022 <= a - d - 1)%Z -> (b - c + 1 <= 1023)%Z ->
  (x <=? x') = true -> (x / y <=? x' / y) = true.
Proof.
  unfold normal_in. rewrite !leb_spec, !div_spec. apply SFdiv_mono.
Qed.

Lemma div_anti_r (a b c d : Z) (x x' y : float) :
  normal_in a b x -> normal_in a b x' -> normal_in c d y ->
  (-1022 <= c - b - 1)%Z -> (d - a + 1 <= 1023)%Z ->
  (x <=? x') = true -> (y / x' <=? y / x) = true.
Proof.
  unfold normal_in. rewrite !leb_spec, !div_spec. apply SFdiv_anti.
Qed.

Lemma add_mono_l (a b c d : Z) (x x' y : float) :
  normal_in a b x -> normal_in a b x' -> normal_in c d y ->
  (-1022 <= a)%Z -> (-1022 <= c)%Z -> (Z.max b d + 2 <= 1023)%Z ->
  (x <=? x') = true -> (x + y <=? x' + y) = true.
Proof.
  unfold normal_in. rewrite !leb_spec, !add_spec. apply SFadd_mono.
Qed.

Lemma add_mono_r (a b c d : Z) (x x' y : float) :
  normal_in a b x -> normal_in a b x' -> normal_in c d y ->
  (-1022 <= a)%Z -> (-1022 <= c)%Z -> (Z.max b d + 2 <= 1023)%Z ->
  (x <=? x') = true -> (y + x <=? y + x') = true.
Proof.
  unfold normal_in. rewrite !leb_spec, !add_spec. intros Hx Hx' Hy Hlo1 Hlo2 Hhi Hle.
  pose proof (SFadd_mono a b c d _ _ _ Hx Hx' Hy Hlo1 Hlo2 Hhi Hle) as H.
  destruct Hx as (mx & ex & Ex & _), Hx' as (mx' & ex' & Ex' & _),
           Hy as (my & ey & Ey & _).
  rewrite Ex, Ex', Ey in *. now rewrite !(SFadd_comm my).
Qed.

Lemma leb_trans (a b c d e f : Z) (x y z : float) :
  normal_in a b x -> normal_in c d y -> normal_in e f z ->
  (x <=? y) = true -> (y <=? z) = true -> (x <=? z) = true.
Proof.
  intros (mx & ex & Ex & _) (my & ey & Ey & _) (mz & ez & Ez & _).
  rewrite !leb_spec, Ex, Ey, Ez, !normal_leb. unfold lexle. cbn [fst snd]. lia.
Qed.

(* ================================================================== *)
(** * Further properties of the analytical model *)
(* ================================================================== *)

(** X1: with both widths zero or negative no division takes place: the
    function returns for every length, with the delay of two sentinel
    resistances. *)
Theorem both_widths_degenerate (Wn Wp L : float) :
  (Wn <=? 0) = true -> (Wp <=? 0) = true ->
  compute_performances Wn Wp L
  = Ok {| delay := 0.0069;
          power_dyn := 1.0889999999999999e-05;
          power_stat := 3.2999999999999998e-08;
          power_total := 1.0922999999999999e-05;
          area := (Wn + Wp) * L * 3.0 |}.
Proof.
  intros Hn Hp. unfold compute_performances. cbv zeta.
  rewrite (resistance_sentinel KPRIME_N (VDD - VTH_N) Wn L Hn).
  rewrite (resistance_sentinel KPRIME_P (VDD - VTH_P) Wp L Hp).
  cbn [Py.bind]. reflexivity.
Qed.

Lemma both_widths_degenerate_zero_length :
  (0 <=? 0) = true /\ (-1.0 <=? 0) = true /\
  compute_performances 0 (-1.0) 0
  = Ok {| delay := 0.0069;
          power_dyn := 1.0889999999999999e-05;
          power_stat := 3.2999999999999998e-08;
          power_total := 1.0922999999999999e-05;
          area := (0 + -1.0) * 0 * 3.0 |}.
Proof.
  split; [reflexivity | split; [reflexivity | ] ].
  apply (both_widths_degenerate 0 (-1.0) 0); reflexivity.
Defined.

(** A zero length scaled to metres is still zero. *)
Lemma zero_length_scaled (L : float) :
  (L =? 0) = true -> (L * 1e-6 =? 0) = true.
Proof.
  rewrite !FloatAxioms.eqb_spec, mul_spec.
  set (c := Prim2SF 1e-6). vm_compute in c. subst c.
  change (Prim2SF 0) with (S754_zero false).
  destruct (Prim2SF L) as [s | s | | s m e]; intros H;
    try discriminate; try (destruct s; discriminate).
  reflexivity.
Qed.

Lemma resistance_zero_length (kprime VOD W L : float) :
  (L =? 0) = true ->
  resistance kprime (W * 1e-6) (L * 1e-6) VOD
  = if Py.greater (W * 1e-6) 0 then Raise ZeroDivisionError
    else Ok R_SENTINEL.
Proof.
  intros HL. unfold resistance, Py.truediv.
  rewrite (zero_length_scaled L HL).
  destruct (Py.greater (W * 1e-6) 0); reflexivity.
Qed.

(** X2: a zero channel length is not replaced by a sentinel: as soon as one
    width is of ordinary magnitude the call raises
    [ZeroDivisionError]. *)
Theorem zero_length_raises (Wn Wp L : float) :
  (L =? 0) = true ->
  ordinary Wn || ordinary Wp = true ->
  compute_performances Wn Wp L = Raise ZeroDivisionError.
Proof.
  intros HL HW. unfold compute_performances. cbv zeta.
  rewrite !(resistance_zero_length _ _ _ L HL).
  destruct (Py.greater (Wn * 1e-6) 0) eqn:Hn; [reflexivity | ].
  cbn [Py.bind].
  destruct (Py.greater (Wp * 1e-6) 0) eqn:Hp; [reflexivity | ].
  exfalso. apply orb_prop in HW. destruct HW as [H | H];
    apply ordinary_normal in H.
  - assert (Hm : normal_in (-353) 314 (Wn * 1e-6))
      by (eapply normal_in_weaken; [nrange | lia | lia]).
    unfold Py.greater in Hn. rewrite (normal_in_pos _ _ _ Hm) in Hn.
    discriminate.
  - assert (Hm : normal_in (-353) 314 (Wp * 1e-6))
      by (eapply normal_in_weaken; [nrange | lia | lia]).
    unfold Py.greater in Hp. rewrite (normal_in_pos _ _ _ Hm) in Hp.
    discriminate.
Qed.

Lemma zero_length_raises_fixture :
  (0 =? 0) = true /\ ordinary 2.0 || ordinary 6.0 = true /\
  compute_performances 2.0 6.0 0 = Raise ZeroDivisionError.
Proof.
  split; [reflexivity | split; [reflexivity | ] ].
  apply (zero_length_raises 2.0 6.0 0); reflexivity.
Defined.

(** X3: the three power figures do not depend on the sizing. *)
Theorem power_independent_of_sizing (Wn Wp L : float) (p : performances) :
  compute_performances Wn Wp L = Ok p ->
  power_dyn p = 1.0889999999999999e-05
  /\ power_stat p = 3.2999999999999998e-08
  /\ power_total p = 1.0922999999999999e-05.
Proof.
  unfold compute_performances. cbv zeta.
  destruct (resistance KPRIME_N _ _ _) as [Rn | e]; cbn [Py.bind];
    [ | discriminate].
  destruct (resistance KPRIME_P _ _ _) as [Rp | e]; cbn [Py.bind];
    [ | discriminate].
  intros H. injection H as <-. cbn [power_dyn power_stat power_total].
  repeat apply conj; vm_compute; reflexivity.
Qed.

Lemma power_independent_of_sizing_degenerate :
  compute_performances 0 6.0 0.35
  = Ok {| delay := 0.0034500000011425404;
          power_dyn := 1.0889999999999999e-05;
          power_stat := 3.2999999999999998e-08;
          power_total := 1.0922999999999999e-05;
          area := 6.2999999999999989 |}
  /\ (1.0889999999999999e-05 = 1.0889999999999999e-05
      /\ 3.2999999999999998e-08 = 3.2999999999999998e-08
      /\ 1.0922999999999999e-05 = 1.0922999999999999e-05).
Proof.
  assert (H : compute_performances 0 6.0 0.35
              = Ok {| delay := 0.0034500000011425404;
                      power_dyn := 1.0889999999999999e-05;
                      power_stat := 3.2999999999999998e-08;
                      power_total := 1.0922999999999999e-05;
                      area := 6.2999999999999989 |})
    by (vm_compute; reflexivity).
  split; [exact H | ].
  exact (power_independent_of_sizing 0 6.0 0.35 _ H).
Defined.

(** The only exception [compute_performances] can raise is the
    [ZeroDivisionError] of one of its two divisions. *)
Lemma compute_performances_raises (Wn Wp L : float) (e : exn) :
  compute_performances Wn Wp L = Raise e -> e = ZeroDivisionError.
Proof.
  assert (Hdiv : forall x y e', Py.truediv x y = Raise e' -> e' = ZeroDivisionError).
  { intros x y e'. unfold Py.truediv. destruct (y =? 0); [ | discriminate].
    intros H. now injection H as <-. }
  assert (Hres : forall k W Lm V e',
             resistance k W Lm V = Raise e' -> e' = ZeroDivisionError).
  { intros k W Lm V e'. unfold resistance.
    destruct (Py.greater W 0); [ | discriminate].
    destruct (Py.truediv W Lm) as [q | e0] eqn:Hq; cbn [Py.bind].
    - apply Hdiv.
    - intros H. injection H as <-. exact (Hdiv _ _ _ Hq). }
  unfold compute_performances. cbv zeta.
  destruct (resistance KPRIME_N _ _ _) as [Rn | e0] eqn:Hn; cbn [Py.bind].
  - destruct (resistance KPRIME_P _ _ _) as [Rp | e1] eqn:Hp; cbn [Py.bind];
      [discriminate | ].
    intros H. injection H as <-. exact (Hres _ _ _ _ _ Hp).
  - intros H. injection H as <-. exact (Hres _ _ _ _ _ Hn).
Qed.

(** X4: the adapter raises in two cases only: [IndexError] on a vector of
    fewer than three components, and the [ZeroDivisionError] that
    [compute_performances] raised on its first three components.  The
    division [Wp / Wn] of the ratio never raises: the test [Wn > 0.01]
    keeps a zero width away from it. *)
Theorem adapter_exceptions (x : list float) (e : exn) :
  compute_performances_for_optim x = Raise e ->
  (e = IndexError /\ (List.length x < 3)%nat)
  \/ (e = ZeroDivisionError
      /\ exists Wn Wp L rest,
           x = Wn :: Wp :: L :: rest
           /\ compute_performances Wn Wp L = Raise ZeroDivisionError).
Proof.
  destruct x as [ | Wn [ | Wp [ | L rest] ] ]; cbn [compute_performances_for_optim];
    intros H;
    try (injection H as <-; left; split; [reflexivity | cbn [List.length]; lia]).
  right.
  destruct (compute_performances Wn Wp L) as [p | e0] eqn:Hp; cbn [Py.bind] in H.
  - exfalso. destruct (Py.greater Wn 0.01) eqn:Hgt.
    + rewrite (sizing_ratio_above Wn Wp Hgt) in H. discriminate.
    + unfold sizing_ratio in H. rewrite Hgt in H. discriminate.
  - injection H as <-.
    pose proof (compute_performances_raises Wn Wp L e0 Hp) as ->.
    split; [reflexivity | ]. exists Wn, Wp, L, rest. split; [reflexivity | exact Hp].
Qed.

Lemma adapter_exceptions_zero_length :
  compute_performances_for_optim [2.0; 6.0; 0] = Raise ZeroDivisionError /\
  ((ZeroDivisionError = IndexError
    /\ (List.length [2.0%float; 6.0%float; 0%float] < 3)%nat)
   \/ (ZeroDivisionError = ZeroDivisionError
       /\ exists Wn Wp L rest,
            [2.0%float; 6.0%float; 0%float] = Wn :: Wp :: L :: rest
            /\ compute_performances Wn Wp L = Raise ZeroDivisionError)).
Proof.
  assert (H : compute_performances_for_optim [2.0; 6.0; 0]
              = Raise ZeroDivisionError) by (vm_compute; reflexivity).
  split; [exact H | ].
  exact (adapter_exceptions [2.0; 6.0; 0] ZeroDivisionError H).
Defined.

(* ================================================================== *)
(** * The adapter, the sizing window and the declared box *)
(* ================================================================== *)

(** A double is NaN exactly when its specification is. *)
Lemma is_nan_spec (x : float) :
  is_nan x = match Prim2SF x with S754_nan => true | _ => false end.
Proof.
  unfold is_nan. rewrite FloatAxioms.eqb_spec.
  destruct (Prim2SF x) as [s | s | | s m e]; unfold SFeqb, SFcompare;
    try reflexivity; destruct s; try reflexivity;
    change (PosDef.Pos.compare_cont Eq) with Pos.compare;
    now rewrite Z.compare_refl, Pos.compare_refl.
Qed.

(** Two doubles that are not NaN are comparable. *)
Lemma ltb_negb_leb (x c : float) :
  is_nan x = false -> is_nan c = false -> (x <? c) = negb (c <=? x).
Proof.
  rewrite !is_nan_spec, ltb_spec, leb_spec.
  unfold SFltb, SFleb, SFcompare.
  change (PosDef.Pos.compare_cont Eq) with Pos.compare.
  destruct (Prim2SF x) as [sx | sx | | sx mx ex],
           (Prim2SF c) as [sc | sc | | sc mc ec];
    intros Hx Hc; try discriminate; try reflexivity;
    destruct sx, sc; try reflexivity;
    destruct (Z.compare_spec ex ec), (Z.compare_spec ec ex); try lia;
    try reflexivity;
    destruct (Pos.compare_spec mx mc), (Pos.compare_spec mc mx); try lia;
    reflexivity.
Qed.

(** Every comparison with NaN is false. *)
Lemma nan_incomparable (x c : float) :
  is_nan x = true ->
  (x <? c) = false /\ (c <? x) = false
  /\ (x <=? c) = false /\ (c <=? x) = false.
Proof.
  rewrite is_nan_spec, !ltb_spec, !leb_spec.
  destruct (Prim2SF x) as [sx | sx | | sx mx ex]; try discriminate.
  intros _. unfold SFltb, SFleb, SFcompare.
  destruct (Prim2SF c); repeat apply conj; reflexivity.
Qed.

(** X5: above the width threshold, a point is feasible for the optimiser
    (both residuals non-negative) exactly when its ratio lies in the
    window [1.2, 4.5], and the grid search skips a pair exactly when
    one of its residuals is negative.  Unless the ratio is NaN, a pair
    is therefore skipped exactly when it is infeasible; at a NaN ratio
    the two tests part: the point is infeasible and yet not skipped. *)
Theorem residuals_encode_window (Wn Wp L : float) (f g : list float) :
  Py.greater Wn 0.01 = true ->
  compute_performances_for_optim [Wn; Wp; L] = Ok (f, g) ->
  exists g1 g2,
    g = [g1; g2]
    /\ (0 <=? g1) && (0 <=? g2) = in_window (Wn, Wp)
    /\ outside_window Wn Wp = Ok (Py.less g1 0 || Py.less g2 0)
    /\ (is_nan (Wp / Wn) = false ->
        outside_window Wn Wp = Ok (negb (in_window (Wn, Wp))))
    /\ (is_nan (Wp / Wn) = true ->
        in_window (Wn, Wp) = false /\ outside_window Wn Wp = Ok false).
Proof.
  intros Hgt Hrun. unfold compute_performances_for_optim in Hrun.
  destruct (compute_performances Wn Wp L) as [perf | e]; [ | discriminate].
  cbn [Py.bind] in Hrun. rewrite (sizing_ratio_above Wn Wp Hgt) in Hrun.
  cbn [Py.bind] in Hrun. injection Hrun as _ <-.
  exists (Wp / Wn - 1.2), (4.5 - Wp / Wn).
  destruct (sub_sign_left (Wp / Wn) 1.2 false 5404319552844595 (-52) eq_refl)
    as [Hl1 Hl2].
  destruct (sub_sign_right (Wp / Wn) 4.5 false 5066549580791808 (-50) eq_refl)
    as [Hr1 Hr2].
  assert (Hout : outside_window Wn Wp
                 = Ok ((Wp / Wn <? 1.2) || (4.5 <? Wp / Wn))).
  { unfold outside_window, Py.truediv, Py.less, Py.greater.
    rewrite (above_threshold_nonzero Wn Hgt). cbn [Py.bind].
    destruct (Wp / Wn <? 1.2); reflexivity. }
  split; [reflexivity | split; [ | split; [ | split] ] ].
  - unfold in_window. now rewrite Hl1, Hr1.
  - rewrite Hout. unfold Py.less. now rewrite Hl2, Hr2.
  - intros Hnan. rewrite Hout. unfold in_window.
    rewrite (ltb_negb_leb (Wp / Wn) 1.2 Hnan eq_refl).
    rewrite (ltb_negb_leb 4.5 (Wp / Wn) eq_refl Hnan).
    now rewrite negb_andb.
  - intros Hnan. rewrite Hout. unfold in_window.
    destruct (nan_incomparable (Wp / Wn) 1.2 Hnan) as (H1 & _ & _ & H2).
    destruct (nan_incomparable (Wp / Wn) 4.5 Hnan) as (_ & H3 & _ & _).
    now rewrite H1, H2, H3.
Qed.

Lemma residuals_encode_window_fixture :
  Py.greater 2.0 0.01 = true /\
  compute_performances_for_optim [2.0; 6.0; 0.35]
  = Ok ([0.11976643282011282], [1.8; 1.5]) /\
  exists g1 g2,
    [1.8; 1.5] = [g1; g2]
    /\ (0 <=? g1) && (0 <=? g2) = in_window (2.0, 6.0)
    /\ outside_window 2.0 6.0 = Ok (Py.less g1 0 || Py.less g2 0)
    /\ (is_nan (6.0 / 2.0) = false ->
        outside_window 2.0 6.0 = Ok (negb (in_window (2.0, 6.0))))
    /\ (is_nan (6.0 / 2.0) = true ->
        in_window (2.0, 6.0) = false /\ outside_window 2.0 6.0 = Ok false).
Proof.
  assert (H : compute_performances_for_optim [2.0; 6.0; 0.35]
              = Ok ([0.11976643282011282], [1.8; 1.5]))
    by (vm_compute; reflexivity).
  split; [reflexivity | split; [exact H | ] ].
  exact (residuals_encode_window 2.0 6.0 0.35 _ _ eq_refl H).
Defined.

(** A NaN width gives a NaN ratio: the adapter returns two NaN
    residuals, so the point is infeasible, and the grid's test does not
    skip the pair. *)
Example nan_ratio_infeasible_not_skipped :
  is_nan (nan / 2.0) = true
  /\ (exists f g1 g2,
        compute_performances_for_optim [2.0; nan; 0.35] = Ok (f, [g1; g2])
        /\ is_nan g1 = true /\ is_nan g2 = true
        /\ (0 <=? g1) && (0 <=? g2) = false)
  /\ in_window (2.0, nan) = false
  /\ outside_window 2.0 nan = Ok false.
Proof.
  split; [reflexivity | split; [ | split; reflexivity] ].
  do 3 eexists. split; [vm_compute; reflexivity | ].
  repeat apply conj; reflexivity.
Qed.

(** The record computed inside the declared box, with the ranges of its
    two resistances. *)
Lemma declared_box_record (Wn Wp L : float) :
  within_declared_bounds Wn Wp L = true ->
  exists Rn Rp,
    normal_in (-3) 17 Rn /\ normal_in (-4) 18 Rp
    /\ compute_performances Wn Wp L
       = Ok {| delay := (ALPHA_DELAY * Rn * CL + ALPHA_DELAY * Rp * CL) / 2.0;
               power_dyn := CL * VDD_sq * F_CLK;
               power_stat := 10e-9 * VDD;
               power_total := CL * VDD_sq * F_CLK + 10e-9 * VDD;
               area := (Wn + Wp) * L * 3.0 |}.
Proof.
  intros H. apply declared_bounds_ordinary in H. destruct H as (HWn & HWp & HL).
  destruct (resistance_range KPRIME_N (VDD - VTH_N) Wn L (-1) 5 (-2) 0 (-13) 1)
    as (Rn & HRn & HnRn); try assumption; try lia; try normal_const.
  destruct (resistance_range KPRIME_P (VDD - VTH_P) Wp L (-1) 7 (-2) 0 (-14) 1)
    as (Rp & HRp & HnRp); try assumption; try lia; try normal_const.
  exists Rn, Rp. split; [ | split].
  - eapply normal_in_weaken; [eassumption | lia | lia].
  - eapply normal_in_weaken; [eassumption | lia | lia].
  - unfold compute_performances. cbv zeta. rewrite HRn, HRp. reflexivity.
Qed.

(** X6: on every point of the box declared to the optimiser the callback
    returns, with as many objectives and constraints as the problem
    announces, and its objective is strictly positive and finite. *)
Theorem callback_matches_problem (Wn Wp L : float) :
  within_declared_bounds Wn Wp L = true ->
  exists f g,
    compute_performances_for_optim [Wn; Wp; L] = Ok (f, g)
    /\ List.length [Wn; Wp; L] = Problem.n problem
    /\ List.length f = Problem.o problem
    /\ List.length g = Problem.m problem
    /\ forall v, In v f -> positive_finite v = true.
Proof.
  intros Hbox.
  pose proof (declared_bounds_ordinary Wn Wp L Hbox) as (HWn & HWp & HL).
  destruct (declared_box_record Wn Wp L Hbox) as (Rn & Rp & HRn & HRp & Hrec).
  assert (Hgt : Py.greater Wn 0.01 = true).
  { unfold Py.greater. eapply (normal_in_lt (-7) (-7)); [normal_const | eassumption | lia]. }
  unfold compute_performances_for_optim. rewrite Hrec. cbn [Py.bind].
  rewrite (sizing_ratio_above Wn Wp Hgt). cbn [Py.bind].
  do 2 eexists. split; [reflexivity | ].
  repeat apply conj; try reflexivity.
  intros v [<- | [] ]. cbn [delay power_total area].
  eapply normal_positive_finite. nrange.
Qed.

Lemma callback_matches_problem_at_start :
  within_declared_bounds 2.0 6.0 0.35 = true /\
  exists f g,
    compute_performances_for_optim [2.0; 6.0; 0.35] = Ok (f, g)
    /\ List.length [2.0%float; 6.0%float; 0.35%float] = Problem.n problem
    /\ List.length f = Problem.o problem
    /\ List.length g = Problem.m problem
    /\ forall v, In v f -> positive_finite v = true.
Proof.
  split; [reflexivity | ].
  apply (callback_matches_problem 2.0 6.0 0.35). reflexivity.
Defined.

(** The starting point handed to the optimiser is the fixture, lies in
    the box and is feasible. *)
Example starting_point_feasible :
  Problem.x problem = [2.0; 6.0; 0.35]
  /\ within_declared_bounds 2.0 6.0 0.35 = true
  /\ List.length (Problem.xl problem) = Problem.n problem
  /\ List.length (Problem.xu problem) = Problem.n problem
  /\ compute_performances_for_optim (Problem.x problem)
     = Ok ([0.11976643282011282], [1.8; 1.5]).
Proof. repeat apply conj; vm_compute; reflexivity. Qed.

Lemma leb_refl (a b : Z) (x : float) : normal_in a b x -> (x <=? x) = true.
Proof.
  intros (m & e & E & _). rewrite leb_spec, E, normal_leb.
  unfold lexle. cbn [fst snd]. lia.
Qed.

Lemma add_mono (a b c d : Z) (x x' y y' : float) :
  normal_in a b x -> normal_in a b x' ->
  normal_in c d y -> normal_in c d y' ->
  (-1022 <= a)%Z -> (-1022 <= c)%Z -> (Z.max b d + 2 <= 1023)%Z ->
  (x <=? x') = true -> (y <=? y') = true -> (x + y <=? x' + y') = true.
Proof.
  intros Hx Hx' Hy Hy' Ha Hc Hb Hxx Hyy.
  apply (leb_trans _ _ _ _ _ _ (x + y) (x' + y) (x' + y')
           (normal_in_add _ _ _ _ _ _ Hx Hy Ha Hc Hb)
           (normal_in_add _ _ _ _ _ _ Hx' Hy Ha Hc Hb)
           (normal_in_add _ _ _ _ _ _ Hx' Hy' Ha Hc Hb)).
  - exact (add_mono_l a b c d x x' y Hx Hx' Hy Ha Hc Hb Hxx).
  - exact (add_mono_r c d a b y y' x' Hy Hy' Hx' Hc Ha
             ltac:(rewrite Z.max_comm; exact Hb) Hyy).
Qed.

Lemma mul_mono (a b c d : Z) (x x' y y' : float) :
  normal_in a b x -> normal_in a b x' ->
  normal_in c d y -> normal_in c d y' ->
  (-1022 <= a + c)%Z -> (b + d + 2 <= 1023)%Z ->
  (x <=? x') = true -> (y <=? y') = true -> (x * y <=? x' * y') = true.
Proof.
  intros Hx Hx' Hy Hy' Hlo Hhi Hxx Hyy.
  apply (leb_trans _ _ _ _ _ _ (x * y) (x' * y) (x' * y')
           (normal_in_mul _ _ _ _ _ _ Hx Hy Hlo Hhi)
           (normal_in_mul _ _ _ _ _ _ Hx' Hy Hlo Hhi)
           (normal_in_mul _ _ _ _ _ _ Hx' Hy' Hlo Hhi)).
  - exact (mul_mono_l a b c d x x' y Hx Hx' Hy Hlo Hhi Hxx).
  - exact (mul_mono_r c d a b y y' x' Hy Hy' Hx' ltac:(lia) ltac:(lia) Hyy).
Qed.

(** A larger dividend and a smaller divisor give a larger quotient. *)
Lemma div_mono (a b c d : Z) (x x' y y' : float) :
  normal_in a b x -> normal_in a b x' ->
  normal_in c d y -> normal_in c d y' ->
  (-1022 <= a - d - 1)%Z -> (b - c + 1 <= 1023)%Z ->
  (x <=? x') = true -> (y' <=? y) = true -> (x / y <=? x' / y') = true.
Proof.
  intros Hx Hx' Hy Hy' Hlo Hhi Hxx Hyy.
  apply (leb_trans _ _ _ _ _ _ (x / y) (x' / y) (x' / y')
           (normal_in_div _ _ _ _ _ _ Hx Hy Hlo Hhi)
           (normal_in_div _ _ _ _ _ _ Hx' Hy Hlo Hhi)
           (normal_in_div _ _ _ _ _ _ Hx' Hy' Hlo Hhi)).
  - exact (div_mono_l a b c d x x' y Hx Hx' Hy Hlo Hhi Hxx).
  - exact (div_anti_r c d a b y' y x' Hy' Hy Hx' Hlo Hhi Hyy).
Qed.

(** Order between two expressions of the same shape, read off the
    order of their leaves. *)
Ltac mono :=
  lazymatch goal with
  | H : (?x <=? ?y) = true |- (?x <=? ?y) = true => exact H
  | |- (?x * ?c <=? ?y * ?c) = true =>
      eapply mul_mono_l; [nrange | nrange | nrange | lia | lia | mono]
  | |- (?c * ?x <=? ?c * ?y) = true =>
      eapply mul_mono_r; [nrange | nrange | nrange | lia | lia | mono]
  | |- (?x / ?c <=? ?y / ?c) = true =>
      eapply div_mono_l; [nrange | nrange | nrange | lia | lia | mono]
  | |- (?c / ?y <=? ?c / ?x) = true =>
      eapply div_anti_r; [nrange | nrange | nrange | lia | lia | mono]
  | |- (?x + ?c <=? ?y + ?c) = true =>
      eapply add_mono_l; [nrange | nrange | nrange | lia | lia | lia | mono]
  | |- (?c + ?x <=? ?c + ?y) = true =>
      eapply add_mono_r; [nrange | nrange | nrange | lia | lia | lia | mono]
  | |- (?x + ?u <=? ?y + ?v) = true =>
      eapply add_mono;
      [nrange | nrange | nrange | nrange | lia | lia | lia | mono | mono]
  | |- (?x * ?u <=? ?y * ?v) = true =>
      eapply mul_mono;
      [nrange | nrange | nrange | nrange | lia | lia | mono | mono]
  | |- (?x / ?u <=? ?y / ?v) = true =>
      eapply div_mono;
      [nrange | nrange | nrange | nrange | lia | lia | mono | mono]
  end.

(** The record computed on dimensions of ordinary magnitude, written
    out: no sentinel is involved. *)
Lemma ordinary_record (Wn Wp L : float) :
  normal_in (-333) 332 Wn -> normal_in (-333) 332 Wp ->
  normal_in (-333) 332 L ->
  compute_performances Wn Wp L
  = Ok {| delay :=
            (ALPHA_DELAY
               * (1.0 / (KPRIME_N * (Wn * 1e-6 / (L * 1e-6)) * (VDD - VTH_N)))
               * CL
             + ALPHA_DELAY
                 * (1.0 / (KPRIME_P * (Wp * 1e-6 / (L * 1e-6)) * (VDD - VTH_P)))
                 * CL) / 2.0;
          power_dyn := CL * VDD_sq * F_CLK;
          power_stat := 10e-9 * VDD;
          power_total := CL * VDD_sq * F_CLK + 10e-9 * VDD;
          area := (Wn + Wp) * L * 3.0 |}.
Proof.
  intros HWn HWp HL. unfold compute_performances. cbv zeta.
  erewrite (resistance_normal KPRIME_N); [ | nrange | nrange | nrange].
  erewrite (resistance_normal KPRIME_P); [ | nrange | nrange | nrange].
  reflexivity.
Qed.

(** Two sizings of ordinary magnitude, the second at least as wide as
    the first: the second is not slower when it is not longer, and not
    smaller when it is not shorter. *)
Lemma performances_ordered (Wn Wn' Wp Wp' L L' : float) :
  ordinary Wn = true -> ordinary Wn' = true ->
  ordinary Wp = true -> ordinary Wp' = true ->
  ordinary L = true -> ordinary L' = true ->
  (Wn <=? Wn') = true -> (Wp <=? Wp') = true ->
  exists p p',
    compute_performances Wn Wp L = Ok p
    /\ compute_performances Wn' Wp' L' = Ok p'
    /\ ((L' <=? L) = true -> (delay p' <=? delay p) = true)
    /\ ((L <=? L') = true -> (area p <=? area p') = true).
Proof.
  intros HWn HWn' HWp HWp' HL HL' Hn Hp.
  apply ordinary_normal in HWn, HWn', HWp, HWp', HL, HL'.
  rewrite (ordinary_record Wn Wp L), (ordinary_record Wn' Wp' L') by assumption.
  do 2 eexists. split; [reflexivity | split; [reflexivity | ] ].
  cbn [delay area]. split; intros Hl; mono.
Qed.

(** X7: wider transistors and a shorter channel never slow the inverter
    down: between two sizings of ordinary magnitude, the one with the
    larger widths and the smaller length has the delay that is not
    larger. *)
Theorem wider_and_shorter_is_faster (Wn Wn' Wp Wp' L L' : float) :
  ordinary Wn = true -> ordinary Wn' = true ->
  ordinary Wp = true -> ordinary Wp' = true ->
  ordinary L = true -> ordinary L' = true ->
  (Wn <=? Wn') = true -> (Wp <=? Wp') = true -> (L' <=? L) = true ->
  exists p p',
    compute_performances Wn Wp L = Ok p
    /\ compute_performances Wn' Wp' L' = Ok p'
    /\ (delay p' <=? delay p) = true.
Proof.
  intros HWn HWn' HWp HWp' HL HL' Hn Hp Hl.
  destruct (performances_ordered Wn Wn' Wp Wp' L L')
    as (p & p' & E & E' & Hd & _); try assumption.
  exists p, p'. split; [exact E | split; [exact E' | exact (Hd Hl)] ].
Qed.

Lemma wider_and_shorter_is_faster_fixture :
  ordinary 2.0 = true /\ ordinary 3.0 = true /\
  ordinary 6.0 = true /\ ordinary 9.0 = true /\
  ordinary 1.0 = true /\ ordinary 0.35 = true /\
  (2.0 <=? 3.0) = true /\ (6.0 <=? 9.0) = true /\ (0.35 <=? 1.0) = true /\
  exists p p',
    compute_performances 2.0 6.0 1.0 = Ok p
    /\ compute_performances 3.0 9.0 0.35 = Ok p'
    /\ (delay p' <=? delay p) = true.
Proof.
  repeat (split; [reflexivity | ]).
  apply (wider_and_shorter_is_faster 2.0 3.0 6.0 9.0 1.0 0.35); reflexivity.
Defined.

(** X8: the area never shrinks when a dimension grows: between two sizings
    of ordinary magnitude, the one that is at least as large in Wn, Wp
    and L has the area that is not smaller. *)
Theorem larger_dimensions_larger_area (Wn Wn' Wp Wp' L L' : float) :
  ordinary Wn = true -> ordinary Wn' = true ->
  ordinary Wp = true -> ordinary Wp' = true ->
  ordinary L = true -> ordinary L' = true ->
  (Wn <=? Wn') = true -> (Wp <=? Wp') = true -> (L <=? L') = true ->
  exists p p',
    compute_performances Wn Wp L = Ok p
    /\ compute_performances Wn' Wp' L' = Ok p'
    /\ (area p <=? area p') = true.
Proof.
  intros HWn HWn' HWp HWp' HL HL' Hn Hp Hl.
  destruct (performances_ordered Wn Wn' Wp Wp' L L')
    as (p & p' & E & E' & _ & Ha); try assumption.
  exists p, p'. split; [exact E | split; [exact E' | exact (Ha Hl)] ].
Qed.

Lemma larger_dimensions_larger_area_fixture :
  ordinary 2.0 = true /\ ordinary 3.0 = true /\
  ordinary 6.0 = true /\ ordinary 9.0 = true /\
  ordinary 0.35 = true /\ ordinary 1.0 = true /\
  (2.0 <=? 3.0) = true /\ (6.0 <=? 9.0) = true /\ (0.35 <=? 1.0) = true /\
  exists p p',
    compute_performances 2.0 6.0 0.35 = Ok p
    /\ compute_performances 3.0 9.0 1.0 = Ok p'
    /\ (area p <=? area p') = true.
Proof.
  repeat (split; [reflexivity | ]).
  apply (larger_dimensions_larger_area 2.0 3.0 6.0 9.0 0.35 1.0); reflexivity.
Defined.

(** X9: the channel length enters the objective through delay and area
    only, and both grow with it: between two vectors of ordinary
    magnitude that differ in length alone, the shorter one has the
    objective that is not larger, and both have the same residuals. *)
Theorem objective_grows_with_length (Wn Wp L L' : float) :
  ordinary Wn = true -> ordinary Wp = true ->
  ordinary L = true -> ordinary L' = true ->
  (L <=? L') = true ->
  exists f f' g,
    compute_performances_for_optim [Wn; Wp; L] = Ok ([f], g)
    /\ compute_performances_for_optim [Wn; Wp; L'] = Ok ([f'], g)
    /\ (f <=? f') = true.
Proof.
  intros HWn HWp HL HL' Hle.
  apply ordinary_normal in HWn, HWp, HL, HL'.
  unfold compute_performances_for_optim.
  rewrite (ordinary_record Wn Wp L), (ordinary_record Wn Wp L') by assumption.
  cbn [Py.bind].
  assert (Hr : exists r, sizing_ratio Wn Wp = Ok r).
  { destruct (Py.greater Wn 0.01) eqn:Hgt.
    - rewrite (sizing_ratio_above Wn Wp Hgt). eexists. reflexivity.
    - unfold sizing_ratio. rewrite Hgt. eexists. reflexivity. }
  destruct Hr as (r & ->). cbn [Py.bind].
  do 3 eexists. split; [reflexivity | split; [reflexivity | ] ].
  cbn [delay power_total area]. mono.
Qed.

Lemma objective_grows_with_length_fixture :
  ordinary 2.0 = true /\ ordinary 6.0 = true /\
  ordinary 0.35 = true /\ ordinary 1.0 = true /\
  (0.35 <=? 1.0) = true /\
  exists f f' g,
    compute_performances_for_optim [2.0; 6.0; 0.35] = Ok ([f], g)
    /\ compute_performances_for_optim [2.0; 6.0; 1.0] = Ok ([f'], g)
    /\ (f <=? f') = true.
Proof.
  repeat (split; [reflexivity | ]).
  apply (objective_grows_with_length 2.0 6.0 0.35 1.0); reflexivity.
Defined.

(** The four corners of the declared box that bound delay and area. *)
Example declared_box_corners :
  compute_performances 50.0 150.0 0.35
  = Ok {| delay := 8.545731280451332e-14;
          power_dyn := 1.0889999999999999e-05;
          power_stat := 3.2999999999999998e-08;
          power_total := 1.0922999999999999e-05;
          area := 210 |}
  /\ compute_performances 0.5 0.5 1.0
     = Ok {| delay := 5.053158652745238e-11;
             power_dyn := 1.0889999999999999e-05;
             power_stat := 3.2999999999999998e-08;
             power_total := 1.0922999999999999e-05;
             area := 3 |}
  /\ compute_performances 0.5 0.5 0.35
     = Ok {| delay := 1.7686055284608334e-11;
             power_dyn := 1.0889999999999999e-05;
             power_stat := 3.2999999999999998e-08;
             power_total := 1.0922999999999999e-05;
             area := 1.0499999999999998 |}
  /\ compute_performances 50.0 150.0 1.0
     = Ok {| delay := 2.4416375087003804e-13;
             power_dyn := 1.0889999999999999e-05;
             power_stat := 3.2999999999999998e-08;
             power_total := 1.0922999999999999e-05;
             area := 600 |}.
Proof. repeat apply conj; vm_compute; reflexivity. Qed.

(** X10: over the box declared to the optimiser the delay lies between its
    value at the widest, shortest corner (50, 150, 0.35) and its value
    at the narrowest, longest corner (0.5, 0.5, 1.0), and the area
    between its values at the smallest and at the largest corner. *)
Theorem declared_box_extremes (Wn Wp L : float) :
  within_declared_bounds Wn Wp L = true ->
  exists p,
    compute_performances Wn Wp L = Ok p
    /\ (8.545731280451332e-14 <=? delay p) = true
    /\ (delay p <=? 5.053158652745238e-11) = true
    /\ (1.0499999999999998 <=? area p) = true
    /\ (area p <=? 600) = true.
Proof.
  intros Hbox.
  destruct (declared_bounds_are_ordinary Wn Wp L Hbox) as (HWn & HWp & HL).
  unfold within_declared_bounds, xl, xu, between in Hbox.
  repeat match goal with
         | Hc : _ && _ = true |- _ => apply andb_prop in Hc; destruct Hc
         end.
  destruct declared_box_corners as (K1 & K2 & K3 & K4).
  destruct (performances_ordered Wn 50.0 Wp 150.0 L 0.35)
    as (p & q1 & E & E1 & Hd1 & _); try assumption; try reflexivity.
  destruct (performances_ordered 0.5 Wn 0.5 Wp 1.0 L)
    as (q2 & p2 & E2 & Ep2 & Hd2 & _); try assumption; try reflexivity.
  destruct (performances_ordered 0.5 Wn 0.5 Wp 0.35 L)
    as (q3 & p3 & E3 & Ep3 & _ & Ha3); try assumption; try reflexivity.
  destruct (performances_ordered Wn 50.0 Wp 150.0 L 1.0)
    as (p4 & q4 & Ep4 & E4 & _ & Ha4); try assumption; try reflexivity.
  rewrite E in Ep2, Ep3, Ep4. injection Ep2 as <-. injection Ep3 as <-.
  injection Ep4 as <-.
  rewrite K1 in E1. injection E1 as <-.
  rewrite K2 in E2. injection E2 as <-.
  rewrite K3 in E3. injection E3 as <-.
  rewrite K4 in E4. injection E4 as <-.
  cbn [delay area] in Hd1, Hd2, Ha3, Ha4.
  exists p. split; [exact E | ].
  split; [apply Hd1; assumption | ].
  split; [apply Hd2; assumption | ].
  split; [apply Ha3; assumption | apply Ha4; assumption].
Qed.

Lemma declared_box_extremes_at_start :
  within_declared_bounds 2.0 6.0 0.35 = true /\
  exists p,
    compute_performances 2.0 6.0 0.35 = Ok p
    /\ (8.545731280451332e-14 <=? delay p) = true
    /\ (delay p <=? 5.053158652745238e-11) = true
    /\ (1.0499999999999998 <=? area p) = true
    /\ (area p <=? 600) = true.
Proof.
  split; [reflexivity | ].
  apply (declared_box_extremes 2.0 6.0 0.35). reflexivity.
Defined.

(* ================================================================== *)
(** * Further properties of the simulation-backed evaluator *)
(* ================================================================== *)

Lemma simulation_body_shape (tc : toolchain) (a b c : string) (o : outcome) :
  simulation_body tc a b c = Ok o ->
  o = FAILURE \/ exists t_hl t_lh, o = success_outcome t_hl t_lh.
Proof.
  unfold simulation_body.
  destruct (SpiceEditor tc); cbn [Py.bind]; [ | discriminate].
  destruct (set_parameter tc "Wn" a); cbn [Py.bind]; [ | discriminate].
  destruct (set_parameter tc "Wp" b); cbn [Py.bind]; [ | discriminate].
  destruct (set_parameter tc "L" c); cbn [Py.bind]; [ | discriminate].
  destruct (SimRunner tc); cbn [Py.bind]; [ | discriminate].
  destruct (runner_run tc a b c); cbn [Py.bind]; [ | discriminate].
  destruct (wait_completion tc) as [r | e]; cbn [Py.bind]; [ | discriminate].
  destruct ((0 <? failSim r)%nat || (List.length (completed_tasks r) =? 0)%nat).
  { intros H. injection H as <-. now left. }
  destruct (log_file (List.last (completed_tasks r) (mkTask None)))
    as [path | ].
  2:{ intros H. injection H as <-. now left. }
  destruct (path_exists tc path) as [ [ | ] | e]; cbn [Py.bind negb];
    try discriminate.
  2:{ intros H. injection H as <-. now left. }
  destruct (extract_measurements tc path) as [ [t_hl t_lh] | e];
    cbn [Py.bind]; [ | discriminate].
  intros H. injection H as <-. right. eauto.
Qed.

(** X11: whatever the collaborators do, an outcome is either the failure
    record, with its three 1e6 penalties, or a success computed from two
    measurements; there is no failed outcome with other figures and no
    success without the toolchain and the template. *)
Theorem outcome_failure_or_success
    (available : bool) (tc : toolchain) (Wn Wp L : float) (o : outcome) :
  run_simulation_and_extract_delay available tc Wn Wp L = Ok o ->
  (success o = false /\ o = FAILURE)
  \/ (success o = true /\ available = true /\ cir_file_exists tc = Ok true
      /\ exists t_hl t_lh, o = success_outcome t_hl t_lh).
Proof.
  unfold run_simulation_and_extract_delay.
  destruct available; cbn [negb].
  2:{ intros H. injection H as <-. left. now split. }
  destruct (cir_file_exists tc) as [ [ | ] | e] eqn:Hc; cbn [Py.bind negb];
    try discriminate.
  2:{ intros H. injection H as <-. left. now split. }
  unfold Py.try_except.
  destruct (simulation_body tc (width_str Wn) (width_str Wp) (length_str L))
    as [o' | e] eqn:Hb.
  - intros H. injection H as <-.
    destruct (simulation_body_shape _ _ _ _ _ Hb) as [-> | (t1 & t2 & ->)].
    + left. now split.
    + right. repeat split; eauto.
  - intros H. injection H as <-. left. now split.
Qed.

Lemma outcome_failure_or_success_crash :
  run_simulation_and_extract_delay true crashing_toolchain 2.0 6.0 0.35
  = Ok FAILURE /\
  ((success FAILURE = false /\ FAILURE = FAILURE)
   \/ (success FAILURE = true /\ true = true
       /\ cir_file_exists crashing_toolchain = Ok true
       /\ exists t_hl t_lh, FAILURE = success_outcome t_hl t_lh)).
Proof.
  assert (H : run_simulation_and_extract_delay true crashing_toolchain
                2.0 6.0 0.35 = Ok FAILURE) by (vm_compute; reflexivity).
  split; [exact H | ].
  exact (outcome_failure_or_success true crashing_toolchain 2.0 6.0 0.35 _ H).
Defined.

(** X12: the four failure exits after a submission that went through: a
    failed simulation, no completed task, a task without log, a log
    that is not on disk.  None of them looks at any measurement. *)
Theorem failure_exits (tc : toolchain) (Wn Wp L : float) (r : runner) :
  cir_file_exists tc = Ok true ->
  submission_succeeds tc (width_str Wn) (width_str Wp) (length_str L) r ->
  (0 < failSim r)%nat
  \/ completed_tasks r = []
  \/ log_file (List.last (completed_tasks r) (mkTask None)) = None
  \/ (exists path,
        log_file (List.last (completed_tasks r) (mkTask None)) = Some path
        /\ path_exists tc path = Ok false) ->
  run_simulation_and_extract_delay true tc Wn Wp L = Ok FAILURE.
Proof.
  intros Hc (He & H1 & H2 & H3 & Hr & Hrun & Hw) Hexit.
  rewrite try_body_contained by assumption. unfold simulation_body.
  rewrite He, H1, H2, H3, Hr, Hrun, Hw. cbn [Py.bind].
  destruct ((0 <? failSim r)%nat || (List.length (completed_tasks r) =? 0)%nat)
    eqn:Hfail; [reflexivity | ].
  apply orb_false_elim in Hfail. destruct Hfail as [Hf Ht].
  apply Nat.ltb_ge in Hf. apply Nat.eqb_neq in Ht.
  destruct Hexit as [H | [H | [H | (path & Hl & Hp)] ] ].
  - lia.
  - rewrite H in Ht. cbn in Ht. congruence.
  - now rewrite H.
  - rewrite Hl, Hp. reflexivity.
Qed.

Lemma failure_exits_failed_run :
  cir_file_exists failed_run_toolchain = Ok true /\
  submission_succeeds failed_run_toolchain
    (width_str 2.0) (width_str 6.0) (length_str 0.35)
    {| failSim := 1; completed_tasks := [mkTask (Some "sim.log"%string)] |} /\
  run_simulation_and_extract_delay true failed_run_toolchain 2.0 6.0 0.35
  = Ok FAILURE.
Proof.
  assert (Hs : submission_succeeds failed_run_toolchain
                 (width_str 2.0) (width_str 6.0) (length_str 0.35)
                 {| failSim := 1;
                    completed_tasks := [mkTask (Some "sim.log"%string)] |}).
  { repeat apply conj; reflexivity. }
  split; [reflexivity | split; [exact Hs | ] ].
  apply (failure_exits failed_run_toolchain 2.0 6.0 0.35 _ eq_refl Hs).
  left. cbn. lia.
Defined.

(** However the structured read fails, the textual scan runs with
    what was assigned before. *)
Lemma fallback_entered (tc : toolchain) (path : string) (v_hl : option float) :
  structured_read_raises tc path v_hl ->
  extract_measurements tc path = textual_fallback tc path v_hl None.
Proof.
  unfold extract_measurements.
  intros [(e & -> & ->) | [(log & e & -> & -> & ->) | (log & e & -> & -> & ->)] ];
    reflexivity.
Qed.

(** X13: a match of the textual scan that [float()] rejects does not become
    a sentinel: however the scan was entered, the [ValueError] leaves
    the extraction and the whole evaluation is a failure, whatever the
    other measurement is. *)
Theorem unparsable_match_fails
    (tc : toolchain) (Wn Wp L : float) (path content : string)
    (v_hl : option float) :
  simulation_completes tc (width_str Wn) (width_str Wp) (length_str L) path ->
  structured_read_raises tc path v_hl ->
  read_text tc path = Ok content ->
  (exists e, parse_match tc (re_search tc PAT_TPHL content) = Raise e)
  \/ (exists e, parse_match tc (re_search tc PAT_TPLH content) = Raise e) ->
  run_simulation_and_extract_delay true tc Wn Wp L = Ok FAILURE.
Proof.
  intros Hc Hs Hr Hm.
  rewrite (completed_simulation tc Wn Wp L path Hc).
  rewrite (fallback_entered tc path v_hl Hs).
  unfold textual_fallback. rewrite Hr. cbn [Py.bind].
  unfold parse_match in Hm.
  destruct (re_search tc PAT_TPHL content) as [g1 | ].
  - destruct (float_of_str tc g1) as [x1 | e1]; cbn [Py.bind]; [ | reflexivity].
    destruct Hm as [(e & Hm) | (e & Hm)]; [discriminate | ].
    destruct (re_search tc PAT_TPLH content) as [g2 | ]; [ | discriminate].
    destruct (float_of_str tc g2) as [x2 | e2]; cbn [Py.bind];
      [discriminate | reflexivity].
  - cbn [Py.bind]. destruct Hm as [(e & Hm) | (e & Hm)]; [discriminate | ].
    destruct (re_search tc PAT_TPLH content) as [g2 | ]; [ | discriminate].
    destruct (float_of_str tc g2) as [x2 | e2]; cbn [Py.bind];
      [discriminate | reflexivity].
Qed.

Lemma unparsable_match_fails_garbled :
  simulation_completes garbled_toolchain
    (width_str 2.0) (width_str 6.0) (length_str 0.35) "sim.log" /\
  structured_read_raises garbled_toolchain "sim.log" None /\
  read_text garbled_toolchain "sim.log" = Ok "tphl=e+ tplh=1.5e-10"%string /\
  ((exists e, parse_match garbled_toolchain
                (re_search garbled_toolchain PAT_TPHL "tphl=e+ tplh=1.5e-10")
              = Raise e)
   \/ (exists e, parse_match garbled_toolchain
                   (re_search garbled_toolchain PAT_TPLH "tphl=e+ tplh=1.5e-10")
                 = Raise e)) /\
  run_simulation_and_extract_delay true garbled_toolchain 2.0 6.0 0.35
  = Ok FAILURE.
Proof.
  assert (Hc : simulation_completes garbled_toolchain
                 (width_str 2.0) (width_str 6.0) (length_str 0.35) "sim.log").
  { eapply working_toolchain_completes. reflexivity. }
  assert (Hs : structured_read_raises garbled_toolchain "sim.log" None).
  { right. left.
    exists (fun _ => Raise (ExternalError "no such measure")),
           (ExternalError "no such measure").
    repeat apply conj; reflexivity. }
  assert (Hm : (exists e, parse_match garbled_toolchain
                  (re_search garbled_toolchain PAT_TPHL "tphl=e+ tplh=1.5e-10")
                = Raise e)
               \/ (exists e, parse_match garbled_toolchain
                     (re_search garbled_toolchain PAT_TPLH "tphl=e+ tplh=1.5e-10")
                   = Raise e)).
  { left. exists ValueError. reflexivity. }
  split; [exact Hc | split; [exact Hs | split; [reflexivity | split; [exact Hm | ] ] ] ].
  exact (unparsable_match_fails garbled_toolchain 2.0 6.0 0.35 "sim.log"
           "tphl=e+ tplh=1.5e-10" None Hc Hs eq_refl Hm).
Defined.

(** X14: when the structured reader delivers [tphl] and then raises on
    [tplh], the textual scan runs with [tphl] already assigned: a match
    of the scan that parses replaces it, no match keeps the structured
    value; [tplh] comes from the scan alone. *)
Theorem partial_structured_read
    (tc : toolchain) (Wn Wp L : float) (path content : string)
    (log : log_reader) (v : option float) (e : exn)
    (p_hl p_lh : option float) :
  simulation_completes tc (width_str Wn) (width_str Wp) (length_str L) path ->
  LTSpiceLogReader tc path = Ok log ->
  log "tphl"%string = Ok v ->
  log "tplh"%string = Raise e ->
  read_text tc path = Ok content ->
  parse_match tc (re_search tc PAT_TPHL content) = Ok p_hl ->
  parse_match tc (re_search tc PAT_TPLH content) = Ok p_lh ->
  run_simulation_and_extract_delay true tc Wn Wp L
  = Ok (success_outcome
          match p_hl with
          | Some x => Some x
          | None => v
          end
          p_lh).
Proof.
  intros Hc Hl H1 H2 Hr Hp1 Hp2.
  rewrite (completed_simulation tc Wn Wp L path Hc).
  rewrite (fallback_entered tc path v).
  2:{ right. right. exists log, e. repeat apply conj; assumption. }
  unfold textual_fallback. rewrite Hr. cbn [Py.bind].
  unfold parse_match in Hp1, Hp2.
  destruct (re_search tc PAT_TPHL content) as [g1 | ];
    destruct (re_search tc PAT_TPLH content) as [g2 | ];
    repeat match goal with
           | H : context [float_of_str tc ?g] |- _ =>
               destruct (float_of_str tc g); cbn [Py.bind] in H;
               [ | discriminate]
           end;
    injection Hp1 as <-; injection Hp2 as <-; reflexivity.
Qed.

Lemma partial_structured_read_half :
  simulation_completes half_structured_toolchain
    (width_str 2.0) (width_str 6.0) (length_str 0.35) "sim.log" /\
  parse_match half_structured_toolchain
    (re_search half_structured_toolchain PAT_TPHL "tplh=1.5e-10") = Ok None /\
  parse_match half_structured_toolchain
    (re_search half_structured_toolchain PAT_TPLH "tplh=1.5e-10")
  = Ok (Some 1.5e-10) /\
  run_simulation_and_extract_delay true half_structured_toolchain 2.0 6.0 0.35
  = Ok (success_outcome (Some 2e-10) (Some 1.5e-10)).
Proof.
  assert (Hc : simulation_completes half_structured_toolchain
                 (width_str 2.0) (width_str 6.0) (length_str 0.35) "sim.log").
  { eapply working_toolchain_completes. reflexivity. }
  split; [exact Hc | split; [reflexivity | split; [reflexivity | ] ] ].
  exact (partial_structured_read half_structured_toolchain 2.0 6.0 0.35
           "sim.log" "tplh=1.5e-10"
           (fun name => if String.eqb name "tphl" then Ok (Some 2e-10)
                        else Raise (ExternalError "no such measure"))
           (Some 2e-10) (ExternalError "no such measure")
           None (Some 1.5e-10)
           Hc eq_refl eq_refl eq_refl eq_refl eq_refl eq_refl).
Defined.

(* ================================================================== *)
(** * The copy of the technology library *)
(* ================================================================== *)

(** X15: refreshing the copy never touches the source, leaves a copy that is
    not older than the source whenever the source exists, changes the
    copy only into the source, and a second refresh changes nothing. *)
Theorem refresh_library_settles (fs : sim_files) :
  lib_src (refresh_library fs) = lib_src fs
  /\ refresh_library (refresh_library fs) = refresh_library fs
  /\ (lib_dst (refresh_library fs) = lib_dst fs
      \/ lib_dst (refresh_library fs) = lib_src fs)
  /\ forall src, lib_src fs = Some src ->
       exists dst, lib_dst (refresh_library fs) = Some dst
                   /\ Py.greater (st_mtime src) (st_mtime dst) = false.
Proof.
  unfold refresh_library.
  destruct fs as [ [src | ] [dst | ] ]; cbn [lib_src lib_dst].
  - destruct (Py.greater (st_mtime src) (st_mtime dst)) eqn:Hnew;
      cbn [lib_src lib_dst].
    + unfold Py.greater. rewrite ltb_irrefl.
      repeat apply conj; try reflexivity; [now right | ].
      intros s Hs. injection Hs as <-. exists src.
      split; [reflexivity | apply ltb_irrefl].
    + rewrite Hnew.
      repeat apply conj; try reflexivity; [now left | ].
      intros s Hs. injection Hs as <-. exists dst. now split.
  - unfold Py.greater. rewrite ltb_irrefl.
    repeat apply conj; try reflexivity; [now right | ].
    intros s Hs. injection Hs as <-. exists src.
    split; [reflexivity | apply ltb_irrefl].
  - repeat apply conj; try reflexivity; [now left | discriminate].
  - repeat apply conj; try reflexivity; [now left | discriminate].
Qed.

Example refresh_library_cases :
  let old := {| content := "old"; st_mtime := 100.0 |} in
  let new := {| content := "new"; st_mtime := 200.0 |} in
  refresh_library {| lib_src := Some new; lib_dst := Some old |}
  = {| lib_src := Some new; lib_dst := Some new |}
  /\ refresh_library {| lib_src := Some old; lib_dst := Some new |}
     = {| lib_src := Some old; lib_dst := Some new |}
  /\ refresh_library {| lib_src := Some new; lib_dst := None |}
     = {| lib_src := Some new; lib_dst := Some new |}
  /\ refresh_library {| lib_src := None; lib_dst := Some old |}
     = {| lib_src := None; lib_dst := Some old |}.
Proof. repeat apply conj; reflexivity. Qed.

(* ================================================================== *)
(** * Further properties of the grid search *)
(* ================================================================== *)

Lemma for_each_app {A S : Type} (xs ys : list A) (body : A -> S -> result S)
    (st : S) :
  for_each (xs ++ ys) body st
  = (st' <- for_each xs body st ;; for_each ys body st').
Proof.
  revert st. induction xs as [ | x xs IH]; intros st; [reflexivity | ].
  cbn [app for_each]. destruct (body x st) as [st1 | e]; cbn [Py.bind];
    [apply IH | reflexivity].
Qed.

Lemma for_each_map {A B S : Type} (f : A -> B) (xs : list A)
    (body : B -> S -> result S) (st : S) :
  for_each (map f xs) body st = for_each xs (fun a => body (f a)) st.
Proof.
  revert st. induction xs as [ | x xs IH]; intros st; [reflexivity | ].
  cbn [map for_each]. destruct (body (f x) st); cbn [Py.bind];
    [apply IH | reflexivity].
Qed.

Lemma for_each_filter {A S : Type} (keep : A -> bool) (xs : list A)
    (body body' : A -> S -> result S) :
  (forall x st, In x xs ->
     body x st = if keep x then body' x st else Ok st) ->
  forall st, for_each xs body st = for_each (filter keep xs) body' st.
Proof.
  induction xs as [ | x xs IH]; intros Hb st; [reflexivity | ].
  cbn [for_each filter]. rewrite (Hb x st (or_introl eq_refl)).
  assert (IH' := IH (fun y s Hy => Hb y s (or_intror Hy))).
  destruct (keep x); cbn [for_each Py.bind].
  - destruct (body' x st); cbn [Py.bind]; [apply IH' | reflexivity].
  - apply IH'.
Qed.

Lemma for_each_agree {A S : Type} (xs : list A) (body body' : A -> S -> result S) :
  (forall x st, In x xs -> body x st = body' x st) ->
  forall st, for_each xs body st = for_each xs body' st.
Proof.
  induction xs as [ | x xs IH]; intros Hb st; [reflexivity | ].
  cbn [for_each]. rewrite (Hb x st (or_introl eq_refl)).
  destruct (body' x st); cbn [Py.bind]; [ | reflexivity].
  apply IH. intros y s Hy. apply Hb. now right.
Qed.

Lemma for_each_raise {A S : Type} (xs ys : list A) (x : A)
    (body : A -> S -> result S) (st st1 : S) (e : exn) :
  for_each xs body st = Ok st1 -> body x st1 = Raise e ->
  for_each (xs ++ x :: ys) body st = Raise e.
Proof.
  intros H1 H2. rewrite for_each_app, H1. cbn [Py.bind for_each].
  now rewrite H2.
Qed.

(** The nested loops are one loop over the Cartesian product. *)
Lemma grid_search_flat (sim : evaluator) (Wns Wps : list float)
    (st : search_state) :
  grid_search sim Wns Wps st
  = for_each (grid Wns Wps) (fun c => grid_body sim (fst c) (snd c)) st.
Proof.
  unfold grid_search, grid. revert st.
  induction Wns as [ | Wn Wns IH]; intros st; [reflexivity | ].
  cbn [for_each flat_map]. rewrite for_each_app, for_each_map.
  cbn [fst snd].
  destruct (for_each Wps (fun Wp => grid_body sim Wn Wp) st);
    cbn [Py.bind]; [apply IH | reflexivity].
Qed.

Lemma in_source_grid (c : float * float) :
  In c (grid Wn_values Wp_values) ->
  In (fst c) Wn_values /\ In (snd c) Wp_values.
Proof.
  unfold grid. intros H. apply in_flat_map in H.
  destruct H as (Wn & HWn & H). apply in_map_iff in H.
  destruct H as (Wp & <- & HWp). now split.
Qed.

(** On the source's grid: one loop over the six pairs of the window,
    each handed to the evaluator once. *)
Lemma grid_search_unrolled (sim : evaluator) (st : search_state) :
  grid_search sim Wn_values Wp_values st
  = for_each [(1.0, 3.0); (2.0, 3.0); (2.0, 6.0); (2.0, 9.0);
              (3.0, 6.0); (3.0, 9.0)] (visit sim) st.
Proof.
  rewrite grid_search_flat.
  rewrite (for_each_filter in_window _ _ (visit sim)).
  - reflexivity.
  - intros [Wn Wp] s Hin. apply in_source_grid in Hin.
    destruct Hin as [HWn HWp]. cbn [fst snd] in *.
    unfold grid_body. rewrite (source_grid_window Wn Wp HWn HWp).
    cbn [Py.bind]. destruct (in_window (Wn, Wp)); cbn [negb]; [ | reflexivity].
    unfold visit. cbn [fst snd].
    destruct (sim Wn Wp L_val) as [o | e]; cbn [Py.bind]; [ | reflexivity].
    unfold step_after. cbn [best_delay best_params simulated].
    destruct (success o); cbn [andb]; [ | reflexivity].
    destruct (Py.less (delay_ns o) (best_delay s)); reflexivity.
Qed.

(** X16: the search is a single pass over the six pairs of the window: the
    evaluator is never consulted elsewhere (two evaluators that agree on
    these pairs give the same search), and an exception it raises is
    not absorbed but ends the search. *)
Theorem grid_search_single_pass (sim : evaluator) (st : search_state) :
  grid_search sim Wn_values Wp_values st
  = for_each (filter in_window (grid Wn_values Wp_values)) (visit sim) st
  /\ (forall sim' : evaluator,
        (forall c, In c (filter in_window (grid Wn_values Wp_values)) ->
           sim' (fst c) (snd c) L_val = sim (fst c) (snd c) L_val) ->
        grid_search sim' Wn_values Wp_values st
        = grid_search sim Wn_values Wp_values st)
  /\ (forall before c after st1 e,
        filter in_window (grid Wn_values Wp_values) = before ++ c :: after ->
        for_each before (visit sim) st = Ok st1 ->
        sim (fst c) (snd c) L_val = Raise e ->
        grid_search sim Wn_values Wp_values st = Raise e).
Proof.
  split; [apply grid_search_unrolled | split].
  - intros sim' Hagree. rewrite !grid_search_unrolled.
    apply for_each_agree. intros c s Hc. unfold visit.
    now rewrite (Hagree c Hc).
  - intros before c after st1 e Hsplit Hrun Hraise.
    rewrite grid_search_unrolled.
    change [(1.0, 3.0); (2.0, 3.0); (2.0, 6.0); (2.0, 9.0);
            (3.0, 6.0); (3.0, 9.0)]
      with (filter in_window (grid Wn_values Wp_values)).
    rewrite Hsplit. eapply for_each_raise; [exact Hrun | ].
    unfold visit. now rewrite Hraise.
Qed.

(** X17: ties go to the first candidate: when the six simulations succeed
    with one and the same delay below 1e9, the incumbent is the first
    pair evaluated. *)
Theorem ties_keep_first_candidate (sim : evaluator) (d : float) :
  Py.less d 1e9 = true ->
  (forall c, In c (filter in_window (grid Wn_values Wp_values)) ->
     exists o, sim (fst c) (snd c) L_val = Ok o
               /\ success o = true /\ delay_ns o = d) ->
  exists st,
    grid_search sim Wn_values Wp_values initial_search = Ok st
    /\ best_params st = Some (1.0, 3.0, L_val)
    /\ best_delay st = d.
Proof.
  intros Hd Hall. rewrite grid_search_unrolled.
  assert (Hstep : forall c s,
            In c (filter in_window (grid Wn_values Wp_values)) ->
            visit sim c s
            = Ok {| best_delay := if Py.less d (best_delay s) then d
                                  else best_delay s;
                    best_params := if Py.less d (best_delay s)
                                   then Some (fst c, snd c, L_val)
                                   else best_params s;
                    simulated := simulated s ++ [(fst c, snd c)] |}).
  { intros c s Hc. destruct (Hall c Hc) as (o & Ho & Hok & Hdel).
    unfold visit. rewrite Ho. cbn [Py.bind]. unfold step_after.
    now rewrite Hok, Hdel. }
  unfold Py.less in *.
  cbn [for_each].
  rewrite Hstep by (vm_compute; tauto). cbn [Py.bind best_delay best_params
    simulated initial_search fst snd]. rewrite Hd.
  repeat (rewrite Hstep by (vm_compute; tauto);
          cbn [Py.bind best_delay best_params simulated fst snd];
          rewrite ltb_irrefl).
  eexists. split; [reflexivity | split; reflexivity].
Qed.

Lemma ties_keep_first_candidate_constant :
  Py.less 0.05 1e9 = true /\
  (forall c, In c (filter in_window (grid Wn_values Wp_values)) ->
     exists o, const_sim (measured 0.05) (fst c) (snd c) L_val = Ok o
               /\ success o = true /\ delay_ns o = 0.05) /\
  exists st,
    grid_search (const_sim (measured 0.05)) Wn_values Wp_values initial_search
    = Ok st
    /\ best_params st = Some (1.0, 3.0, L_val)
    /\ best_delay st = 0.05.
Proof.
  assert (H : forall c, In c (filter in_window (grid Wn_values Wp_values)) ->
     exists o, const_sim (measured 0.05) (fst c) (snd c) L_val = Ok o
               /\ success o = true /\ delay_ns o = 0.05).
  { intros c _. exists (measured 0.05). repeat split. }
  split; [reflexivity | split; [exact H | ] ].
  exact (ties_keep_first_candidate (const_sim (measured 0.05)) 0.05 eq_refl H).
Defined.

(** X18: the incumbent starts at 1e9 ns and only a strictly smaller delay
    replaces it: when no outcome is below 1e9 (a NaN measurement, for
    instance), the loops end without a best result, no result file is
    written, and the function, once the preparation of [sim_output] has
    gone through, reports "no successful simulation" although
    simulations succeeded. *)
Theorem slow_successes_unreported (sim : evaluator) :
  total_evaluator sim ->
  (forall Wn Wp o, sim Wn Wp L_val = Ok o ->
     Py.less (delay_ns o) 1e9 = false) ->
  exists st,
    grid_search sim Wn_values Wp_values initial_search = Ok st
    /\ (forall h,
          optimize_with true h sim
          = (_ <- prepare_library h ;; Ok (NoSuccessfulSimulation, st)))
    /\ best_params st = None /\ best_delay st = 1e9.
Proof.
  intros Htot Hslow.
  destruct (grid_search_simulated sim Htot Wn_values Wp_values
              source_grid_window initial_search) as (st & Hrun & _).
  assert (Hinv : incumbent_sound sim st /\ incumbent_minimal sim st).
  { eapply grid_search_preserves; [exact Hrun | ]. split.
    - split; [discriminate | reflexivity].
    - intros a b o []. }
  destruct Hinv as [ [Hsome Hnone] _].
  assert (Hbp : best_params st = None).
  { destruct (best_params st) as [ [ [a b] c] | ] eqn:Hbp; [ | reflexivity].
    destruct (Hsome a b c eq_refl) as (_ & _ & o & Ho & _ & Hd & Hlt).
    rewrite <- Hd, (Hslow a b o Ho) in Hlt. discriminate. }
  exists st. split; [exact Hrun | split; [ | split; [exact Hbp | now apply Hnone] ] ].
  intros h. unfold optimize_with. cbn [negb].
  destruct (prepare_library h); cbn [Py.bind]; [ | reflexivity].
  rewrite Hrun. cbn [Py.bind]. unfold record_results, report_of.
  now rewrite Hbp.
Qed.

Lemma slow_successes_unreported_nan :
  total_evaluator (const_sim (measured nan)) /\
  (forall Wn Wp o, const_sim (measured nan) Wn Wp L_val = Ok o ->
     Py.less (delay_ns o) 1e9 = false) /\
  exists st,
    grid_search (const_sim (measured nan)) Wn_values Wp_values initial_search
    = Ok st
    /\ (forall h,
          optimize_with true h (const_sim (measured nan))
          = (_ <- prepare_library h ;; Ok (NoSuccessfulSimulation, st)))
    /\ best_params st = None /\ best_delay st = 1e9.
Proof.
  assert (H1 : total_evaluator (const_sim (measured nan))).
  { intros Wn Wp L. exists (measured nan). reflexivity. }
  assert (H2 : forall Wn Wp o, const_sim (measured nan) Wn Wp L_val = Ok o ->
                 Py.less (delay_ns o) 1e9 = false).
  { intros Wn Wp o H. injection H as <-. reflexivity. }
  split; [exact H1 | split; [exact H2 | ] ].
  exact (slow_successes_unreported (const_sim (measured nan)) H1 H2).
Defined.





(** Without the project directory [mkdir] raises before the loops: no
    candidate is evaluated, whatever the simulator would do. *)
Example missing_directory_stops_search
    (world : float -> float -> float -> toolchain) :
  optimize_with_simulator true missing_directory_host world
  = Raise (ExternalError "FileNotFoundError").
Proof. reflexivity. Qed.

(** X20: the analytical figures printed for the best solution: the
    re-evaluation of the incumbent never raises, and its record is well
    formed. *)
Theorem best_solution_reevaluates (sim : evaluator) :
  total_evaluator sim ->
  exists st r,
    grid_search sim Wn_values Wp_values initial_search = Ok st
    /\ analytical_summary st = Ok r
    /\ (r = None <-> best_params st = None)
    /\ forall p, r = Some p -> well_formed p.
Proof.
  intros Htot.
  destruct (grid_search_simulated sim Htot Wn_values Wp_values
              source_grid_window initial_search) as (st & Hrun & Hsim).
  assert (Hinv : incumbent_sound sim st /\ incumbent_minimal sim st).
  { eapply grid_search_preserves; [exact Hrun | ]. split.
    - split; [discriminate | reflexivity].
    - intros a b o []. }
  destruct Hinv as [ [Hsome _] _].
  cbn [simulated initial_search app] in Hsim.
  destruct (best_params st) as [ [ [a b] c] | ] eqn:Hbp.
  2:{ exists st, None. unfold analytical_summary. rewrite Hbp.
      split; [assumption | split; [reflexivity | split] ].
      - split; reflexivity.
      - discriminate. }
  destruct (Hsome a b c eq_refl) as (-> & Hin & _).
  rewrite Hsim in Hin. vm_compute in Hin.
  assert (Hrec : exists p, compute_performances a b L_val = Ok p /\ well_formed p).
  { destruct Hin as [H | [H | [H | [H | [H | [H | [] ] ] ] ] ] ];
      injection H as <- <-;
      (eexists; split; [vm_compute; reflexivity | ];
       unfold well_formed; repeat apply conj; vm_compute; reflexivity). }
  destruct Hrec as (p & Hp & Hw).
  exists st, (Some p). unfold analytical_summary. rewrite Hbp, Hp.
  cbn [Py.bind].
  split; [assumption | split; [reflexivity | split] ].
  - split; discriminate.
  - intros q Hq. injection Hq as <-. exact Hw.
Qed.

Lemma best_solution_reevaluates_measured :
  total_evaluator (const_sim (measured 0.05)) /\
  exists st r,
    grid_search (const_sim (measured 0.05)) Wn_values Wp_values initial_search
    = Ok st
    /\ analytical_summary st = Ok r
    /\ (r = None <-> best_params st = None)
    /\ forall p, r = Some p -> well_formed p.
Proof.
  assert (H : total_evaluator (const_sim (measured 0.05))).
  { intros Wn Wp L. exists (measured 0.05). reflexivity. }
  split; [exact H | ].
  exact (best_solution_reevaluates (const_sim (measured 0.05)) H).
Defined.
